(** * p123linker: remote-tree synchronisation engine

    A shallow embedding of [plugins.v2/p123linker/__init__.py]: the
    breadth-first remote listing ([iterdir]), the link signer
    ([_generate_auth_url]), the two sync passes ([full_sync_strm_files],
    [incremental_sync_files]) and the legacy [FullSyncStrmHelper].

    Conventions of the embedding.
    - A Python [str] is a [string] holding its UTF-8 bytes. [str.strip]
      removes the white space of Unicode; [str.lower] lower-cases ASCII
      letters itself and takes the lower case of every other character
      from the Unicode tables of the interpreter, a parameter.
    - Python [int] is [Z]; a conversion of an [int] to text is checked
      against the digit limit of the interpreter.
    - [pathlib.Path] is the POSIX flavour of Python 3.12 (the version the
      plugin requires).
    - An exception is a value of [exn]; a call that may raise returns
      [result]. *)

From Stdlib Require Import ZArith Ascii String Lia.
From stdpp Require Import base decidable option list numbers strings gmap.

Local Open Scope Z_scope.

(** ** Python strings *)

Module Py.

Definition ascii_eqb (a b : ascii) : bool := bool_decide (a = b).

Definition string_eqb (a b : string) : bool := bool_decide (a = b).

(** [not s] for a string. *)
Definition falsy (s : string) : bool := string_eqb s "".

(** [not v] for an attribute that is [None] or a string. *)
Definition falsy_opt (v : option string) : bool :=
  match v with None => true | Some s => falsy s end.

Fixpoint len (s : string) : nat :=
  match s with EmptyString => 0%nat | String _ s' => S (len s') end.

Definition lower_char (c : ascii) : ascii :=
  let n := nat_of_ascii c in
  if ((65 <=? n) && (n <=? 90))%nat then ascii_of_nat (n + 32) else c.

(** [s.lower()] for a string of ASCII characters. *)
Fixpoint lower_ascii (s : string) : string :=
  match s with
  | EmptyString => EmptyString
  | String c s' => String (lower_char c) (lower_ascii s')
  end.

Fixpoint lstrip_by (p : ascii -> bool) (s : string) : string :=
  match s with
  | EmptyString => EmptyString
  | String c s' => if p c then lstrip_by p s' else s
  end.

Fixpoint rstrip_by (p : ascii -> bool) (s : string) : string :=
  match s with
  | EmptyString => EmptyString
  | String c s' =>
      match rstrip_by p s' with
      | EmptyString => if p c then EmptyString else String c EmptyString
      | r => String c r
      end
  end.

Definition strip_by (p : ascii -> bool) (s : string) : string :=
  rstrip_by p (lstrip_by p s).

Definition is_slash (c : ascii) : bool := ascii_eqb c "/".

(** [s.strip('/')] and [s.rstrip('/')] *)
Definition strip_slash : string -> string := strip_by is_slash.
Definition rstrip_slash : string -> string := rstrip_by is_slash.

(** [s.split(sep)] for a one-character separator. *)
Fixpoint split (sep : ascii) (s : string) : list string :=
  match s with
  | EmptyString => [EmptyString]
  | String c s' =>
      if ascii_eqb c sep then EmptyString :: split sep s'
      else match split sep s' with
           | w :: ws => String c w :: ws
           | [] => [String c EmptyString]
           end
  end.

(** [s.split(sep, 1)]: at most one cut, at the first separator. *)
Fixpoint split1 (sep : ascii) (s : string) : list string :=
  match s with
  | EmptyString => [EmptyString]
  | String c s' =>
      if ascii_eqb c sep then [EmptyString; s']
      else match split1 sep s' with
           | w :: ws => String c w :: ws
           | [] => [String c EmptyString]
           end
  end.

(** [sep.join(l)] *)
Fixpoint join (sep : string) (l : list string) : string :=
  match l with
  | [] => ""
  | [x] => x
  | x :: l' => x +:+ sep +:+ join sep l'
  end.

(** [s.startswith(p)] *)
Fixpoint startswith (p s : string) : bool :=
  match p, s with
  | EmptyString, _ => true
  | String a p', String b s' => ascii_eqb a b && startswith p' s'
  | String _ _, EmptyString => false
  end.

(** [s.replace(old, new)] for a non-empty [old]: a left-to-right scan;
    [skip] counts the characters of a match still to be dropped. *)
Fixpoint replace_go (old new : string) (skip : nat) (s : string) : string :=
  match s with
  | EmptyString => EmptyString
  | String c s' =>
      match skip with
      | S k => replace_go old new k s'
      | O =>
          if startswith old s
          then new +:+ replace_go old new (len old - 1) s'
          else String c (replace_go old new 0 s')
      end
  end.

Definition replace (old new s : string) : string := replace_go old new 0 s.

(** [str(n)] for an [int]. *)
Definition digit_char (d : Z) : ascii := ascii_of_nat (48 + Z.to_nat d).

Fixpoint digits_go (fuel : nat) (n : Z) (acc : string) : string :=
  match fuel with
  | O => acc
  | S f =>
      let acc' := String (digit_char (n mod 10)) acc in
      if n <? 10 then acc' else digits_go f (n / 10) acc'
  end.

Definition str_of_nonneg (n : Z) : string :=
  digits_go (S (Z.to_nat (Z.log2 n))) n "".

Definition str_of_int (n : Z) : string :=
  if n <? 0 then String "-" (str_of_nonneg (- n)) else str_of_nonneg n.

End Py.


(** ** [urllib.parse.quote] and [urllib.parse.unquote] *)

Module Urllib.

Definition byte_of (c : ascii) : Z := Z.of_nat (nat_of_ascii c).
Definition char_of (b : Z) : ascii := ascii_of_nat (Z.to_nat b).

Definition hex_digit (upper : bool) (d : Z) : ascii :=
  if d <? 10 then char_of (48 + d)
  else char_of ((if upper then 55 else 87) + d).

(** The value of a hexadecimal digit, of either case. *)
Definition hex_value (c : ascii) : option Z :=
  let b := byte_of c in
  if (48 <=? b) && (b <=? 57) then Some (b - 48)
  else if (65 <=? b) && (b <=? 70) then Some (b - 55)
  else if (97 <=? b) && (b <=? 102) then Some (b - 87)
  else None.

(** [_ALWAYS_SAFE] together with the default [safe='/']. *)
Definition is_safe (c : ascii) : bool :=
  let b := byte_of c in
  ((65 <=? b) && (b <=? 90)) || ((97 <=? b) && (b <=? 122)) ||
  ((48 <=? b) && (b <=? 57)) ||
  (b =? 95) || (b =? 46) || (b =? 45) || (b =? 126) || (b =? 47).

(** [quote(s)]: every byte outside the safe set becomes [%XX]. *)
Fixpoint quote (s : string) : string :=
  match s with
  | EmptyString => EmptyString
  | String c s' =>
      if is_safe c then String c (quote s')
      else
        let b := byte_of c in
        String "%" (String (hex_digit true (b / 16))
                   (String (hex_digit true (b mod 16)) (quote s')))
  end.

(** [unquote_to_bytes]: [%XX] becomes a byte, a [%] not followed by two
    hexadecimal digits stays. *)
Fixpoint unquote_to_bytes (s : string) : string :=
  match s with
  | EmptyString => EmptyString
  | String c s' =>
      if Py.ascii_eqb c "%" then
        match s' with
        | String h (String l s'') =>
            match hex_value h, hex_value l with
            | Some x, Some y => String (char_of (16 * x + y)) (unquote_to_bytes s'')
            | _, _ => String c (unquote_to_bytes s')
            end
        | _ => String c (unquote_to_bytes s')
        end
      else String c (unquote_to_bytes s')
  end.

(** U+FFFD in UTF-8. *)
Definition replacement : string :=
  String (char_of 239) (String (char_of 191) (String (char_of 189) EmptyString)).

Definition is_cont (c : ascii) : bool :=
  let b := byte_of c in (128 <=? b) && (b <=? 191).

(** The second byte a lead byte [b] of a three- or four-byte sequence
    accepts (no overlong forms, no surrogates, nothing above U+10FFFF). *)
Definition second_ok (b : Z) (c : ascii) : bool :=
  let x := byte_of c in
  if b =? 224 then (160 <=? x) && (x <=? 191)
  else if b =? 237 then (128 <=? x) && (x <=? 159)
  else if b =? 240 then (144 <=? x) && (x <=? 191)
  else if b =? 244 then (128 <=? x) && (x <=? 143)
  else is_cont c.

(** [bytes.decode('utf-8', 'replace')], seen on the UTF-8 bytes of the
    result: well-formed sequences stay, every ill-formed maximal
    subsequence becomes U+FFFD. *)
Fixpoint decode_replace (s : string) : string :=
  match s with
  | EmptyString => EmptyString
  | String c r =>
      let b := byte_of c in
      if b <? 128 then String c (decode_replace r)
      else if b <? 194 then replacement +:+ decode_replace r
      else if b <? 224 then
        match r with
        | EmptyString => replacement
        | String c1 r1 =>
            if is_cont c1 then String c (String c1 (decode_replace r1))
            else replacement +:+ decode_replace r
        end
      else if b <? 240 then
        match r with
        | EmptyString => replacement
        | String c1 r1 =>
            if second_ok b c1 then
              match r1 with
              | EmptyString => replacement
              | String c2 r2 =>
                  if is_cont c2
                  then String c (String c1 (String c2 (decode_replace r2)))
                  else replacement +:+ decode_replace r1
              end
            else replacement +:+ decode_replace r
        end
      else if b <? 245 then
        match r with
        | EmptyString => replacement
        | String c1 r1 =>
            if second_ok b c1 then
              match r1 with
              | EmptyString => replacement
              | String c2 r2 =>
                  if is_cont c2 then
                    match r2 with
                    | EmptyString => replacement
                    | String c3 r3 =>
                        if is_cont c3
                        then String c (String c1 (String c2 (String c3 (decode_replace r3))))
                        else replacement +:+ decode_replace r2
                    end
                  else replacement +:+ decode_replace r1
              end
            else replacement +:+ decode_replace r
        end
      else replacement +:+ decode_replace r
  end.

Definition is_ascii (c : ascii) : bool := byte_of c <? 128.

(** The maximal runs of ASCII and of non-ASCII characters of a string,
    in order ([_asciire.split]). *)
Fixpoint ascii_runs (s : string) : list (bool * string) :=
  match s with
  | EmptyString => []
  | String c s' =>
      let a := is_ascii c in
      match ascii_runs s' with
      | (b, r) :: rest =>
          if Bool.eqb a b then (b, String c r) :: rest
          else (a, String c EmptyString) :: (b, r) :: rest
      | [] => [(a, String c EmptyString)]
      end
  end.

Fixpoint contains (c : ascii) (s : string) : bool :=
  match s with
  | EmptyString => false
  | String x s' => Py.ascii_eqb x c || contains c s'
  end.

Fixpoint concat_strings (l : list string) : string :=
  match l with [] => EmptyString | x :: l' => x +:+ concat_strings l' end.

(** What becomes of a run: an ASCII run is percent-decoded and decoded as
    UTF-8 with replacement, another one stays. *)
Definition decode_run (ar : bool * string) : string :=
if fst ar then decode_replace (unquote_to_bytes (snd ar)) else snd ar.

Definition unquote_runs (s : string) : string :=
concat_strings (map decode_run (ascii_runs s)).

(** [unquote(s)]: unchanged without a [%]; otherwise run by run. *)
Definition unquote (s : string) : string :=
if negb (contains "%" s) then s else unquote_runs s.

End Urllib.

(** ** Unicode text: [str.strip] and [str.lower] *)

Module Unicode.

Import Urllib.

(** The white space [str.strip()] removes: that of ASCII (the bytes 9 to
    13 and 28 to 32), U+0085, U+00A0, U+1680, U+2000 to U+200A, U+2028,
    U+2029, U+202F, U+205F and U+3000. [space_width s] is the number of
    bytes of the white-space character [s] starts with, 0 when it starts
    with none. *)
Definition ascii_space (c : ascii) : bool :=
  let b := byte_of c in ((9 <=? b) && (b <=? 13)) || ((28 <=? b) && (b <=? 32)).

Definition space_width (s : string) : nat :=
  match s with
  | EmptyString => 0%nat
  | String c r =>
      let b := byte_of c in
      if ascii_space c then 1%nat
      else
        match r with
        | EmptyString => 0%nat
        | String c1 r1 =>
            let b1 := byte_of c1 in
            if (b =? 194) && ((b1 =? 133) || (b1 =? 160)) then 2%nat
            else
              match r1 with
              | EmptyString => 0%nat
              | String c2 _ =>
                  let b2 := byte_of c2 in
                  if (b =? 225) && (b1 =? 154) && (b2 =? 128) then 3%nat
                  else if (b =? 226) && (b1 =? 128)
                          && (((128 <=? b2) && (b2 <=? 138)) || (b2 =? 168)
                              || (b2 =? 169) || (b2 =? 175)) then 3%nat
                  else if (b =? 226) && (b1 =? 129) && (b2 =? 159) then 3%nat
                  else if (b =? 227) && (b1 =? 128) && (b2 =? 128) then 3%nat
                  else 0%nat
              end
        end
  end.

(** [s.lstrip()]; [skip] counts the bytes of a white-space character
    still to be dropped. *)
Fixpoint lstrip_go (skip : nat) (s : string) : string :=
  match s with
  | EmptyString => EmptyString
  | String c r =>
      match skip with
      | S k => lstrip_go k r
      | O =>
          match space_width s with
          | O => s
          | S k => lstrip_go k r
          end
      end
  end.

Definition lstrip (s : string) : string := lstrip_go 0 s.

(** [s.rstrip()]: what is left is cut where only white space follows. *)
Fixpoint rstrip (s : string) : string :=
  match s with
  | EmptyString => EmptyString
  | String c r => if Py.falsy (lstrip s) then EmptyString else String c (rstrip r)
  end.

(** [s.strip()] *)
Definition strip (s : string) : string := rstrip (lstrip s).

(** The code points of a string, from its UTF-8 bytes; a byte that
    starts no well-formed sequence is read as U+FFFD. *)
Fixpoint decode (s : string) : list Z :=
  match s with
  | EmptyString => []
  | String c r =>
      let b := byte_of c in
      if b <? 128 then b :: decode r
      else if b <? 194 then 65533 :: decode r
      else if b <? 224 then
        match r with
        | String c1 r1 =>
            if is_cont c1 then ((b - 192) * 64 + (byte_of c1 - 128)) :: decode r1
            else 65533 :: decode r
        | EmptyString => [65533]
        end
      else if b <? 240 then
        match r with
        | String c1 (String c2 r2) =>
            if second_ok b c1 && is_cont c2
            then ((b - 224) * 4096 + (byte_of c1 - 128) * 64 + (byte_of c2 - 128))
                 :: decode r2
            else 65533 :: decode r
        | _ => 65533 :: decode r
        end
      else if b <? 245 then
        match r with
        | String c1 (String c2 (String c3 r3)) =>
            if second_ok b c1 && is_cont c2 && is_cont c3
            then ((b - 240) * 262144 + (byte_of c1 - 128) * 4096
                  + (byte_of c2 - 128) * 64 + (byte_of c3 - 128)) :: decode r3
            else 65533 :: decode r
        | _ => 65533 :: decode r
        end
      else 65533 :: decode r
  end.

(** The UTF-8 bytes of a code point. *)
Definition encode_point (x : Z) : string :=
  if x <? 128 then String (char_of x) ""
  else if x <? 2048 then
    String (char_of (192 + x / 64)) (String (char_of (128 + x mod 64)) "")
  else if x <? 65536 then
    String (char_of (224 + x / 4096))
      (String (char_of (128 + (x / 64) mod 64)) (String (char_of (128 + x mod 64)) ""))
  else
    String (char_of (240 + (x / 262144) mod 8))
      (String (char_of (128 + (x / 4096) mod 64))
         (String (char_of (128 + (x / 64) mod 64))
            (String (char_of (128 + x mod 64)) ""))).

Fixpoint encode (l : list Z) : string :=
  match l with
  | [] => EmptyString
  | x :: l' => encode_point x +:+ encode l'
  end.

(** What lower-casing can give for a character outside ASCII: a small
    ASCII letter ([K], the Kelvin sign, gives [k]) or a character outside
    ASCII. *)
Definition lowered (x : Z) : Prop := 97 <= x <= 122 \/ 128 <= x.

(** The Unicode tables of the interpreter, as far as [str.lower] goes:
    the lower case of a character outside ASCII, given the characters
    before it (the nearest first) and after it (the capital sigma goes by
    them). It is one character or more, none of them an ASCII character
    that is not a small letter. *)
Record tables := {
  lower_at : list Z -> Z -> list Z -> list Z;
  lower_at_shape : forall before c after,
    128 <= c ->
    lower_at before c after <> [] /\ Forall lowered (lower_at before c after)
}.

(** The lower case of an ASCII character. *)
Definition lower_point (c : Z) : Z :=
  if (65 <=? c) && (c <=? 90) then c + 32 else c.

Fixpoint lower_points (U : tables) (before l : list Z) : list Z :=
  match l with
  | [] => []
  | c :: after =>
      (if c <? 128 then [lower_point c] else lower_at U before c after)
      ++ lower_points U (c :: before) after
  end.

Fixpoint all_ascii (s : string) : bool :=
  match s with
  | EmptyString => true
  | String c r => is_ascii c && all_ascii r
  end.

(** [s.lower()]: byte by byte for an ASCII string, character by
    character otherwise. *)
Definition lower (U : tables) (s : string) : string :=
  if all_ascii s then Py.lower_ascii s
  else encode (lower_points U [] (decode s)).

End Unicode.

(** ** [hashlib.md5] (RFC 1321) *)

Module MD5.

Definition add32 (a b : Z) : Z := (a + b) mod 2 ^ 32.
Definition not32 (a : Z) : Z := Z.lxor a 0xffffffff.
Definition rotl32 (x c : Z) : Z :=
  Z.lor (Z.shiftl x c mod 2 ^ 32) (Z.shiftr x (32 - c)).

Definition K : list Z :=
  [ 0xd76aa478; 0xe8c7b756; 0x242070db; 0xc1bdceee;
    0xf57c0faf; 0x4787c62a; 0xa8304613; 0xfd469501;
    0x698098d8; 0x8b44f7af; 0xffff5bb1; 0x895cd7be;
    0x6b901122; 0xfd987193; 0xa679438e; 0x49b40821;
    0xf61e2562; 0xc040b340; 0x265e5a51; 0xe9b6c7aa;
    0xd62f105d; 0x02441453; 0xd8a1e681; 0xe7d3fbc8;
    0x21e1cde6; 0xc33707d6; 0xf4d50d87; 0x455a14ed;
    0xa9e3e905; 0xfcefa3f8; 0x676f02d9; 0x8d2a4c8a;
    0xfffa3942; 0x8771f681; 0x6d9d6122; 0xfde5380c;
    0xa4beea44; 0x4bdecfa9; 0xf6bb4b60; 0xbebfbc70;
    0x289b7ec6; 0xeaa127fa; 0xd4ef3085; 0x04881d05;
    0xd9d4d039; 0xe6db99e5; 0x1fa27cf8; 0xc4ac5665;
    0xf4292244; 0x432aff97; 0xab9423a7; 0xfc93a039;
    0x655b59c3; 0x8f0ccc92; 0xffeff47d; 0x85845dd1;
    0x6fa87e4f; 0xfe2ce6e0; 0xa3014314; 0x4e0811a1;
    0xf7537e82; 0xbd3af235; 0x2ad7d2bb; 0xeb86d391 ].

Definition shifts : list Z :=
  [ 7; 12; 17; 22; 7; 12; 17; 22; 7; 12; 17; 22; 7; 12; 17; 22;
    5; 9; 14; 20; 5; 9; 14; 20; 5; 9; 14; 20; 5; 9; 14; 20;
    4; 11; 16; 23; 4; 11; 16; 23; 4; 11; 16; 23; 4; 11; 16; 23;
    6; 10; 15; 21; 6; 10; 15; 21; 6; 10; 15; 21; 6; 10; 15; 21 ].

Definition at_ (l : list Z) (i : nat) : Z := nth i l 0.

Record state := { sa : Z; sb : Z; sc : Z; sd : Z }.

Definition init : state :=
  {| sa := 0x67452301; sb := 0xefcdab89; sc := 0x98badcfe; sd := 0x10325476 |}.

(** One of the 64 operations on the block [m] of sixteen words. *)
Definition step (m : list Z) (st : state) (i : nat) : state :=
  let '(Build_state a b c d) := st in
  let '(f, g) :=
    if (i <? 16)%nat then (Z.lor (Z.land b c) (Z.land (not32 b) d), i)
    else if (i <? 32)%nat then (Z.lor (Z.land d b) (Z.land (not32 d) c), (5 * i + 1) mod 16)%nat
    else if (i <? 48)%nat then (Z.lxor (Z.lxor b c) d, (3 * i + 5) mod 16)%nat
    else (Z.lxor c (Z.lor b (not32 d)), (7 * i) mod 16)%nat in
  let f' := add32 (add32 (add32 f a) (at_ K i)) (at_ m g) in
  {| sa := d; sb := add32 b (rotl32 f' (at_ shifts i)); sc := b; sd := c |}.

Definition compress (st : state) (m : list Z) : state :=
  let st' := fold_left (step m) (seq 0 64) st in
  {| sa := add32 (sa st) (sa st'); sb := add32 (sb st) (sb st');
     sc := add32 (sc st) (sc st'); sd := add32 (sd st) (sd st') |}.

(** Little-endian bytes of a word, and words of bytes. *)
Definition le_bytes (n : nat) (x : Z) : list Z :=
  map (fun k => Z.shiftr x (8 * Z.of_nat k) mod 256) (seq 0 n).

Fixpoint le_words (fuel : nat) (bs : list Z) : list Z :=
  match fuel, bs with
  | S f, b0 :: b1 :: b2 :: b3 :: r =>
      (b0 + 256 * b1 + 65536 * b2 + 16777216 * b3) :: le_words f r
  | _, _ => []
  end.

Fixpoint blocks (fuel : nat) (ws : list Z) : list (list Z) :=
  match fuel, ws with
  | S f, _ :: _ => firstn 16 ws :: blocks f (skipn 16 ws)
  | _, _ => []
  end.

Definition pad (bs : list Z) : list Z :=
  let n := length bs in
  let zeros := ((119 - n mod 64) mod 64)%nat in
  bs ++ [128] ++ repeat 0 zeros ++ le_bytes 8 ((8 * Z.of_nat n) mod 2 ^ 64).

Definition digest (bs : list Z) : list Z :=
  let p := pad bs in
  let ws := le_words (length p) p in
  let st := fold_left compress (blocks (length ws) ws) init in
  le_bytes 4 (sa st) ++ le_bytes 4 (sb st) ++ le_bytes 4 (sc st) ++ le_bytes 4 (sd st).

Fixpoint bytes_of_string (s : string) : list Z :=
  match s with
  | EmptyString => []
  | String c s' => Urllib.byte_of c :: bytes_of_string s'
  end.

Fixpoint hex_of_bytes (bs : list Z) : string :=
  match bs with
  | [] => EmptyString
  | b :: r =>
      String (Urllib.hex_digit false (b / 16))
        (String (Urllib.hex_digit false (b mod 16)) (hex_of_bytes r))
  end.

(** [hashlib.md5(s.encode()).hexdigest()] *)
Definition hexdigest (s : string) : string :=
  hex_of_bytes (digest (bytes_of_string s)).

End MD5.

(** ** [pathlib.PurePosixPath] *)

Module Pathlib.

(** A parsed path: the root ([""], ["/"] or ["//"]) and the segments. *)
Record PurePath := { root : string; tail : list string }.

Global Instance PurePath_eq_dec : EqDecision PurePath.
Proof. solve_decision. Defined.

(** [posixpath.splitroot]: one leading slash or three and more are the
    root [/], exactly two are the root [//]. *)
Definition splitroot (p : string) : string * string :=
match p with
| String c r =>
    if Py.is_slash c then
      match r with
      | String c1 r2 =>
          if Py.is_slash c1 then
            match r2 with
            | String c2 _ => if Py.is_slash c2 then ("/", r) else ("//", r2)
            | EmptyString => ("//", r2)
            end
          else ("/", r)
      | EmptyString => ("/", r)
      end
    else ("", p)
| EmptyString => ("", p)
end.

Definition keep_segment (x : string) : bool :=
  negb (Py.string_eqb x "") && negb (Py.string_eqb x ".").

(** [Path(s)]: split at the slashes, empty and ["."] segments dropped. *)
Definition Path (s : string) : PurePath :=
  let '(rt, rel) := splitroot s in
  {| root := rt; tail := List.filter keep_segment (Py.split "/" rel) |}.

(** [str(p)] *)
Definition str (p : PurePath) : string :=
  match root p, tail p with
  | EmptyString, [] => "."
  | rt, tl => rt +:+ Py.join "/" tl
  end.

(** [a / b] *)
Definition joinpath (a b : PurePath) : PurePath :=
  if Py.falsy (root b) then {| root := root a; tail := tail a ++ tail b |}
  else b.

Fixpoint is_prefix (p l : list string) : bool :=
  match p, l with
  | [], _ => true
  | x :: p', y :: l' => Py.string_eqb x y && is_prefix p' l'
  | _ :: _, [] => false
  end.

(** [self.relative_to(other)]; [None] is the [ValueError]. *)
Definition relative_to (self other : PurePath) : option PurePath :=
  if Py.string_eqb (root self) (root other) && is_prefix (tail other) (tail self)
  then Some {| root := ""; tail := drop (length (tail other)) (tail self) |}
  else None.

(** [p.parent] *)
Definition parent (p : PurePath) : PurePath :=
  {| root := root p; tail := removelast (tail p) |}.

(** [p.name] *)
Definition name (p : PurePath) : string := List.last (tail p) "".

(** The cut of a name at its last dot: what is before, and the dot with
    what follows. *)
Fixpoint rpartition_dot (s : string) : option (string * string) :=
  match s with
  | EmptyString => None
  | String c s' =>
      match rpartition_dot s' with
      | Some (a, b) => Some (String c a, b)
      | None => if Py.ascii_eqb c "." then Some (EmptyString, s) else None
      end
  end.

(** [i = name.rfind('.')] with [0 < i < len(name) - 1] *)
Definition split_suffix (nm : string) : string * string :=
  match rpartition_dot nm with
  | Some (a, b) =>
      if negb (Py.falsy a) && (1 <? Py.len b)%nat then (a, b) else (nm, "")
  | None => (nm, "")
  end.

(** [p.suffix] and [p.stem] *)
Definition suffix (p : PurePath) : string := snd (split_suffix (name p)).
Definition stem (p : PurePath) : string := fst (split_suffix (name p)).

End Pathlib.

(** ** Exceptions *)

Inductive os_error :=
| FileExistsError
| FileNotFoundError
| NotADirectoryError
| IsADirectoryError.

Inductive exn :=
| ValueError (msg : string)
| AttributeError (msg : string)
| IndexError (msg : string)
| TypeError (msg : string)
| OSError (kind : os_error) (path : string)
| RemoteError (msg : string).

Inductive result (A : Type) :=
| Ok (a : A)
| Raise (e : exn).
Arguments Ok {A} a.
Arguments Raise {A} e.

(** [str(n)] and [f"{n}"] for an [int], under the limit
    [sys.get_int_max_str_digits()] of the interpreter (0 for none, 4300
    unless changed): a conversion of more than 640 digits is checked
    against it. *)
Definition digits_over (limit digits : Z) : bool :=
  (0 <? limit) && (640 <? digits) && (limit <? digits).

Definition digit_limit_error : exn :=
  ValueError "Exceeds the limit for integer string conversion".

Definition format_int (limit n : Z) : result string :=
  if digits_over limit (Z.of_nat (Py.len (Py.str_of_nonneg (Z.abs n))))
  then Raise digit_limit_error
  else Ok (Py.str_of_int n).

Global Instance os_error_eq_dec : EqDecision os_error.
Proof. solve_decision. Defined.

Global Instance exn_eq_dec : EqDecision exn.
Proof. solve_decision. Defined.

(** ** The remote drive: [P123Client] *)

(** A Python value that is an [int] or a [str] (the paging cursor). *)
Inductive pyval := PInt (n : Z) | PStr (s : string).

Global Instance pyval_eq_dec : EqDecision pyval.
Proof. solve_decision. Defined.

(** One element of [InfoList]; [Type_] is its key [Type]. [UpdateTime] may
    be absent. *)
Record item := {
  FileId : Z;
  FileName : string;
  Type_ : Z;
  Size : Z;
  Etag : string;
  S3KeyFlag : string;
  UpdateTime : option Z
}.

Global Instance item_eq_dec : EqDecision item.
Proof. solve_decision. Defined.

(** The argument of [fs_list]. The requests of [iterdir] carry [Page],
    those of the directory-id resolution do not. *)
Record payload := {
  limit : Z;
  next : pyval;
  Page : option Z;
  parentFileId : Z;
  inDirectSpace : string
}.

Global Instance payload_eq_dec : EqDecision payload.
Proof. solve_decision. Defined.

(** [resp["data"]] of a listing that passed [check_response]. *)
Record listing := { InfoList : list item; Next : pyval }.

(** The argument of [download_info]. *)
Record download_payload := {
  dl_Etag : string;
  dl_FileID : Z;
  dl_FileName : string;
  dl_S3KeyFlag : string;
  dl_Size : Z
}.

(** The client answers a request by its payload alone. [fs_list] stands
    for the call followed by [check_response]: [Raise] when either
    raises. [download_info] likewise, giving [resp["data"]["DownloadUrl"]].
    [http_get] is [requests.get(url, stream=True)] with
    [raise_for_status] and the whole body read. *)
Record P123Client := {
  fs_list : payload -> result listing;
  download_info : download_payload -> result string;
  http_get : string -> result string
}.

(** ** [iterdir]: breadth-first listing *)

(** What the generator yields: the item ([**item]) and the added keys;
    [size], [md5] and [uri] only for files. *)
Record entry := {
  e_item : item;
  relpath : string;
  is_dir : bool;
  id : Z;
  parent_id : Z;
  name : string;
  size : option Z;
  md5 : option string;
  uri : option string
}.

Global Instance entry_eq_dec : EqDecision entry.
Proof. solve_decision. Defined.

(** How a run of the generator ends. *)
Inductive ending :=
| Exhausted
| Raised (e : exn)
| OutOfFuel.

(** What the consumer of the generator observes, in order: a request
    going out to the drive, an entry coming back from [yield]. *)
Inductive event :=
| Sent (p : payload)
| Yield (e : entry).

(** A run of the generator. *)
Record run := { events : list event; ending_of : ending }.

Fixpoint yields (l : list event) : list entry :=
  match l with
  | [] => []
  | Sent _ :: l' => yields l'
  | Yield e :: l' => e :: yields l'
  end.

Fixpoint requests (l : list event) : list payload :=
  match l with
  | [] => []
  | Sent p :: l' => p :: requests l'
  | Yield _ :: l' => requests l'
  end.

Definition yielded (r : run) : list entry := yields (events r).
Definition sent (r : run) : list payload := requests (events r).

Definition item_is_dir (it : item) : bool := negb (Type_ it =? 0).

(** [f"{current_path}/{item['FileName']}" if current_path else item["FileName"]] *)
Definition item_path (current_path : string) (file_name : string) : string :=
  if Py.falsy current_path then file_name
  else current_path +:+ "/" +:+ file_name.

Definition file_uri (it : item) : string :=
  "123://" +:+ Urllib.quote (FileName it) +:+ "|" +:+ Py.str_of_int (Size it)
  +:+ "|" +:+ Etag it +:+ "?" +:+ S3KeyFlag it.

Definition make_entry (current_parent_id : Z) (current_path : string) (it : item) : entry :=
  let d := item_is_dir it in
  {| e_item := it;
     relpath := item_path current_path (FileName it);
     is_dir := d;
     id := FileId it;
     parent_id := current_parent_id;
     name := FileName it;
     size := if d then None else Some (Size it);
     md5 := if d then None else Some (Etag it);
     uri := if d then None else Some (file_uri it) |}.

Section Iterdir.

Variable client : P123Client.
Variable only_file : bool.

(** The body of [for item in item_list]: what is appended to the queue
    and what is yielded. *)
Definition visit (current_parent_id : Z) (current_path : string) (it : item)
  : list (Z * string) * list entry :=
  let d := item_is_dir it in
  (if d then [(FileId it, item_path current_path (FileName it))] else [],
   if d && only_file then [] else [make_entry current_parent_id current_path it]).

Fixpoint for_items (current_parent_id : Z) (current_path : string) (l : list item)
  : list (Z * string) * list entry :=
  match l with
  | [] => ([], [])
  | it :: l' =>
      let '(q1, y1) := visit current_parent_id current_path it in
      let '(q2, y2) := for_items current_parent_id current_path l' in
      (q1 ++ q2, y1 ++ y2)
  end.

(** The inner [while True] over the pages of one directory. It returns
    the queue with the sub-directories appended. *)
Fixpoint page_loop (fuel : nat) (current_parent_id : Z) (current_path : string)
    (page : Z) (_next : pyval) (queue : list (Z * string))
  : list (Z * string) * run :=
  match fuel with
  | O => (queue, {| events := []; ending_of := OutOfFuel |})
  | S fuel' =>
      let p := {| limit := 100; next := _next; Page := Some page;
                  parentFileId := current_parent_id; inDirectSpace := "false" |} in
      match fs_list client p with
      | Raise e => (queue, {| events := [Sent p]; ending_of := Raised e |})
      | Ok resp =>
          match InfoList resp with
          | [] => (queue, {| events := [Sent p]; ending_of := Exhausted |})
          | item_list =>
              let '(q, ys) := for_items current_parent_id current_path item_list in
              if bool_decide (Next resp = PStr "-1")
              then (queue ++ q,
                    {| events := Sent p :: map Yield ys; ending_of := Exhausted |})
              else
                let '(queue', r) :=
                  page_loop fuel' current_parent_id current_path (page + 1)
                    (Next resp) (queue ++ q) in
                (queue', {| events := Sent p :: map Yield ys ++ events r;
                            ending_of := ending_of r |})
          end
      end
  end.

(** The outer [while queue]. *)
Fixpoint queue_loop (fuel : nat) (queue : list (Z * string)) : run :=
  match fuel with
  | O => {| events := []; ending_of := OutOfFuel |}
  | S fuel' =>
      match queue with
      | [] => {| events := []; ending_of := Exhausted |}
      | (current_parent_id, current_path) :: queue' =>
          let '(queue'', r) :=
            page_loop fuel' current_parent_id current_path 1 (PInt 0) queue' in
          match ending_of r with
          | Exhausted =>
              let r' := queue_loop fuel' queue'' in
              {| events := events r ++ events r'; ending_of := ending_of r' |}
          | _ => r
          end
      end
  end.

(** [iterdir(client, parent_id, interval, only_file)]. [fuel] bounds the
    iterations of each [while]; [interval] only sleeps. *)
Definition iterdir (fuel : nat) (parent_id : Z) : run :=
  queue_loop fuel [(parent_id, "")].

End Iterdir.

(** ** The local file system *)

Module Fs.

Import Pathlib.

Inductive fnode := FDir | FFile (content : string).

Global Instance fnode_eq_dec : EqDecision fnode.
Proof. solve_decision. Defined.

(** The nodes below the roots, by [str(path)]. A path without segments
    (["/"], ["."]) is a directory that always exists. *)
Abbreviation fs := (gmap string fnode).

Definition exists_ (f : fs) (p : PurePath) : bool :=
  match tail p with
  | [] => true
  | _ => bool_decide (is_Some (f !! str p))
  end.

Definition is_dir (f : fs) (p : PurePath) : bool :=
  match tail p with
  | [] => true
  | _ => bool_decide (f !! str p = Some FDir)
  end.

Definition is_file (f : fs) (p : PurePath) : bool :=
  match tail p with
  | [] => false
  | _ => match f !! str p with Some (FFile _) => true | _ => false end
  end.

(** One of the directories above [p] is a file; [n] is the number of
    segments of [p]. *)
Fixpoint under_file_go (n : nat) (f : fs) (p : PurePath) : bool :=
  match n with
  | O => false
  | S n' => is_file f (parent p) || under_file_go n' f (parent p)
  end.

Definition under_file (f : fs) (p : PurePath) : bool :=
  under_file_go (length (tail p)) f p.

(** [os.mkdir(p)] *)
Definition os_mkdir (f : fs) (p : PurePath) : result fs :=
  if exists_ f p then Raise (OSError FileExistsError (str p))
  else if under_file f p then Raise (OSError NotADirectoryError (str p))
  else if is_dir f (parent p) then Ok (<[str p := FDir]> f)
  else Raise (OSError FileNotFoundError (str p)).

(** [p.mkdir(parents=True, exist_ok=True)]; [n] bounds the recursion
    into the parents, the number of segments is enough. *)
Fixpoint mkdir_go (n : nat) (f : fs) (p : PurePath) : result fs :=
  match os_mkdir f p with
  | Ok f' => Ok f'
  | Raise (OSError FileNotFoundError x) =>
      match n with
      | O => Raise (OSError FileNotFoundError x)
      | S n' =>
          if bool_decide (parent p = p) then Raise (OSError FileNotFoundError x)
          else
            match mkdir_go n' f (parent p) with
            | Raise e => Raise e
            | Ok f1 =>
                match os_mkdir f1 p with
                | Ok f2 => Ok f2
                | Raise (OSError FileNotFoundError y) =>
                    Raise (OSError FileNotFoundError y)
                | Raise e => if is_dir f1 p then Ok f1 else Raise e
                end
            end
      end
  | Raise e => if is_dir f p then Ok f else Raise e
  end.

Definition mkdir_parents (f : fs) (p : PurePath) : result fs :=
  mkdir_go (length (tail p)) f p.

(** [with open(p, "w") as h: h.write(content)] *)
Definition write_file (f : fs) (p : PurePath) (content : string) : result fs :=
  if is_dir f p then Raise (OSError IsADirectoryError (str p))
  else if under_file f p then Raise (OSError NotADirectoryError (str p))
  else if is_dir f (parent p) then Ok (<[str p := FFile content]> f)
  else Raise (OSError FileNotFoundError (str p)).

End Fs.

(** ** The plugin, the world around it, and the monad of a pass *)

(** The attributes of [p123linker] the sync passes read or write. *)
Record plugin := {
  _enabled : bool;
  _full_sync_strm_paths : option string;
  _uid : option string;
  _secret_key : option string;
  _user_rmt_mediaext : option string;
  _user_download_mediaext : option string;
  _full_sync_auto_download_mediainfo_enabled : bool;
  _custom_domain : option string;
  _expire_time : Z;
  _last_sync_time : Z;
  _incremental_sync_interval : Z
}.

Definition set_last_sync_time (self : plugin) (t : Z) : plugin :=
  {| _enabled := _enabled self;
     _full_sync_strm_paths := _full_sync_strm_paths self;
     _uid := _uid self;
     _secret_key := _secret_key self;
     _user_rmt_mediaext := _user_rmt_mediaext self;
     _user_download_mediaext := _user_download_mediaext self;
     _full_sync_auto_download_mediainfo_enabled :=
       _full_sync_auto_download_mediainfo_enabled self;
     _custom_domain := _custom_domain self;
     _expire_time := _expire_time self;
     _last_sync_time := t;
     _incremental_sync_interval := _incremental_sync_interval self |}.

(** An error-level log record: the text before the interpolated value,
    and the exception interpolated, if any. *)
Record log_record := { message : string; cause : option exn }.

(** What a pass can touch outside the plugin object. [listed],
    [downloads] and [fetched] are the requests sent to the drive, in
    order; [clock_reads] and [rand_draws] count the calls of
    [time.time()] and [random.randint]; [saved] is the [last_sync_time]
    entry of what [update_config] stored last; [strm_count] and
    [mediainfo_count] are the counters of the [FullSyncStrmHelper] at
    work, if one is. *)
Record world := {
  files : Fs.fs;
  log : list log_record;
  listed : list payload;
  downloads : list download_payload;
  fetched : list string;
  clock_reads : nat;
  rand_draws : nat;
  saved : option string;
  strm_count : Z;
  mediainfo_count : Z
}.

Definition set_files (f : Fs.fs) (w : world) : world :=
  {| files := f; log := log w; listed := listed w; downloads := downloads w;
     fetched := fetched w; clock_reads := clock_reads w;
     rand_draws := rand_draws w; saved := saved w;
     strm_count := strm_count w; mediainfo_count := mediainfo_count w |}.

Definition set_log (l : list log_record) (w : world) : world :=
  {| files := files w; log := l; listed := listed w; downloads := downloads w;
     fetched := fetched w; clock_reads := clock_reads w;
     rand_draws := rand_draws w; saved := saved w;
     strm_count := strm_count w; mediainfo_count := mediainfo_count w |}.

Definition set_listed (l : list payload) (w : world) : world :=
  {| files := files w; log := log w; listed := l; downloads := downloads w;
     fetched := fetched w; clock_reads := clock_reads w;
     rand_draws := rand_draws w; saved := saved w;
     strm_count := strm_count w; mediainfo_count := mediainfo_count w |}.

Definition set_downloads (l : list download_payload) (w : world) : world :=
  {| files := files w; log := log w; listed := listed w; downloads := l;
     fetched := fetched w; clock_reads := clock_reads w;
     rand_draws := rand_draws w; saved := saved w;
     strm_count := strm_count w; mediainfo_count := mediainfo_count w |}.

Definition set_fetched (l : list string) (w : world) : world :=
  {| files := files w; log := log w; listed := listed w; downloads := downloads w;
     fetched := l; clock_reads := clock_reads w;
     rand_draws := rand_draws w; saved := saved w;
     strm_count := strm_count w; mediainfo_count := mediainfo_count w |}.

Definition set_clock_reads (n : nat) (w : world) : world :=
  {| files := files w; log := log w; listed := listed w; downloads := downloads w;
     fetched := fetched w; clock_reads := n;
     rand_draws := rand_draws w; saved := saved w;
     strm_count := strm_count w; mediainfo_count := mediainfo_count w |}.

Definition set_rand_draws (n : nat) (w : world) : world :=
  {| files := files w; log := log w; listed := listed w; downloads := downloads w;
     fetched := fetched w; clock_reads := clock_reads w;
     rand_draws := n; saved := saved w;
     strm_count := strm_count w; mediainfo_count := mediainfo_count w |}.

Definition set_saved (s : option string) (w : world) : world :=
  {| files := files w; log := log w; listed := listed w; downloads := downloads w;
     fetched := fetched w; clock_reads := clock_reads w;
     rand_draws := rand_draws w; saved := s;
     strm_count := strm_count w; mediainfo_count := mediainfo_count w |}.

Definition set_strm_count (n : Z) (w : world) : world :=
  {| files := files w; log := log w; listed := listed w; downloads := downloads w;
     fetched := fetched w; clock_reads := clock_reads w;
     rand_draws := rand_draws w; saved := saved w;
     strm_count := n; mediainfo_count := mediainfo_count w |}.

Definition set_mediainfo_count (n : Z) (w : world) : world :=
  {| files := files w; log := log w; listed := listed w; downloads := downloads w;
     fetched := fetched w; clock_reads := clock_reads w;
     rand_draws := rand_draws w; saved := saved w;
     strm_count := strm_count w; mediainfo_count := n |}.

(** The collaborators: the drive, the clock ([clock n] is what the
    [n]-th call of [int(time.time())] returns), the random source, and
    the interpreter: its limit [sys.get_int_max_str_digits()],
    [datetime.fromtimestamp(t)] by the exception it raises, if any (a
    time the platform cannot turn into a date), and its Unicode
    tables. *)
Record env := {
  client : P123Client;
  clock : nat -> Z;
  entropy : nat -> Z;
  max_str_digits : Z;
  fromtimestamp : Z -> option exn;
  unicode : Unicode.tables
}.

(** [random.randint(a, b)], from one raw draw. *)
Definition randint (a b raw : Z) : Z := a + raw mod (b - a + 1).

Inductive outcome (A : Type) :=
| Done (a : A)
| Throw (e : exn)
| Diverge.
Arguments Done {A} a.
Arguments Throw {A} e.
Arguments Diverge {A}.

Definition M (A : Type) : Type := world -> world * outcome A.

Definition ret {A} (a : A) : M A := fun w => (w, Done a).
Definition throw {A} (e : exn) : M A := fun w => (w, Throw e).
Definition diverge {A} : M A := fun w => (w, Diverge).

Definition bind {A B} (m : M A) (k : A -> M B) : M B :=
  fun w =>
    match m w with
    | (w', Done a) => k a w'
    | (w', Throw e) => (w', Throw e)
    | (w', Diverge) => (w', Diverge)
    end.

(** [try: m except Exception as e: h e] *)
Definition try_except {A} (m : M A) (h : exn -> M A) : M A :=
  fun w =>
    match m w with
    | (w', Throw e) => h e w'
    | r => r
    end.

Notation "x <- m ;; k" := (bind m (fun x => k))
  (at level 100, m at next level, right associativity).
Notation "m ;;; k" := (bind m (fun _ => k))
  (at level 100, right associativity).

Definition lift {A} (r : result A) : M A :=
  match r with Ok a => ret a | Raise e => throw e end.

Definition modify (f : world -> world) : M unit := fun w => (f w, Done tt).

(** [logger.error(...)] *)
Definition log_error (msg : string) (c : option exn) : M unit :=
  modify (fun w => set_log (log w ++ [{| message := msg; cause := c |}]) w).

(** A file-system operation, on the files of the world. *)
Definition on_files (op : Fs.fs -> result Fs.fs) : M unit :=
  fun w =>
    match op (files w) with
    | Ok f => (set_files f w, Done tt)
    | Raise e => (w, Throw e)
    end.

(** [int(time.time())] *)
Definition now (E : env) : M Z :=
  fun w => (set_clock_reads (S (clock_reads w)) w, Done (clock E (clock_reads w))).

(** [random.randint(a, b)] *)
Definition draw (E : env) (a b : Z) : M Z :=
  fun w => (set_rand_draws (S (rand_draws w)) w,
            Done (randint a b (entropy E (rand_draws w)))).

(** [self._client.fs_list(p)] with [check_response]. *)
Definition call_fs_list (E : env) (p : payload) : M listing :=
  modify (fun w => set_listed (listed w ++ [p]) w) ;;;
  lift (fs_list (client E) p).

(** [self._client.download_info(p)] with [check_response]. *)
Definition call_download_info (E : env) (p : download_payload) : M string :=
  modify (fun w => set_downloads (downloads w ++ [p]) w) ;;;
  lift (download_info (client E) p).

(** [requests.get(url, stream=True)], [raise_for_status], the body. *)
Definition call_http_get (E : env) (url : string) : M string :=
  modify (fun w => set_fetched (fetched w ++ [url]) w) ;;;
  lift (http_get (client E) url).

(** [self.__update_config()], as far as the passes go: the dict is
    built, with [str(self._expire_time)], [str(self._last_sync_time)]
    and [str(self._incremental_sync_interval)] in this order, each of
    which can raise, and stored; [saved] keeps its [last_sync_time]. *)
Definition update_config (E : env) (self : plugin) : M unit :=
  lift (format_int (max_str_digits E) (_expire_time self)) ;;;
  s <- lift (format_int (max_str_digits E) (_last_sync_time self)) ;;
  lift (format_int (max_str_digits E) (_incremental_sync_interval self)) ;;;
  modify (set_saved (Some s)).

(** [datetime.fromtimestamp(t)] inside a log line: it matters by what it
    raises. *)
Definition date_of (E : env) (t : Z) : M unit :=
  match fromtimestamp E t with
  | Some e => throw e
  | None => ret tt
  end.

(** [for item in <generator>: body item], over a run of the generator:
    the requests go out as the loop pulls, and the loop ends as the
    generator does. *)
Fixpoint for_events (body : entry -> M unit) (l : list event) (e : ending) : M unit :=
  match l with
  | [] =>
      match e with
      | Exhausted => ret tt
      | Raised x => throw x
      | OutOfFuel => diverge
      end
  | Sent p :: l' =>
      modify (fun w => set_listed (listed w ++ [p]) w) ;;; for_events body l' e
  | Yield x :: l' => body x ;;; for_events body l' e
  end.

Definition for_run (body : entry -> M unit) (r : run) : M unit :=
  for_events body (events r) (ending_of r).

(** ** [_generate_auth_url]: the link signer *)

(** The link the [try] computes, for the expiry time and the random
    number drawn, when both can be written. *)
Definition auth_url (uid secret_key custom_domain : string) (expire_time rand : Z)
    (file_path : string) : string :=
  let request_path := "/" +:+ uid +:+ "/" +:+ file_path in
  let request_path := Urllib.unquote request_path in
  let sign_str :=
    request_path +:+ "-" +:+ Py.str_of_int expire_time +:+ "-" +:+ Py.str_of_int rand
    +:+ "-" +:+ uid +:+ "-" +:+ secret_key in
  let sign := MD5.hexdigest sign_str in
  let auth_key :=
    Py.str_of_int expire_time +:+ "-" +:+ Py.str_of_int rand +:+ "-" +:+ uid
    +:+ "-" +:+ sign in
  let domain := Py.rstrip_slash custom_domain in
  let domain :=
    if Py.startswith "http://" domain || Py.startswith "https://" domain
    then domain else "https://" +:+ domain in
  let base_url := domain +:+ request_path in
  base_url +:+ "?auth_key=" +:+ auth_key.

(** The value of an attribute that passed [if not self.x: raise]. *)
Definition attr (v : option string) : string := default "" v.

(** [_generate_auth_url(file_path)]. The first f-string of the [try]
    writes [expire_time]: it raises when the digits exceed the limit
    ([rand], of ten digits at most, is under the 640 any limit allows);
    the [except] logs and raises again. *)
Definition _generate_auth_url (E : env) (self : plugin) (file_path : string) : M string :=
  if Py.falsy_opt (_uid self) || Py.falsy_opt (_secret_key self) then
    log_error "【直链生成】缺少必要的配置：用户ID或鉴权密钥" None ;;;
    throw (ValueError "缺少必要的配置：用户ID或鉴权密钥")
  else if Py.falsy_opt (_custom_domain self) then
    log_error "【直链生成】未配置自定义域名" None ;;;
    throw (ValueError "未配置自定义域名")
  else
    try_except
      (t <- now E ;;
       let expire_time := t + _expire_time self * 60 in
       rand <- draw E 0 (2 ^ 31 - 1) ;;
       lift (format_int (max_str_digits E) expire_time) ;;;
       ret (auth_url (attr (_uid self)) (attr (_secret_key self))
              (attr (_custom_domain self)) expire_time rand file_path))
      (fun e =>
         log_error "【直链生成】生成直链过程中发生错误" (Some e) ;;;
         throw e).

(** ** The sync passes of [p123linker] *)

(** [full_sync_strm_files] and [incremental_sync_files] run the same
    code on a path pair, up to the tag of the log records and the
    [UpdateTime] check of the incremental pass. *)
Inductive mode := Full | Incremental.

Definition tag (m : mode) : string :=
  match m with Full => "【全量同步】" | Incremental => "【增量同步】" end.

(** [set(f".{ext.strip().lower()}" for ext in s.split(','))] *)
Definition ext_set (U : Unicode.tables) (s : string) : list string :=
  map (fun ext => "." +:+ Unicode.lower U (Unicode.strip ext)) (Py.split "," s).

(** The three ways an entry is treated. *)
Inductive category := Streamable | Sidecar | Ignored.

Global Instance category_eq_dec : EqDecision category.
Proof. solve_decision. Defined.

(** The [if file_ext in media_exts: ... elif auto and file_ext in
    data_exts: ... else: ...] of both passes. *)
Definition classify (U : Unicode.tables) (media_exts data_exts : list string)
    (auto_download : bool) (file_name : string) : category :=
  let file_ext := Unicode.lower U (Pathlib.suffix (Pathlib.Path file_name)) in
  if bool_decide (file_ext ∈ media_exts) then Streamable
  else if auto_download && bool_decide (file_ext ∈ data_exts) then Sidecar
  else Ignored.

(** [Path(local_path) / Path(pan_path + "/" + relpath).relative_to(pan_path)] *)
Definition local_target (local_path pan_path rel : string) : result Pathlib.PurePath :=
  let file_path := pan_path +:+ "/" +:+ rel in
  match Pathlib.relative_to (Pathlib.Path file_path) (Pathlib.Path pan_path) with
  | Some r => Ok (Pathlib.joinpath (Pathlib.Path local_path) r)
  | None => Raise (ValueError "is not in the subpath of")
  end.

(** [int(item.get("UpdateTime", 0))] *)
Definition update_time (x : entry) : Z := default 0 (UpdateTime (e_item x)).

(** [if not local_dir.exists(): local_dir.mkdir(parents=True, exist_ok=True)] *)
Definition ensure_dir (local_dir : Pathlib.PurePath) : M unit :=
  fun w =>
    if Fs.exists_ (files w) local_dir then ret tt w
    else on_files (fun f => Fs.mkdir_parents f local_dir) w.

Section Sync.

Variable E : env.
Variable fuel : nat.
Variable self : plugin.
Variable m : mode.
Variables media_exts data_exts : list string.

(** The body of the inner [try], after the [UpdateTime] check. *)
Definition materialize (local_path pan_path : string) (x : entry) : M unit :=
  file_path <- lift (local_target local_path pan_path (relpath x)) ;;
  let file_target_dir := Pathlib.parent file_path in
  on_files (fun f => Fs.mkdir_parents f file_target_dir) ;;;
  match classify (unicode E) media_exts data_exts
          (_full_sync_auto_download_mediainfo_enabled self) (FileName (e_item x)) with
  | Streamable =>
      let original_name := Pathlib.stem file_path in
      let file_name := original_name +:+ ".strm" in
      let new_file_path := Pathlib.joinpath file_target_dir (Pathlib.Path file_name) in
      let full_path := pan_path +:+ "/" +:+ relpath x in
      let full_path := Py.strip_slash full_path in
      let encoded_path := Urllib.quote full_path in
      url <- _generate_auth_url E self encoded_path ;;
      on_files (fun f => Fs.write_file f new_file_path url)
  | Sidecar =>
      let new_file_path :=
        Pathlib.joinpath file_target_dir (Pathlib.Path (FileName (e_item x))) in
      download_url <- call_download_info E
        {| dl_Etag := Etag (e_item x); dl_FileID := FileId (e_item x);
           dl_FileName := FileName (e_item x); dl_S3KeyFlag := S3KeyFlag (e_item x);
           dl_Size := Size (e_item x) |} ;;
      body <- call_http_get E download_url ;;
      on_files (fun f => Fs.write_file f new_file_path body)
  | Ignored => ret tt
  end.

(** One turn of [for item in self.iterdir(...)]: the [try] with its
    [except Exception]. *)
Definition sync_entry (local_path pan_path : string) (x : entry) : M unit :=
  try_except
    (match m with
     | Incremental =>
         if update_time x <=? _last_sync_time self then ret tt
         else materialize local_path pan_path x
     | Full => materialize local_path pan_path x
     end)
    (fun e => log_error (tag m +:+ "处理文件失败") (Some e)).

(** [for item in resp[...]["InfoList"]: if item["FileName"] == part and
    bool(item["Type"]): ...; break] *)
Fixpoint find_dir_entry (part : string) (l : list item) : option Z :=
  match l with
  | [] => None
  | it :: l' =>
      if Py.string_eqb (FileName it) part && item_is_dir it then Some (FileId it)
      else find_dir_entry part l'
  end.

(** [for part in pan_path_parts: ...]: one listing per level. *)
Fixpoint resolve_parts (parts : list string) (current_parent_id : Z) : M Z :=
  match parts with
  | [] => ret current_parent_id
  | part :: rest =>
      if Py.falsy part then resolve_parts rest current_parent_id
      else
        resp <- call_fs_list E
          {| limit := 100; next := PInt 0; Page := None;
             parentFileId := current_parent_id; inDirectSpace := "false" |} ;;
        match find_dir_entry part (InfoList resp) with
        | Some fid => resolve_parts rest fid
        | None => throw (ValueError ("未找到目录: " +:+ part))
        end
  end.

(** The outer [try] of a pair: resolve the directory id, then walk. *)
Definition resolve_and_walk (local_path pan_path : string) : M unit :=
  let pan_path := Py.strip_slash pan_path in
  if Py.falsy pan_path then log_error (tag m +:+ "网盘路径不能为空") None
  else
    parent_id <- resolve_parts (Py.split "/" pan_path) 0 ;;
    for_run (sync_entry local_path pan_path)
      (iterdir (client E) true fuel parent_id).

(** One turn of [for path in paths]. An exception that leaves it
    leaves the loop. *)
Definition sync_pair (path : string) : M unit :=
  if Py.falsy (Unicode.strip path) then ret tt
  else
    match Py.split1 "#" path with
    | [local_path; pan_path] =>
        ensure_dir (Pathlib.Path local_path) ;;;
        try_except (resolve_and_walk local_path pan_path)
          (fun e => log_error (tag m +:+ "获取网盘目录ID失败") (Some e))
    | _ => log_error (tag m +:+ "路径格式错误: " +:+ path) None
    end.

Fixpoint for_paths (paths : list string) : M unit :=
  match paths with
  | [] => ret tt
  | path :: rest => sync_pair path ;;; for_paths rest
  end.

End Sync.

(** [self._user_rmt_mediaext.split(',')] raises on [None]. *)
Definition split_attr (v : option string) : M string :=
  match v with
  | Some s => ret s
  | None => throw (AttributeError "'NoneType' object has no attribute 'split'")
  end.

(** What a call gives back: [return], [return True], [return False], or
    nothing when the fuel of a traversal ran out. *)
Inductive returned :=
| ReturnNone
| ReturnBool (b : bool)
| NoReturn.

(** [bool(v)] of what a call gave back. *)
Definition truthy (r : returned) : bool :=
  match r with ReturnBool true => true | _ => false end.

(** The three guards both passes start with; [Some] is the record logged
    on the way out. *)
Definition guard (m : mode) (self : plugin) : option string :=
  if negb (_enabled self) then Some (tag m +:+ "插件未启用，退出同步")
  else if Py.falsy_opt (_full_sync_strm_paths self)
  then Some (tag m +:+ "未配置同步路径，退出同步")
  else if Py.falsy_opt (_uid self) || Py.falsy_opt (_secret_key self)
  then Some (tag m +:+ "未配置用户ID或鉴权密钥，退出同步")
  else None.

(** The first lines of the [try] of a pass: [media_exts] and
    [data_exts]. *)
Definition prepare (E : env) (self : plugin) : M (list string * list string) :=
  rmt <- split_attr (_user_rmt_mediaext self) ;;
  dl <- split_attr (_user_download_mediaext self) ;;
  ret (ext_set (unicode E) rmt, ext_set (unicode E) dl).

(** [paths = self._full_sync_strm_paths.strip().split('\n')] *)
Definition pairs_of (self : plugin) : list string :=
  Py.split "010" (Unicode.strip (attr (_full_sync_strm_paths self))).

(** The [try] block of a pass up to the moment the time to store is
    known: the extension sets, the loop over the pairs and the reading
    of the clock, after the loop in the full pass, before it in the
    incremental one, whose log line with
    [datetime.fromtimestamp(self._last_sync_time)] comes first. *)
Definition work (E : env) (fuel : nat) (self : plugin) (m : mode) : M Z :=
  exts <- prepare E self ;;
  match m with
  | Full =>
      for_paths E fuel self Full (fst exts) (snd exts) (pairs_of self) ;;;
      now E
  | Incremental =>
      date_of E (_last_sync_time self) ;;;
      current_time <- now E ;;
      for_paths E fuel self Incremental (fst exts) (snd exts) (pairs_of self) ;;;
      ret current_time
  end.

(** The end of the [try] block, [self._last_sync_time] being set:
    [self.__update_config()] and the log line with
    [datetime.fromtimestamp(self._last_sync_time)]. *)
Definition persist (E : env) (self : plugin) : M unit :=
  update_config E self ;;; date_of E (_last_sync_time self).

(** The record the [except Exception] of a pass logs. *)
Definition failure_message (m : mode) : string :=
  match m with
  | Full => "【全量同步】执行全量同步时发生错误"
  | Incremental => "【增量同步】执行增量同步时发生错误"
  end.

(** A pass after its guards: the [try] block and its [except
    Exception], which returns [False] with the attributes as they are
    at that moment. *)
Definition run_pass (E : env) (fuel : nat) (self : plugin) (m : mode) (w : world)
  : plugin * world * returned :=
  match work E fuel self m w with
  | (w1, Done t) =>
      let self' := set_last_sync_time self t in
      match persist E self' w1 with
      | (w2, Done _) => (self', w2, ReturnBool true)
      | (w2, Throw e) =>
          (self', fst (log_error (failure_message m) (Some e) w2), ReturnBool false)
      | (w2, Diverge) => (self', w2, NoReturn)
      end
  | (w1, Throw e) =>
      (self, fst (log_error (failure_message m) (Some e) w1), ReturnBool false)
  | (w1, Diverge) => (self, w1, NoReturn)
  end.

Definition full_sync_strm_files (E : env) (fuel : nat) (self : plugin) (w : world)
  : plugin * world * returned :=
  match guard Full self with
  | Some msg => (self, fst (log_error msg None w), ReturnNone)
  | None => run_pass E fuel self Full w
  end.

Definition incremental_sync_files (E : env) (fuel : nat) (self : plugin) (w : world)
  : plugin * world * returned :=
  match guard Incremental self with
  | Some msg => (self, fst (log_error msg None w), ReturnNone)
  | None =>
      if _last_sync_time self =? 0 then
        match full_sync_strm_files E fuel self w with
        | (self', w', NoReturn) => (self', w', NoReturn)
        | (self', w', _) => (self', w', ReturnNone)
        end
      else run_pass E fuel self Incremental w
  end.

(** ** [FullSyncStrmHelper] *)

Module FullSyncStrmHelper.

(** The attributes set by [__init__]; the two counters are in the
    world. *)
Record t := {
  rmt_mediaext : list string;
  download_mediaext : list string;
  auto_download_mediainfo : bool;
  server_address : string
}.

(** What the helper takes from the host: [StorageChain.get_file_item]
    followed by [int(fileitem.fileid)], and [settings.API_TOKEN]. *)
Record host := {
  get_file_id : Pathlib.PurePath -> result Z;
  API_TOKEN : string
}.

(** [[f".{ext.strip()}" for ext in s.replace("，", ",").split(",")]] *)
Definition ext_list (s : string) : list string :=
  map (fun ext => "." +:+ Unicode.strip ext) (Py.split "," (Py.replace "，" "," s)).

Definition init (user_rmt_mediaext user_download_mediaext server_address_ : string)
    (auto_download_mediainfo_ : bool) : t :=
  {| rmt_mediaext := ext_list user_rmt_mediaext;
     download_mediaext := ext_list user_download_mediaext;
     auto_download_mediainfo := auto_download_mediainfo_;
     server_address := Py.rstrip_slash server_address_ |}.

(** [self.strm_count = 0] and [self.mediainfo_count = 0] of [__init__]. *)
Definition init_counters : M unit :=
  modify (fun w => set_mediainfo_count 0 (set_strm_count 0 w)).

(** The branch an entry takes in [generate_strm_files]. *)
Definition classify (self : t) (file_path : Pathlib.PurePath) : category :=
  if auto_download_mediainfo self
     && bool_decide (Pathlib.suffix file_path ∈ download_mediaext self)
  then Sidecar
  else if negb (bool_decide (Pathlib.suffix file_path ∈ rmt_mediaext self))
  then Ignored
  else Streamable.

Section Generate.

Variable E : env.
Variable H : host.
Variable fuel : nat.
Variable self : t.

Definition strm_url (it : item) : string :=
  server_address self +:+ "/api/v1/plugin/p123linker/redirect_url?apikey="
  +:+ API_TOKEN H +:+ "&name=" +:+ FileName it +:+ "&size="
  +:+ Py.str_of_int (Size it) +:+ "&md5=" +:+ Etag it +:+ "&s3_key_flag="
  +:+ S3KeyFlag it.

(** The body of [for item in iterdir(...)]; it has no [try] of its
    own. *)
Definition generate_entry (target_dir pan_media_dir : string) (x : entry) : M unit :=
  file_path <- lift (local_target target_dir pan_media_dir (relpath x)) ;;
  let file_target_dir := Pathlib.parent file_path in
  let file_name := Pathlib.stem file_path +:+ ".strm" in
  let new_file_path := Pathlib.joinpath file_target_dir (Pathlib.Path file_name) in
  match classify self file_path with
  | Sidecar =>
      download_url <- call_download_info E
        {| dl_Etag := Etag (e_item x); dl_FileID := FileId (e_item x);
           dl_FileName := FileName (e_item x);
           dl_S3KeyFlag := S3KeyFlag (e_item x); dl_Size := Size (e_item x) |} ;;
      if Py.falsy download_url then
        log_error ("【全量STRM生成】" +:+ Pathlib.name file_path
                   +:+ " 下载链接获取失败，无法下载该文件") None
      else
        on_files (fun f => Fs.mkdir_parents f (Pathlib.parent file_path)) ;;;
        body <- call_http_get E download_url ;;
        on_files (fun f => Fs.write_file f file_path body) ;;;
        modify (fun w => set_mediainfo_count (mediainfo_count w + 1) w)
  | Ignored => ret tt
  | Streamable =>
      on_files (fun f => Fs.mkdir_parents f (Pathlib.parent new_file_path)) ;;;
      on_files (fun f => Fs.write_file f new_file_path (strm_url (e_item x))) ;;;
      modify (fun w => set_strm_count (strm_count w + 1) w)
  end.

(** [for path in media_paths]: either [try] ends the call with
    [return False] when it catches. *)
Fixpoint generate_paths (media_paths : list string) : M bool :=
  match media_paths with
  | [] => ret true
  | path :: rest =>
      if Py.falsy path then generate_paths rest
      else
        match Py.split1 "#" path with
        | [target_dir; pan_media_dir] =>
            r <- try_except
                   (parent_id <- lift (get_file_id H (Pathlib.Path pan_media_dir)) ;;
                    ret (Some parent_id))
                   (fun e =>
                      log_error "【全量STRM生成】网盘媒体目录 ID 获取失败" (Some e) ;;;
                      ret None) ;;
            match r with
            | None => ret false
            | Some parent_id =>
                ok <- try_except
                        (for_run (generate_entry target_dir pan_media_dir)
                           (iterdir (client E) true fuel parent_id) ;;;
                         ret true)
                        (fun e =>
                           log_error "【全量STRM生成】全量生成 STRM 文件失败" (Some e) ;;;
                           ret false) ;;
                if ok : bool then generate_paths rest else ret false
            end
        | _ => throw (IndexError "list index out of range")
        end
  end.

(** [generate_strm_files(full_sync_strm_paths)] *)
Definition generate_strm_files (full_sync_strm_paths : string) : M bool :=
  generate_paths (Py.split "010" full_sync_strm_paths).

End Generate.

End FullSyncStrmHelper.

(** ** A synthetic drive *)

(** What the drive stores about a node. *)
Record meta := {
  m_id : Z;
  m_name : string;
  m_size : Z;
  m_etag : string;
  m_s3 : string;
  m_time : option Z
}.

(** A finite directory tree. *)
Inductive rtree :=
| RFile (m : meta)
| RDir (m : meta) (children : list rtree).

Definition meta_of (t : rtree) : meta :=
  match t with RFile m => m | RDir m _ => m end.

Definition children_of (t : rtree) : list rtree :=
  match t with RFile _ => [] | RDir _ cs => cs end.

(** The item the drive lists for a node: [Type] is 1 for a directory. *)
Definition item_of (t : rtree) : item :=
  let m := meta_of t in
  {| FileId := m_id m; FileName := m_name m;
     Type_ := match t with RFile _ => 0 | RDir _ _ => 1 end;
     Size := m_size m; Etag := m_etag m; S3KeyFlag := m_s3 m;
     UpdateTime := m_time m |}.

(** The children of the directory with a given id, searched from the
    top. *)
Fixpoint find_dir (pid : Z) (t : rtree) : option (list rtree) :=
  match t with
  | RFile _ => None
  | RDir m cs =>
      if m_id m =? pid then Some cs
      else
        (fix go (l : list rtree) : option (list rtree) :=
           match l with
           | [] => None
           | c :: l' =>
               match find_dir pid c with
               | Some r => Some r
               | None => go l'
               end
           end) cs
  end.

(** The position a cursor stands for: the number of items before it. *)
Definition offset_of (c : pyval) : nat :=
  match c with PInt n => Z.to_nat n | PStr _ => 0%nat end.

(** The drive that holds the tree [t]: a listing is the [limit] items
    from the cursor on; [Next] is ["-1"] on the last page and the
    position of the next page before. A directory it does not know is
    empty. *)
Definition serve_list (t : rtree) (p : payload) : result listing :=
  match find_dir (parentFileId p) t with
  | None => Ok {| InfoList := []; Next := PStr "-1" |}
  | Some cs =>
      let items := map item_of cs in
      let off := offset_of (next p) in
      let n := Z.to_nat (limit p) in
      Ok {| InfoList := take n (drop off items);
            Next := if (off + n <? length items)%nat
                    then PInt (Z.of_nat (off + n)) else PStr "-1" |}
  end.

(** The bytes the synthetic drive serves for a file, by its etag. *)
Definition serve (t : rtree) : P123Client :=
  {| fs_list := serve_list t;
     download_info := fun p => Ok ("https://download.example/" +:+ dl_Etag p);
     http_get := fun url => Ok ("bytes of " +:+ url) |}.

(** *** Breadth-first order, from the tree alone *)

(** A directory met during a walk: its id, its path from the root of
    the walk, its children. *)
Definition dir := (Z * string * list rtree)%type.

(** The entries for the children of a directory, in listing order. *)
Definition entries_of (d : dir) : list entry :=
  let '(pid, path, cs) := d in map (fun c => make_entry pid path (item_of c)) cs.

(** The sub-directories of a directory, in listing order. *)
Definition subdirs (d : dir) : list dir :=
  let '(pid, path, cs) := d in
  flat_map (fun c =>
              match c with
              | RFile _ => []
              | RDir m cs' => [(m_id m, item_path path (m_name m), cs')]
              end) cs.

(** The entries [n] levels below the children of a directory, left to
    right. *)
Fixpoint level (n : nat) (d : dir) : list entry :=
  match n with
  | O => entries_of d
  | S n' => flat_map (level n') (subdirs d)
  end.

Fixpoint height (t : rtree) : nat :=
  match t with
  | RFile _ => 0%nat
  | RDir _ cs => S (fold_right (fun c h => Nat.max (height c) h) 0%nat cs)
  end.

Definition root_dir (t : rtree) : dir := (m_id (meta_of t), "", children_of t).

(** Level order: level after level, each left to right. *)
Definition level_order (t : rtree) : list entry :=
  flat_map (fun n => level n (root_dir t)) (seq 0 (height t)).

(** The ids of the directories of a tree, the root included. *)
Fixpoint dir_ids (t : rtree) : list Z :=
  match t with
  | RFile _ => []
  | RDir m cs => m_id m :: flat_map dir_ids cs
  end.

(** The path of an entry reached through the names [names] from the
    root: each name joined to the path before it, no slash after an empty
    path. *)
Definition path_of_names (names : list string) : string :=
  fold_left item_path names "".

(** The nodes of a tree, the root included. *)
Fixpoint tree_size (t : rtree) : nat :=
  match t with
  | RFile _ => 1%nat
  | RDir _ cs => S (fold_right (fun c n => (tree_size c + n)%nat) 0%nat cs)
  end.

(** *** Every node once, with the names that lead to it *)

(** The entry of a node: the item the drive lists for it, and for
    relative path the path of the names that lead to it from the root of
    the walk. *)
Definition spec_entry (pid : Z) (names : list string) (it : item) : entry :=
  let d := item_is_dir it in
  {| e_item := it;
     relpath := path_of_names names;
     is_dir := d;
     id := FileId it;
     parent_id := pid;
     name := FileName it;
     size := if d then None else Some (Size it);
     md5 := if d then None else Some (Etag it);
     uri := if d then None else Some (file_uri it) |}.

(** The entries of [t] and of the nodes below it, [t] being a child of
    the directory [pid] reached through the directories named [above]. *)
Fixpoint walk_names (pid : Z) (above : list string) (t : rtree) : list entry :=
  spec_entry pid (above ++ [m_name (meta_of t)]) (item_of t) ::
  match t with
  | RFile _ => []
  | RDir m cs => flat_map (walk_names (m_id m) (above ++ [m_name m])) cs
  end.

(** Every node below the root, once. *)
Definition all_nodes (t : rtree) : list entry :=
  flat_map (walk_names (m_id (meta_of t)) []) (children_of t).

(** What [only_file] lets through. *)
Definition passes (only_file : bool) (e : entry) : bool :=
  negb (is_dir e && only_file).

(** *** Notions for the proof of the traversal *)

(** [a] is [t] or a node below it. *)
Inductive occurs (a : rtree) : rtree -> Prop :=
| occurs_here : occurs a a
| occurs_below m cs c : In c cs -> occurs a c -> occurs a (RDir m cs).

(** The search by id finds, in a list of trees, what [find_dir] finds in
    the first that has it. *)
Fixpoint find_in (pid : Z) (l : list rtree) : option (list rtree) :=
  match l with
  | [] => None
  | c :: l' =>
      match find_dir pid c with
      | Some r => Some r
      | None => find_in pid l'
      end
  end.

(** The queue that holds the directories [F]. *)
Definition queue_of (F : list dir) : list (Z * string) :=
  map (fun d : dir => (fst (fst d), snd (fst d))) F.

(** The directories one level below those of [F]. *)
Definition next_dirs (F : list dir) : list dir := flat_map subdirs F.

(** The height of a forest, and of a directory met during a walk. *)
Definition forest_height (cs : list rtree) : nat :=
  fold_right (fun c h => Nat.max (height c) h) 0%nat cs.

Definition dir_height (d : dir) : nat := S (forest_height (snd d)).

Definition dirs_height (F : list dir) : nat :=
  fold_right (fun d h => Nat.max (dir_height d) h) 0%nat F.

(** A directory met during a walk, with the names that lead to it
    instead of its path. *)
Definition named_dir := (Z * list string * list rtree)%type.

Definition to_dir (d : named_dir) : dir :=
  (fst (fst d), path_of_names (snd (fst d)), snd d).

Definition named_subdirs (d : named_dir) : list named_dir :=
  let '(pid, above, cs) := d in
  flat_map (fun c =>
              match c with
              | RFile _ => []
              | RDir m cs' => [(m_id m, above ++ [m_name m], cs')]
              end) cs.

(** Every node below a directory, once. *)
Definition walk_dir (d : named_dir) : list entry :=
  flat_map (walk_names (fst (fst d)) (snd (fst d))) (snd d).

(** The requests for the page numbered [page], by the directory they
    ask for. *)
Definition asked_page (page : Z) (l : list payload) : list Z :=
  map parentFileId (List.filter (fun p => bool_decide (Page p = Some page)) l).

(** The directories a run lists, in order: those it asks the first page
    of. *)
Definition listed_dirs (r : run) : list Z := asked_page 1 (sent r).

(** The queue loop yields [ys] and lists the directories [ds] once the
    fuel is enough. *)
Definition runs_to (client : P123Client) (only_file : bool)
    (queue : list (Z * string)) (ys : list entry) (ds : list Z) : Prop :=
  exists fuel0, forall fuel, (fuel0 <= fuel)%nat ->
    yielded (queue_loop client only_file fuel queue) = ys
    /\ listed_dirs (queue_loop client only_file fuel queue) = ds
    /\ ending_of (queue_loop client only_file fuel queue) = Exhausted.

(** ** The signed link, in the words of the specification *)

(** The configured domain as the signer uses it: no trailing slash, and
    [https://] in front when it names no scheme. *)
Definition normalized_domain (custom_domain : string) : string :=
  let d := Py.rstrip_slash custom_domain in
  if Py.startswith "http://" d || Py.startswith "https://" d then d
  else "https://" +:+ d.

(** [domain + request_path + "?auth_key=" + auth_key] for a given request
    path. *)
Definition signed_link (domain request_path uid secret_key : string)
    (expire_at nonce : Z) : string :=
  let signature :=
    MD5.hexdigest (request_path +:+ "-" +:+ Py.str_of_int expire_at +:+ "-"
                   +:+ Py.str_of_int nonce +:+ "-" +:+ uid +:+ "-" +:+ secret_key) in
  let auth_key :=
    Py.str_of_int expire_at +:+ "-" +:+ Py.str_of_int nonce +:+ "-" +:+ uid
    +:+ "-" +:+ signature in
  domain +:+ request_path +:+ "?auth_key=" +:+ auth_key.

(** The link as the specification words it: the configured domain as it
    stands, and only the remote path decoded. *)
Definition spec_signed_url (uid secret_key domain : string) (expire_minutes : Z)
    (now_ nonce : Z) (path : string) : string :=
  signed_link domain ("/" +:+ uid +:+ "/" +:+ Urllib.unquote path) uid secret_key
    (now_ + expire_minutes * 60) nonce.

(** ** A drive, a plugin and a world to run the passes on *)

Module Example.

Definition node (i : Z) (n : string) (t : Z) : meta :=
  {| m_id := i; m_name := n; m_size := 100; m_etag := "h" +:+ Py.str_of_int i;
     m_s3 := "0"; m_time := Some t |}.

(** [/media/movies] holds [A.mkv], [A.nfo] and a season directory. *)
Definition drive : rtree :=
  RDir (node 0 "" 0)
    [ RDir (node 1 "media" 50)
        [ RDir (node 2 "movies" 60)
            [ RFile (node 3 "A.mkv" 100);
              RFile (node 4 "A.nfo" 200);
              RDir (node 5 "S1" 300) [ RFile (node 6 "E1.MP4" 300) ] ] ];
      RFile (node 7 "top.txt" 10) ].

(** Unicode tables for the examples: the capital letters of Latin-1
    (U+00C0 to U+00DE, the sign U+00D7 apart) have their small letter 32
    further on; every other character is its own lower case. *)
Definition latin1_lower (before : list Z) (c : Z) (after : list Z) : list Z :=
  if (192 <=? c) && (c <=? 222) && negb (c =? 215) then [c + 32] else [c].

Definition latin1_lower_shape (before : list Z) (c : Z) (after : list Z) :
  128 <= c ->
  latin1_lower before c after <> []
  /\ Forall Unicode.lowered (latin1_lower before c after).
Proof.
  intros Hc. unfold latin1_lower.
  destruct ((192 <=? c) && (c <=? 222) && negb (c =? 215));
    (split; [discriminate|]); (constructor; [right; lia | constructor]).
Qed.

Definition latin1 : Unicode.tables :=
  {| Unicode.lower_at := latin1_lower;
     Unicode.lower_at_shape := latin1_lower_shape |}.

(** The dates of the examples: the years 1 to 9999. *)
Definition dates (t : Z) : option exn :=
  if (t <? -62135596800) || (253402300799 <? t)
  then Some (ValueError "year is out of range") else None.

Definition E : env :=
  {| client := serve drive;
     clock := fun n => 1000 + Z.of_nat n;
     entropy := fun n => 12345 + Z.of_nat n;
     max_str_digits := 4300;
     fromtimestamp := dates;
     unicode := latin1 |}.

Definition self : plugin :=
  {| _enabled := true;
     _full_sync_strm_paths := Some "/local/movies#/media/movies";
     _uid := Some "1815";
     _secret_key := Some "secret";
     _user_rmt_mediaext := Some "mp4,mkv";
     _user_download_mediaext := Some "nfo,jpg";
     _full_sync_auto_download_mediainfo_enabled := false;
     _custom_domain := Some "https://vip.123pan.cn";
     _expire_time := 10;
     _last_sync_time := 0;
     _incremental_sync_interval := 30 |}.

Definition with_paths (paths : string) (p : plugin) : plugin :=
  {| _enabled := _enabled p;
     _full_sync_strm_paths := Some paths;
     _uid := _uid p;
     _secret_key := _secret_key p;
     _user_rmt_mediaext := _user_rmt_mediaext p;
     _user_download_mediaext := _user_download_mediaext p;
     _full_sync_auto_download_mediainfo_enabled :=
       _full_sync_auto_download_mediainfo_enabled p;
     _custom_domain := _custom_domain p;
     _expire_time := _expire_time p;
     _last_sync_time := _last_sync_time p;
     _incremental_sync_interval := _incremental_sync_interval p |}.

Definition with_expire_time (minutes : Z) (p : plugin) : plugin :=
  {| _enabled := _enabled p;
     _full_sync_strm_paths := _full_sync_strm_paths p;
     _uid := _uid p;
     _secret_key := _secret_key p;
     _user_rmt_mediaext := _user_rmt_mediaext p;
     _user_download_mediaext := _user_download_mediaext p;
     _full_sync_auto_download_mediainfo_enabled :=
       _full_sync_auto_download_mediainfo_enabled p;
     _custom_domain := _custom_domain p;
     _expire_time := minutes;
     _last_sync_time := _last_sync_time p;
     _incremental_sync_interval := _incremental_sync_interval p |}.

Definition empty_world : world :=
  {| files := ∅; log := []; listed := []; downloads := []; fetched := [];
     clock_reads := 0; rand_draws := 0; saved := None;
     strm_count := 0; mediainfo_count := 0 |}.

(** A root with 101 directories [d0] ... [d100]: [d100] is on the
    second page of the listing. *)
Definition wide : rtree :=
  RDir (node 0 "" 0)
    (map (fun k => RDir (node (1 + Z.of_nat k) ("d" +:+ Py.str_of_int (Z.of_nat k)) 0)
                     [ RFile (node (1000 + Z.of_nat k) "x.mkv" 0) ])
         (seq 0 101)).

Definition E_wide : env :=
  {| client := serve wide; clock := clock E; entropy := entropy E;
     max_str_digits := max_str_digits E; fromtimestamp := fromtimestamp E;
     unicode := unicode E |}.

(** The example with the digit limit at its lowest, 640
    ([sys.set_int_max_str_digits(640)]). *)
Definition E_strict : env :=
  {| client := client E; clock := clock E; entropy := entropy E;
     max_str_digits := 640; fromtimestamp := fromtimestamp E;
     unicode := unicode E |}.

(** The entry of a file [n] of [/media/movies] modified at [t]. *)
Definition file_entry (n : string) (t : Z) : entry :=
make_entry 2 "" (item_of (RFile (node t n t))).

(** Two configured pairs, one per line: the remote directory of the
    first does not exist. *)
Definition two_pairs : string :=
"/local/a#/missing" +:+ String "010" "/local/movies#/media/movies".

(** The example drive with a listing that fails: the pages of [S1]. *)
Definition flaky : P123Client :=
{| fs_list := fun p => if (parentFileId p =? 5) then Raise (RemoteError "code 429")
                       else serve_list drive p;
   download_info := download_info (serve drive);
   http_get := http_get (serve drive) |}.

Definition E_flaky : env :=
{| client := flaky; clock := clock E; entropy := entropy E;
   max_str_digits := max_str_digits E; fromtimestamp := fromtimestamp E;
   unicode := unicode E |}.

(** The example plugin with another uid and another domain. *)
Definition with_uid_domain (uid domain : string) (p : plugin) : plugin :=
{| _enabled := _enabled p;
   _full_sync_strm_paths := _full_sync_strm_paths p;
   _uid := Some uid;
   _secret_key := _secret_key p;
   _user_rmt_mediaext := _user_rmt_mediaext p;
   _user_download_mediaext := _user_download_mediaext p;
   _full_sync_auto_download_mediainfo_enabled :=
     _full_sync_auto_download_mediainfo_enabled p;
   _custom_domain := Some domain;
   _expire_time := _expire_time p;
   _last_sync_time := _last_sync_time p;
   _incremental_sync_interval := _incremental_sync_interval p |}.

(** The host of a helper: it knows [/media/movies] only. *)
Definition host : FullSyncStrmHelper.host :=
  {| FullSyncStrmHelper.get_file_id :=
       fun p => if bool_decide (Pathlib.str p = "/media/movies") then Ok 2
                else Raise (AttributeError "'NoneType' object has no attribute 'fileid'");
     FullSyncStrmHelper.API_TOKEN := "token" |}.

Definition helper : FullSyncStrmHelper.t :=
  FullSyncStrmHelper.init "mp4,mkv" "nfo,jpg" "http://127.0.0.1:3000/" false.

End Example.


(** ** Ways a computation leaves the world *)

(** [m] does not store a configuration. *)
Definition keeps_saved {A} (m : M A) : Prop :=
  forall w, saved (fst (m w)) = saved w.

(** [m] ends, with a value or an exception, whatever the fuel. *)
Definition ends {A} (m : M A) : Prop :=
  forall w, snd (m w) <> Diverge.

(** What a pass does with an entry it processes: the body of the inner
    [try], classification and materialisation, under its [except]. *)
Definition process (E : env) (self : plugin) (m : mode)
    (media_exts data_exts : list string) (local_path pan_path : string) (x : entry)
  : M unit :=
  try_except (materialize E self media_exts data_exts local_path pan_path x)
    (fun e => log_error (tag m +:+ "处理文件失败") (Some e)).



(** The one request the resolution sends for the level below [pid]:
    [{"limit": 100, "next": 0, "parentFileId": pid, "inDirectSpace":
    "false"}]. *)
Definition first_page (pid : Z) : payload :=
  {| limit := 100; next := PInt 0; Page := None; parentFileId := pid;
     inDirectSpace := "false" |}.

(** The segments of a remote path the resolution looks up. *)
Definition levels (parts : list string) : list string :=
  List.filter (fun part => negb (Py.falsy part)) parts.

(** A name a drive gives a node: not empty, not ["."], no slash in it. *)
Definition plain_name (n : string) : Prop :=
  n <> "" /\ n <> "." /\ Urllib.contains "/" n = false.

(** The directories of [F] are directories of the tree [t]. *)
Definition in_tree (t : rtree) (F : list dir) : Prop :=
  Forall (fun d : dir => exists m, m_id m = fst (fst d) /\ occurs (RDir m (snd d)) t) F.

(** The entries the loop yields for the children of the directories of
    [F], directory after directory. *)
Definition children_entries (only_file : bool) (F : list dir) : list entry :=
  flat_map (fun d => List.filter (passes only_file) (entries_of d)) F.

(** The nodes of a forest, and of the directories of a queue, each
    directory counted with what is below it. *)
Definition forest_size (cs : list rtree) : nat :=
  fold_right (fun c n => (tree_size c + n)%nat) 0%nat cs.

Definition dirs_size (F : list dir) : nat :=
  fold_right (fun (d : dir) n => (S (forest_size (snd d)) + n)%nat) 0%nat F.

(** * More of the plugin *)

(** ** What every run of [iterdir] keeps, whatever the drive answers *)

(** The requests of a traversal: a hundred items a page, pages numbered
    from 1, the first page of a directory asked with the cursor 0, and
    the end mark ["-1"] never sent back as a cursor. *)
Definition paging_request (p : payload) : bool :=
  bool_decide (limit p = 100)
  && bool_decide (inDirectSpace p = "false")
  && negb (bool_decide (next p = PStr "-1"))
  && match Page p with
     | Some k => (1 <=? k) && (negb (k =? 1) || bool_decide (next p = PInt 0))
     | None => false
     end.

(** Every entry is yielded after a request, and the last request before
    it asked for the directory the entry gives as its parent. [cur] is
    the directory of the last request so far. *)
Fixpoint follows (cur : option Z) (l : list event) : bool :=
  match l with
  | [] => true
  | Sent p :: l' => follows (Some (parentFileId p)) l'
  | Yield e :: l' => bool_decide (cur = Some (parent_id e)) && follows cur l'
  end.

(** What [iterdir] adds to the item of a file. *)
Definition file_entry_of (e : entry) : Prop :=
  is_dir e = false
  /\ size e = Some (Size (e_item e))
  /\ md5 e = Some (Etag (e_item e))
  /\ uri e = Some (file_uri (e_item e)).

(** A drive whose listings never end: every page has items and a cursor
    that is not the end mark. *)
Definition endless (client : P123Client) : Prop :=
  forall p, exists resp,
    fs_list client p = Ok resp /\ InfoList resp <> [] /\ Next resp <> PStr "-1".

(** The drive of a single directory whose listing never ends. *)
Definition endless_drive : P123Client :=
  {| fs_list := fun p =>
       Ok {| InfoList := [ {| FileId := 1; FileName := "a.mkv"; Type_ := 0;
                              Size := 1; Etag := "e"; S3KeyFlag := "0";
                              UpdateTime := None |} ];
             Next := PInt 1 |};
     download_info := fun _ => Raise (RemoteError "no download");
     http_get := fun _ => Raise (RemoteError "no body") |}.

(** ** Names, extensions and links *)

(** Well-formed UTF-8 (the Unicode standard, table 3-7): what the bytes
    of a Python [str] always are. *)
Fixpoint utf8_valid (s : string) : bool :=
  match s with
  | EmptyString => true
  | String c r =>
      let b := Urllib.byte_of c in
      if b <? 128 then utf8_valid r
      else if b <? 194 then false
      else if b <? 224 then
        match r with
        | String c1 r1 => Urllib.is_cont c1 && utf8_valid r1
        | _ => false
        end
      else if b <? 240 then
        match r with
        | String c1 (String c2 r2) =>
            Urllib.second_ok b c1 && Urllib.is_cont c2 && utf8_valid r2
        | _ => false
        end
      else if b <? 245 then
        match r with
        | String c1 (String c2 (String c3 r3)) =>
            Urllib.second_ok b c1 && Urllib.is_cont c2 && Urllib.is_cont c3
            && utf8_valid r3
        | _ => false
        end
      else false
  end.

(** Every character of [s] passes [p]. *)
Fixpoint all_chars (p : ascii -> bool) (s : string) : bool :=
  match s with
  | EmptyString => true
  | String c s' => p c && all_chars p s'
  end.

(** The digits of [hexdigest]. *)
Definition is_lower_hex (c : ascii) : bool :=
  let b := Urllib.byte_of c in
  ((48 <=? b) && (b <=? 57)) || ((97 <=? b) && (b <=? 102)).

(** The first code point is a full stop. *)
Definition dot_first (l : list Z) : bool :=
  match l with
  | x :: _ => x =? 46
  | [] => false
  end.

(** The entries of a configured extension list, as typed between the
    commas. *)
Definition typed_extensions (s : string) : list string :=
  map Unicode.strip (Py.split "," s).

(** ** What the passes do to the local files *)

(** The local files only grow from [f] to [f']: what exists still
    exists, and a directory is still a directory. *)
Definition fs_grows (f f' : Fs.fs) : Prop :=
  forall k, (is_Some (f !! k) -> is_Some (f' !! k))
            /\ (f !! k = Some Fs.FDir -> f' !! k = Some Fs.FDir).

(** [m] only adds to the local files, however it ends. *)
Definition only_adds {A} (m : M A) : Prop :=
  forall w, fs_grows (files w) (files (fst (m w))).

(** ** [has_prefix] and [__get_media_path] *)

(** [p.parts]: the root, when there is one, then the segments. *)
Definition parts (p : Pathlib.PurePath) : list string :=
  if Py.falsy (Pathlib.root p) then Pathlib.tail p
  else Pathlib.root p :: Pathlib.tail p.

(** [has_prefix(full_path, prefix_path)] *)
Definition has_prefix (full_path prefix_path : string) : bool :=
  let full := parts (Pathlib.Path full_path) in
  let prefix := parts (Pathlib.Path prefix_path) in
  if (length full <? length prefix)%nat then false
  else bool_decide (take (length prefix) full = prefix).

(** The loop of [__get_media_path] over the lines. [parts[1]] raises on a
    line without [#]. [Some (a, b)] is the tuple [(True, a, b)], [None]
    is [(False, None, None)]. *)
Fixpoint get_media_path_lines (media_paths : list string) (media_path : string)
  : result (option (string * string)) :=
  match media_paths with
  | [] => Ok None
  | path :: rest =>
      if Py.falsy path then get_media_path_lines rest media_path
      else
        match Py.split1 "#" path with
        | [a; b] =>
            if has_prefix media_path b then Ok (Some (a, b))
            else get_media_path_lines rest media_path
        | _ => Raise (IndexError "list index out of range")
        end
  end.

(** [__get_media_path(paths, media_path)] *)
Definition __get_media_path (paths media_path : string)
  : result (option (string * string)) :=
  get_media_path_lines (Py.split "010" paths) media_path.

(** A line [__get_media_path] passes over: an empty one, or a pair whose
    second part is no prefix of the media path. *)
Definition passed_over (media_path line : string) : Prop :=
  line = ""
  \/ exists a b, line = a +:+ "#" +:+ b /\ Urllib.contains "#" a = false
                 /\ has_prefix media_path b = false.

(** A line [FullSyncStrmHelper.generate_strm_files] goes past without
    raising: an empty one, or one with a [#]. *)
Definition cut_line (line : string) : Prop :=
  line = "" \/ Urllib.contains "#" line = true.


(** ** The plugin object: configuration, services, scheduler *)

Module Plugin.

(** A value of the configuration, as the form or the stored JSON gives
    it: [None], a [bool], an [int] or a [str]. *)
Inductive cval :=
| CNone
| CBool (b : bool)
| CInt (n : Z)
| CStr (s : string).

Global Instance cval_eq_dec : EqDecision cval.
Proof. solve_decision. Defined.

(** [bool(v)] *)
Definition truthy (v : cval) : bool :=
  match v with
  | CNone => false
  | CBool b => b
  | CInt n => negb (n =? 0)
  | CStr s => negb (Py.falsy s)
  end.

(** [v or d] *)
Definition or_else (v d : cval) : cval := if truthy v then v else d.

(** The [config] dict, and [config.get(key)]. *)
Abbreviation config := (gmap string cval).

Definition get (c : config) (key : string) : cval := default CNone (c !! key).

(** What the interpreter decides: [sys.version_info] (major, minor), the
    limit [sys.get_int_max_str_digits()] on the digits of a conversion
    between [int] and [str] (0 for none, 4300 unless changed), and
    [int(s)] for a string with a character outside ASCII, which goes by
    the Unicode tables. *)
Record python := {
  version_info : Z * Z;
  int_max_str_digits : Z;
  int_of_text : string -> result Z
}.

(** The conversions of more than 640 digits are checked against the
    limit. *)
Definition too_many (P : python) (digits : Z) : bool :=
  digits_over (int_max_str_digits P) digits.

(** The white space [int()] skips around an ASCII literal. *)
Definition is_c_space (c : ascii) : bool :=
  let n := nat_of_ascii c in
  (((9 <=? n) && (n <=? 13)) || (n =? 32))%nat.

Definition is_digit (c : ascii) : bool :=
  let n := nat_of_ascii c in ((48 <=? n) && (n <=? 57))%nat.

Definition digit_value (c : ascii) : Z := Z.of_nat (nat_of_ascii c) - 48.

(** The digits of a literal, single underscores allowed between them:
    the value and the number of digits. [after_underscore] tells that
    the character before was an underscore. *)
Fixpoint scan_digits (after_underscore : bool) (acc count : Z) (s : string)
  : option (Z * Z) :=
  match s with
  | EmptyString => if after_underscore then None else Some (acc, count)
  | String c r =>
      if is_digit c then scan_digits false (10 * acc + digit_value c) (count + 1) r
      else if Py.ascii_eqb c "_" then
        if after_underscore then None else scan_digits true acc count r
      else None
  end.

Definition invalid_literal : exn :=
  ValueError "invalid literal for int() with base 10".

Definition exceeds_limit : exn := digit_limit_error.

(** [int(s)] for an ASCII string: white space, a sign, digits. *)
Definition int_of_ascii (P : python) (s : string) : result Z :=
  let s1 := Py.lstrip_by is_c_space s in
  let '(negative, s2) :=
    match s1 with
    | String c r =>
        if Py.ascii_eqb c "+" then (false, r)
        else if Py.ascii_eqb c "-" then (true, r)
        else (false, s1)
    | EmptyString => (false, s1)
    end in
  let s3 := Py.rstrip_by is_c_space s2 in
  match s3 with
  | EmptyString => Raise invalid_literal
  | String c _ =>
      if Py.ascii_eqb c "_" then Raise invalid_literal
      else
        match scan_digits false 0 0 s3 with
        | None => Raise invalid_literal
        | Some (v, count) =>
            if too_many P count then Raise exceeds_limit
            else Ok (if negative then - v else v)
        end
  end.

(** [int(s)] for a string. *)
Definition int_of_str (P : python) (s : string) : result Z :=
  if all_chars Urllib.is_ascii s then int_of_ascii P s else int_of_text P s.

(** [int(v)] *)
Definition py_int (P : python) (v : cval) : result Z :=
  match v with
  | CNone => Raise (TypeError "int() argument must be a string, a bytes-like object or a real number, not 'NoneType'")
  | CBool b => Ok (if b then 1 else 0)
  | CInt n => Ok n
  | CStr s => int_of_str P s
  end.

(** [str(n)] for an [int]. *)
Definition str_of_int (P : python) (n : Z) : result string :=
  format_int (int_max_str_digits P) n.

(** The attributes of a [p123linker]. [_client] holds the credentials
    the client at hand was made with, [_scheduler] the index of the
    scheduler at hand among those made so far, [_storagechain] tells
    whether [init_plugin] has set it. The three numbers are [int]s from
    the class body on. *)
Record t := {
  _storagechain : bool;
  _client : option (cval * cval);
  _scheduler : option nat;
  _enabled : cval;
  _once_full_sync_strm : cval;
  _once_incremental_sync : cval;
  _passport : cval;
  _password : cval;
  _user_rmt_mediaext : cval;
  _user_download_mediaext : cval;
  _timing_full_sync_strm : cval;
  _full_sync_auto_download_mediainfo_enabled : cval;
  _cron_full_sync_strm : cval;
  _full_sync_strm_paths : cval;
  _uid : cval;
  _secret_key : cval;
  _expire_time : Z;
  _custom_domain : cval;
  _last_sync_time : Z;
  _incremental_sync_interval : Z;
  _incremental_sync_enabled : cval
}.

Definition set_storagechain (v : bool) (self : t) : t :=
  {| _storagechain := v; _client := _client self; _scheduler := _scheduler self;
     _enabled := _enabled self; _once_full_sync_strm := _once_full_sync_strm self;
     _once_incremental_sync := _once_incremental_sync self;
     _passport := _passport self; _password := _password self;
     _user_rmt_mediaext := _user_rmt_mediaext self;
     _user_download_mediaext := _user_download_mediaext self;
     _timing_full_sync_strm := _timing_full_sync_strm self;
     _full_sync_auto_download_mediainfo_enabled := _full_sync_auto_download_mediainfo_enabled self;
     _cron_full_sync_strm := _cron_full_sync_strm self;
     _full_sync_strm_paths := _full_sync_strm_paths self; _uid := _uid self;
     _secret_key := _secret_key self; _expire_time := _expire_time self;
     _custom_domain := _custom_domain self; _last_sync_time := _last_sync_time self;
     _incremental_sync_interval := _incremental_sync_interval self;
     _incremental_sync_enabled := _incremental_sync_enabled self |}.

Definition set_client (v : option (cval * cval)) (self : t) : t :=
  {| _storagechain := _storagechain self; _client := v;
     _scheduler := _scheduler self; _enabled := _enabled self;
     _once_full_sync_strm := _once_full_sync_strm self;
     _once_incremental_sync := _once_incremental_sync self;
     _passport := _passport self; _password := _password self;
     _user_rmt_mediaext := _user_rmt_mediaext self;
     _user_download_mediaext := _user_download_mediaext self;
     _timing_full_sync_strm := _timing_full_sync_strm self;
     _full_sync_auto_download_mediainfo_enabled := _full_sync_auto_download_mediainfo_enabled self;
     _cron_full_sync_strm := _cron_full_sync_strm self;
     _full_sync_strm_paths := _full_sync_strm_paths self; _uid := _uid self;
     _secret_key := _secret_key self; _expire_time := _expire_time self;
     _custom_domain := _custom_domain self; _last_sync_time := _last_sync_time self;
     _incremental_sync_interval := _incremental_sync_interval self;
     _incremental_sync_enabled := _incremental_sync_enabled self |}.

Definition set_scheduler (v : option nat) (self : t) : t :=
  {| _storagechain := _storagechain self; _client := _client self; _scheduler := v;
     _enabled := _enabled self; _once_full_sync_strm := _once_full_sync_strm self;
     _once_incremental_sync := _once_incremental_sync self;
     _passport := _passport self; _password := _password self;
     _user_rmt_mediaext := _user_rmt_mediaext self;
     _user_download_mediaext := _user_download_mediaext self;
     _timing_full_sync_strm := _timing_full_sync_strm self;
     _full_sync_auto_download_mediainfo_enabled := _full_sync_auto_download_mediainfo_enabled self;
     _cron_full_sync_strm := _cron_full_sync_strm self;
     _full_sync_strm_paths := _full_sync_strm_paths self; _uid := _uid self;
     _secret_key := _secret_key self; _expire_time := _expire_time self;
     _custom_domain := _custom_domain self; _last_sync_time := _last_sync_time self;
     _incremental_sync_interval := _incremental_sync_interval self;
     _incremental_sync_enabled := _incremental_sync_enabled self |}.

Definition set_enabled (v : cval) (self : t) : t :=
  {| _storagechain := _storagechain self; _client := _client self;
     _scheduler := _scheduler self; _enabled := v;
     _once_full_sync_strm := _once_full_sync_strm self;
     _once_incremental_sync := _once_incremental_sync self;
     _passport := _passport self; _password := _password self;
     _user_rmt_mediaext := _user_rmt_mediaext self;
     _user_download_mediaext := _user_download_mediaext self;
     _timing_full_sync_strm := _timing_full_sync_strm self;
     _full_sync_auto_download_mediainfo_enabled := _full_sync_auto_download_mediainfo_enabled self;
     _cron_full_sync_strm := _cron_full_sync_strm self;
     _full_sync_strm_paths := _full_sync_strm_paths self; _uid := _uid self;
     _secret_key := _secret_key self; _expire_time := _expire_time self;
     _custom_domain := _custom_domain self; _last_sync_time := _last_sync_time self;
     _incremental_sync_interval := _incremental_sync_interval self;
     _incremental_sync_enabled := _incremental_sync_enabled self |}.

Definition set_once_full_sync_strm (v : cval) (self : t) : t :=
  {| _storagechain := _storagechain self; _client := _client self;
     _scheduler := _scheduler self; _enabled := _enabled self;
     _once_full_sync_strm := v;
     _once_incremental_sync := _once_incremental_sync self;
     _passport := _passport self; _password := _password self;
     _user_rmt_mediaext := _user_rmt_mediaext self;
     _user_download_mediaext := _user_download_mediaext self;
     _timing_full_sync_strm := _timing_full_sync_strm self;
     _full_sync_auto_download_mediainfo_enabled := _full_sync_auto_download_mediainfo_enabled self;
     _cron_full_sync_strm := _cron_full_sync_strm self;
     _full_sync_strm_paths := _full_sync_strm_paths self; _uid := _uid self;
     _secret_key := _secret_key self; _expire_time := _expire_time self;
     _custom_domain := _custom_domain self; _last_sync_time := _last_sync_time self;
     _incremental_sync_interval := _incremental_sync_interval self;
     _incremental_sync_enabled := _incremental_sync_enabled self |}.

Definition set_once_incremental_sync (v : cval) (self : t) : t :=
  {| _storagechain := _storagechain self; _client := _client self;
     _scheduler := _scheduler self; _enabled := _enabled self;
     _once_full_sync_strm := _once_full_sync_strm self; _once_incremental_sync := v;
     _passport := _passport self; _password := _password self;
     _user_rmt_mediaext := _user_rmt_mediaext self;
     _user_download_mediaext := _user_download_mediaext self;
     _timing_full_sync_strm := _timing_full_sync_strm self;
     _full_sync_auto_download_mediainfo_enabled := _full_sync_auto_download_mediainfo_enabled self;
     _cron_full_sync_strm := _cron_full_sync_strm self;
     _full_sync_strm_paths := _full_sync_strm_paths self; _uid := _uid self;
     _secret_key := _secret_key self; _expire_time := _expire_time self;
     _custom_domain := _custom_domain self; _last_sync_time := _last_sync_time self;
     _incremental_sync_interval := _incremental_sync_interval self;
     _incremental_sync_enabled := _incremental_sync_enabled self |}.

Definition set_passport (v : cval) (self : t) : t :=
  {| _storagechain := _storagechain self; _client := _client self;
     _scheduler := _scheduler self; _enabled := _enabled self;
     _once_full_sync_strm := _once_full_sync_strm self;
     _once_incremental_sync := _once_incremental_sync self; _passport := v;
     _password := _password self; _user_rmt_mediaext := _user_rmt_mediaext self;
     _user_download_mediaext := _user_download_mediaext self;
     _timing_full_sync_strm := _timing_full_sync_strm self;
     _full_sync_auto_download_mediainfo_enabled := _full_sync_auto_download_mediainfo_enabled self;
     _cron_full_sync_strm := _cron_full_sync_strm self;
     _full_sync_strm_paths := _full_sync_strm_paths self; _uid := _uid self;
     _secret_key := _secret_key self; _expire_time := _expire_time self;
     _custom_domain := _custom_domain self; _last_sync_time := _last_sync_time self;
     _incremental_sync_interval := _incremental_sync_interval self;
     _incremental_sync_enabled := _incremental_sync_enabled self |}.

Definition set_password (v : cval) (self : t) : t :=
  {| _storagechain := _storagechain self; _client := _client self;
     _scheduler := _scheduler self; _enabled := _enabled self;
     _once_full_sync_strm := _once_full_sync_strm self;
     _once_incremental_sync := _once_incremental_sync self;
     _passport := _passport self; _password := v;
     _user_rmt_mediaext := _user_rmt_mediaext self;
     _user_download_mediaext := _user_download_mediaext self;
     _timing_full_sync_strm := _timing_full_sync_strm self;
     _full_sync_auto_download_mediainfo_enabled := _full_sync_auto_download_mediainfo_enabled self;
     _cron_full_sync_strm := _cron_full_sync_strm self;
     _full_sync_strm_paths := _full_sync_strm_paths self; _uid := _uid self;
     _secret_key := _secret_key self; _expire_time := _expire_time self;
     _custom_domain := _custom_domain self; _last_sync_time := _last_sync_time self;
     _incremental_sync_interval := _incremental_sync_interval self;
     _incremental_sync_enabled := _incremental_sync_enabled self |}.

Definition set_user_rmt_mediaext (v : cval) (self : t) : t :=
  {| _storagechain := _storagechain self; _client := _client self;
     _scheduler := _scheduler self; _enabled := _enabled self;
     _once_full_sync_strm := _once_full_sync_strm self;
     _once_incremental_sync := _once_incremental_sync self;
     _passport := _passport self; _password := _password self;
     _user_rmt_mediaext := v;
     _user_download_mediaext := _user_download_mediaext self;
     _timing_full_sync_strm := _timing_full_sync_strm self;
     _full_sync_auto_download_mediainfo_enabled := _full_sync_auto_download_mediainfo_enabled self;
     _cron_full_sync_strm := _cron_full_sync_strm self;
     _full_sync_strm_paths := _full_sync_strm_paths self; _uid := _uid self;
     _secret_key := _secret_key self; _expire_time := _expire_time self;
     _custom_domain := _custom_domain self; _last_sync_time := _last_sync_time self;
     _incremental_sync_interval := _incremental_sync_interval self;
     _incremental_sync_enabled := _incremental_sync_enabled self |}.

Definition set_user_download_mediaext (v : cval) (self : t) : t :=
  {| _storagechain := _storagechain self; _client := _client self;
     _scheduler := _scheduler self; _enabled := _enabled self;
     _once_full_sync_strm := _once_full_sync_strm self;
     _once_incremental_sync := _once_incremental_sync self;
     _passport := _passport self; _password := _password self;
     _user_rmt_mediaext := _user_rmt_mediaext self; _user_download_mediaext := v;
     _timing_full_sync_strm := _timing_full_sync_strm self;
     _full_sync_auto_download_mediainfo_enabled := _full_sync_auto_download_mediainfo_enabled self;
     _cron_full_sync_strm := _cron_full_sync_strm self;
     _full_sync_strm_paths := _full_sync_strm_paths self; _uid := _uid self;
     _secret_key := _secret_key self; _expire_time := _expire_time self;
     _custom_domain := _custom_domain self; _last_sync_time := _last_sync_time self;
     _incremental_sync_interval := _incremental_sync_interval self;
     _incremental_sync_enabled := _incremental_sync_enabled self |}.

Definition set_timing_full_sync_strm (v : cval) (self : t) : t :=
  {| _storagechain := _storagechain self; _client := _client self;
     _scheduler := _scheduler self; _enabled := _enabled self;
     _once_full_sync_strm := _once_full_sync_strm self;
     _once_incremental_sync := _once_incremental_sync self;
     _passport := _passport self; _password := _password self;
     _user_rmt_mediaext := _user_rmt_mediaext self;
     _user_download_mediaext := _user_download_mediaext self;
     _timing_full_sync_strm := v;
     _full_sync_auto_download_mediainfo_enabled := _full_sync_auto_download_mediainfo_enabled self;
     _cron_full_sync_strm := _cron_full_sync_strm self;
     _full_sync_strm_paths := _full_sync_strm_paths self; _uid := _uid self;
     _secret_key := _secret_key self; _expire_time := _expire_time self;
     _custom_domain := _custom_domain self; _last_sync_time := _last_sync_time self;
     _incremental_sync_interval := _incremental_sync_interval self;
     _incremental_sync_enabled := _incremental_sync_enabled self |}.

Definition set_full_sync_auto_download_mediainfo_enabled (v : cval) (self : t) : t :=
  {| _storagechain := _storagechain self; _client := _client self;
     _scheduler := _scheduler self; _enabled := _enabled self;
     _once_full_sync_strm := _once_full_sync_strm self;
     _once_incremental_sync := _once_incremental_sync self;
     _passport := _passport self; _password := _password self;
     _user_rmt_mediaext := _user_rmt_mediaext self;
     _user_download_mediaext := _user_download_mediaext self;
     _timing_full_sync_strm := _timing_full_sync_strm self;
     _full_sync_auto_download_mediainfo_enabled := v;
     _cron_full_sync_strm := _cron_full_sync_strm self;
     _full_sync_strm_paths := _full_sync_strm_paths self; _uid := _uid self;
     _secret_key := _secret_key self; _expire_time := _expire_time self;
     _custom_domain := _custom_domain self; _last_sync_time := _last_sync_time self;
     _incremental_sync_interval := _incremental_sync_interval self;
     _incremental_sync_enabled := _incremental_sync_enabled self |}.

Definition set_cron_full_sync_strm (v : cval) (self : t) : t :=
  {| _storagechain := _storagechain self; _client := _client self;
     _scheduler := _scheduler self; _enabled := _enabled self;
     _once_full_sync_strm := _once_full_sync_strm self;
     _once_incremental_sync := _once_incremental_sync self;
     _passport := _passport self; _password := _password self;
     _user_rmt_mediaext := _user_rmt_mediaext self;
     _user_download_mediaext := _user_download_mediaext self;
     _timing_full_sync_strm := _timing_full_sync_strm self;
     _full_sync_auto_download_mediainfo_enabled := _full_sync_auto_download_mediainfo_enabled self;
     _cron_full_sync_strm := v; _full_sync_strm_paths := _full_sync_strm_paths self;
     _uid := _uid self; _secret_key := _secret_key self;
     _expire_time := _expire_time self; _custom_domain := _custom_domain self;
     _last_sync_time := _last_sync_time self;
     _incremental_sync_interval := _incremental_sync_interval self;
     _incremental_sync_enabled := _incremental_sync_enabled self |}.

Definition set_full_sync_strm_paths (v : cval) (self : t) : t :=
  {| _storagechain := _storagechain self; _client := _client self;
     _scheduler := _scheduler self; _enabled := _enabled self;
     _once_full_sync_strm := _once_full_sync_strm self;
     _once_incremental_sync := _once_incremental_sync self;
     _passport := _passport self; _password := _password self;
     _user_rmt_mediaext := _user_rmt_mediaext self;
     _user_download_mediaext := _user_download_mediaext self;
     _timing_full_sync_strm := _timing_full_sync_strm self;
     _full_sync_auto_download_mediainfo_enabled := _full_sync_auto_download_mediainfo_enabled self;
     _cron_full_sync_strm := _cron_full_sync_strm self; _full_sync_strm_paths := v;
     _uid := _uid self; _secret_key := _secret_key self;
     _expire_time := _expire_time self; _custom_domain := _custom_domain self;
     _last_sync_time := _last_sync_time self;
     _incremental_sync_interval := _incremental_sync_interval self;
     _incremental_sync_enabled := _incremental_sync_enabled self |}.

Definition set_uid (v : cval) (self : t) : t :=
  {| _storagechain := _storagechain self; _client := _client self;
     _scheduler := _scheduler self; _enabled := _enabled self;
     _once_full_sync_strm := _once_full_sync_strm self;
     _once_incremental_sync := _once_incremental_sync self;
     _passport := _passport self; _password := _password self;
     _user_rmt_mediaext := _user_rmt_mediaext self;
     _user_download_mediaext := _user_download_mediaext self;
     _timing_full_sync_strm := _timing_full_sync_strm self;
     _full_sync_auto_download_mediainfo_enabled := _full_sync_auto_download_mediainfo_enabled self;
     _cron_full_sync_strm := _cron_full_sync_strm self;
     _full_sync_strm_paths := _full_sync_strm_paths self; _uid := v;
     _secret_key := _secret_key self; _expire_time := _expire_time self;
     _custom_domain := _custom_domain self; _last_sync_time := _last_sync_time self;
     _incremental_sync_interval := _incremental_sync_interval self;
     _incremental_sync_enabled := _incremental_sync_enabled self |}.

Definition set_secret_key (v : cval) (self : t) : t :=
  {| _storagechain := _storagechain self; _client := _client self;
     _scheduler := _scheduler self; _enabled := _enabled self;
     _once_full_sync_strm := _once_full_sync_strm self;
     _once_incremental_sync := _once_incremental_sync self;
     _passport := _passport self; _password := _password self;
     _user_rmt_mediaext := _user_rmt_mediaext self;
     _user_download_mediaext := _user_download_mediaext self;
     _timing_full_sync_strm := _timing_full_sync_strm self;
     _full_sync_auto_download_mediainfo_enabled := _full_sync_auto_download_mediainfo_enabled self;
     _cron_full_sync_strm := _cron_full_sync_strm self;
     _full_sync_strm_paths := _full_sync_strm_paths self; _uid := _uid self;
     _secret_key := v; _expire_time := _expire_time self;
     _custom_domain := _custom_domain self; _last_sync_time := _last_sync_time self;
     _incremental_sync_interval := _incremental_sync_interval self;
     _incremental_sync_enabled := _incremental_sync_enabled self |}.

Definition set_expire_time (v : Z) (self : t) : t :=
  {| _storagechain := _storagechain self; _client := _client self;
     _scheduler := _scheduler self; _enabled := _enabled self;
     _once_full_sync_strm := _once_full_sync_strm self;
     _once_incremental_sync := _once_incremental_sync self;
     _passport := _passport self; _password := _password self;
     _user_rmt_mediaext := _user_rmt_mediaext self;
     _user_download_mediaext := _user_download_mediaext self;
     _timing_full_sync_strm := _timing_full_sync_strm self;
     _full_sync_auto_download_mediainfo_enabled := _full_sync_auto_download_mediainfo_enabled self;
     _cron_full_sync_strm := _cron_full_sync_strm self;
     _full_sync_strm_paths := _full_sync_strm_paths self; _uid := _uid self;
     _secret_key := _secret_key self; _expire_time := v;
     _custom_domain := _custom_domain self; _last_sync_time := _last_sync_time self;
     _incremental_sync_interval := _incremental_sync_interval self;
     _incremental_sync_enabled := _incremental_sync_enabled self |}.

Definition set_custom_domain (v : cval) (self : t) : t :=
  {| _storagechain := _storagechain self; _client := _client self;
     _scheduler := _scheduler self; _enabled := _enabled self;
     _once_full_sync_strm := _once_full_sync_strm self;
     _once_incremental_sync := _once_incremental_sync self;
     _passport := _passport self; _password := _password self;
     _user_rmt_mediaext := _user_rmt_mediaext self;
     _user_download_mediaext := _user_download_mediaext self;
     _timing_full_sync_strm := _timing_full_sync_strm self;
     _full_sync_auto_download_mediainfo_enabled := _full_sync_auto_download_mediainfo_enabled self;
     _cron_full_sync_strm := _cron_full_sync_strm self;
     _full_sync_strm_paths := _full_sync_strm_paths self; _uid := _uid self;
     _secret_key := _secret_key self; _expire_time := _expire_time self;
     _custom_domain := v; _last_sync_time := _last_sync_time self;
     _incremental_sync_interval := _incremental_sync_interval self;
     _incremental_sync_enabled := _incremental_sync_enabled self |}.

Definition set_last_sync_time (v : Z) (self : t) : t :=
  {| _storagechain := _storagechain self; _client := _client self;
     _scheduler := _scheduler self; _enabled := _enabled self;
     _once_full_sync_strm := _once_full_sync_strm self;
     _once_incremental_sync := _once_incremental_sync self;
     _passport := _passport self; _password := _password self;
     _user_rmt_mediaext := _user_rmt_mediaext self;
     _user_download_mediaext := _user_download_mediaext self;
     _timing_full_sync_strm := _timing_full_sync_strm self;
     _full_sync_auto_download_mediainfo_enabled := _full_sync_auto_download_mediainfo_enabled self;
     _cron_full_sync_strm := _cron_full_sync_strm self;
     _full_sync_strm_paths := _full_sync_strm_paths self; _uid := _uid self;
     _secret_key := _secret_key self; _expire_time := _expire_time self;
     _custom_domain := _custom_domain self; _last_sync_time := v;
     _incremental_sync_interval := _incremental_sync_interval self;
     _incremental_sync_enabled := _incremental_sync_enabled self |}.

Definition set_incremental_sync_interval (v : Z) (self : t) : t :=
  {| _storagechain := _storagechain self; _client := _client self;
     _scheduler := _scheduler self; _enabled := _enabled self;
     _once_full_sync_strm := _once_full_sync_strm self;
     _once_incremental_sync := _once_incremental_sync self;
     _passport := _passport self; _password := _password self;
     _user_rmt_mediaext := _user_rmt_mediaext self;
     _user_download_mediaext := _user_download_mediaext self;
     _timing_full_sync_strm := _timing_full_sync_strm self;
     _full_sync_auto_download_mediainfo_enabled := _full_sync_auto_download_mediainfo_enabled self;
     _cron_full_sync_strm := _cron_full_sync_strm self;
     _full_sync_strm_paths := _full_sync_strm_paths self; _uid := _uid self;
     _secret_key := _secret_key self; _expire_time := _expire_time self;
     _custom_domain := _custom_domain self; _last_sync_time := _last_sync_time self;
     _incremental_sync_interval := v;
     _incremental_sync_enabled := _incremental_sync_enabled self |}.

Definition set_incremental_sync_enabled (v : cval) (self : t) : t :=
  {| _storagechain := _storagechain self; _client := _client self;
     _scheduler := _scheduler self; _enabled := _enabled self;
     _once_full_sync_strm := _once_full_sync_strm self;
     _once_incremental_sync := _once_incremental_sync self;
     _passport := _passport self; _password := _password self;
     _user_rmt_mediaext := _user_rmt_mediaext self;
     _user_download_mediaext := _user_download_mediaext self;
     _timing_full_sync_strm := _timing_full_sync_strm self;
     _full_sync_auto_download_mediainfo_enabled := _full_sync_auto_download_mediainfo_enabled self;
     _cron_full_sync_strm := _cron_full_sync_strm self;
     _full_sync_strm_paths := _full_sync_strm_paths self; _uid := _uid self;
     _secret_key := _secret_key self; _expire_time := _expire_time self;
     _custom_domain := _custom_domain self; _last_sync_time := _last_sync_time self;
     _incremental_sync_interval := _incremental_sync_interval self;
     _incremental_sync_enabled := v |}.
(** The class body. *)
Definition class_defaults : t :=
  {| _storagechain := false; _client := None; _scheduler := None;
     _enabled := CBool false; _once_full_sync_strm := CBool false;
     _once_incremental_sync := CBool false;
     _passport := CNone; _password := CNone;
     _user_rmt_mediaext := CNone; _user_download_mediaext := CNone;
     _timing_full_sync_strm := CBool false;
     _full_sync_auto_download_mediainfo_enabled := CBool false;
     _cron_full_sync_strm := CNone; _full_sync_strm_paths := CNone;
     _uid := CNone; _secret_key := CNone;
     _expire_time := 10 * 365 * 24 * 60;
     _custom_domain := CStr "https://vip.123pan.cn";
     _last_sync_time := 0; _incremental_sync_interval := 30;
     _incremental_sync_enabled := CBool false |}.

(** The job of a scheduler: [func=self.full_sync_strm_files] or
    [func=self.incremental_sync_files], run once, three seconds after it
    is added ([trigger="date"]). *)
Inductive job := full_sync_job | incremental_sync_job.

Global Instance job_eq_dec : EqDecision job.
Proof. solve_decision. Defined.

(** A [BackgroundScheduler]: its jobs with their names, and whether it
    was started. *)
Record scheduler := { jobs : list (job * string); running : bool }.

(** What is around the plugin object: the world of the passes (the
    clock, the error log), the configuration [update_config] stored
    last, and every scheduler made so far. *)
Record host := {
  around : world;
  stored : option config;
  schedulers : list scheduler
}.

Definition set_around (w : world) (h : host) : host :=
  {| around := w; stored := stored h; schedulers := schedulers h |}.

Definition set_stored (c : option config) (h : host) : host :=
  {| around := around h; stored := c; schedulers := schedulers h |}.

Definition set_schedulers (l : list scheduler) (h : host) : host :=
  {| around := around h; stored := stored h; schedulers := l |}.

(** The collaborators: those of the passes, the interpreter, and the
    constructors that can refuse their arguments, each by the exception
    it raises, if any: [P123Client(passport, password)],
    [CronTrigger.from_crontab(expr)] and [CronTrigger(minute=expr)]. The
    calls on a scheduler are taken not to raise. *)
Record system := {
  passes_env : env;
  interpreter : python;
  connect : cval -> cval -> option exn;
  from_crontab : cval -> option exn;
  cron_minute : string -> option exn
}.

(** A method: it works on the object and its host, and returns or
    raises. *)
Definition H (A : Type) : Type := t * host -> (t * host) * result A.

Definition hret {A} (a : A) : H A := fun s => (s, Ok a).
Definition hraise {A} (e : exn) : H A := fun s => (s, Raise e).

Definition hbind {A B} (m : H A) (k : A -> H B) : H B :=
  fun s =>
    match m s with
    | (s', Ok a) => k a s'
    | (s', Raise e) => (s', Raise e)
    end.

Notation "x <~ m ;; k" := (hbind m (fun x => k))
  (at level 100, m at next level, right associativity).
Notation "m >> k" := (hbind m (fun _ => k))
  (at level 100, right associativity).

Definition hlift {A} (r : result A) : H A := fun s => (s, r).

(** [self.x = v] *)
Definition assign (set : t -> t) : H unit := fun s => ((set (fst s), snd s), Ok tt).

(** [self] *)
Definition this : H t := fun s => (s, Ok (fst s)).

Definition on_host (f : host -> host) : H unit := fun s => ((fst s, f (snd s)), Ok tt).

(** One more reading of the clock. *)
Definition tick (h : host) : host :=
  set_around (set_clock_reads (Datatypes.S (clock_reads (around h))) (around h)) h.

(** [int(time.time())] *)
Definition time_now (S : system) : H Z :=
  fun s => ((fst s, tick (snd s)),
            Ok (clock (passes_env S) (clock_reads (around (snd s))))).

(** The host with one more record in the error log. *)
Definition with_error (msg : string) (c : option exn) (h : host) : host :=
  set_around (fst (log_error msg c (around h))) h.

(** [logger.error(...)] *)
Definition error (msg : string) (c : option exn) : H unit :=
  on_host (with_error msg c).

(** The dict [__update_config] builds, the three numbers already turned
    into text. *)
Definition config_with (self : t) (expire_time last_sync_time interval : string)
  : config :=
  list_to_map
    [ ("enabled", _enabled self);
      ("once_full_sync_strm", _once_full_sync_strm self);
      ("once_incremental_sync", _once_incremental_sync self);
      ("passport", _passport self);
      ("password", _password self);
      ("uid", _uid self);
      ("secret_key", _secret_key self);
      ("expire_time", CStr expire_time);
      ("custom_domain", _custom_domain self);
      ("user_rmt_mediaext", _user_rmt_mediaext self);
      ("user_download_mediaext", _user_download_mediaext self);
      ("timing_full_sync_strm", _timing_full_sync_strm self);
      ("full_sync_auto_download_mediainfo_enabled",
       _full_sync_auto_download_mediainfo_enabled self);
      ("cron_full_sync_strm", _cron_full_sync_strm self);
      ("full_sync_strm_paths", _full_sync_strm_paths self);
      ("last_sync_time", CStr last_sync_time);
      ("incremental_sync_interval", CStr interval);
      ("incremental_sync_enabled", _incremental_sync_enabled self) ].

(** The dict of [__update_config], its entries evaluated in order:
    [str(self._expire_time)], [str(self._last_sync_time)] and
    [str(self._incremental_sync_interval)] can raise. *)
Definition config_of (P : python) (self : t) : result config :=
  match str_of_int P (_expire_time self) with
  | Raise e => Raise e
  | Ok expire_time =>
      match str_of_int P (_last_sync_time self) with
      | Raise e => Raise e
      | Ok last_sync_time =>
          match str_of_int P (_incremental_sync_interval self) with
          | Raise e => Raise e
          | Ok interval => Ok (config_with self expire_time last_sync_time interval)
          end
      end
  end.

(** [self.update_config(c)]: the host stores the dict; [saved] of the
    world is its [last_sync_time]. *)
Definition store (c : config) (h : host) : host :=
  set_stored (Some c)
    (set_around (set_saved (match get c "last_sync_time" with
                            | CStr s => Some s
                            | _ => None
                            end) (around h)) h).

(** [self.__update_config()] *)
Definition __update_config (S : system) : H unit :=
  self <~ this ;;
  c <~ hlift (config_of (interpreter S) self) ;;
  on_host (store c).

(** [sys.version_info.major == 3 and sys.version_info.minor >= 12] *)
Definition supported (P : python) : bool :=
  let '(major, minor) := version_info P in (major =? 3) && (12 <=? minor).

(** [self.__check_python_version()] *)
Definition __check_python_version (S : system) : H bool :=
  if negb (supported (interpreter S)) then
    error "当前MoviePilot使用的Python版本不支持本插件，请升级到Python 3.12及以上的版本使用！" None >>
    hret false
  else hret true.

(** A scheduler after [remove_all_jobs()] and [shutdown()]. *)
Definition stopped : scheduler := {| jobs := []; running := false |}.

(** A scheduler with one job, started. *)
Definition started (j : job) (name : string) : scheduler :=
  {| jobs := [(j, name)]; running := true |}.

(** [stop_service()]: the scheduler at hand loses its jobs, is shut down
    if it runs, and is let go. *)
Definition stop_service : H unit :=
  self <~ this ;;
  match _scheduler self with
  | Some i =>
      on_host (fun h =>
        set_schedulers
          (alter (fun _ => stopped) i (schedulers h)) h) >>
      assign (set_scheduler None)
  | None => hret tt
  end.

(** [self._scheduler = BackgroundScheduler(...)], [add_job], the flag
    put back to [False] and stored, then [start] since [get_jobs()] is
    not empty. *)
Definition run_once (S : system) (j : job) (name : string) (clear : t -> t) : H unit :=
  s <~ (fun s => (s, Ok (length (schedulers (snd s))))) ;;
  on_host (fun h => set_schedulers (schedulers h ++ [{| jobs := []; running := false |}]) h) >>
  assign (set_scheduler (Some s)) >>
  on_host (fun h =>
    set_schedulers (alter (fun x => {| jobs := jobs x ++ [(j, name)]; running := running x |})
                      s (schedulers h)) h) >>
  assign clear >>
  __update_config S >>
  on_host (fun h =>
    set_schedulers
      (alter (fun x => {| jobs := jobs x;
                          running := if bool_decide (jobs x = []) then running x else true |})
         s (schedulers h)) h).

(** The [if config:] block of [init_plugin]. *)
Definition load_config (S : system) (config : config) : H unit :=
  let P := interpreter S in
  assign (set_enabled (get config "enabled")) >>
  assign (set_once_full_sync_strm (get config "once_full_sync_strm")) >>
  assign (set_once_incremental_sync (get config "once_incremental_sync")) >>
  assign (set_passport (get config "passport")) >>
  assign (set_password (get config "password")) >>
  assign (set_uid (get config "uid")) >>
  assign (set_secret_key (get config "secret_key")) >>
  expire_time <~ hlift (py_int P (or_else (get config "expire_time")
                                    (CInt (10 * 365 * 24 * 60)))) ;;
  assign (set_expire_time expire_time) >>
  assign (set_custom_domain (or_else (get config "custom_domain")
                               (CStr "https://vip.123pan.cn"))) >>
  assign (set_user_rmt_mediaext (get config "user_rmt_mediaext")) >>
  assign (set_user_download_mediaext (get config "user_download_mediaext")) >>
  assign (set_timing_full_sync_strm (get config "timing_full_sync_strm")) >>
  assign (set_full_sync_auto_download_mediainfo_enabled
            (get config "full_sync_auto_download_mediainfo_enabled")) >>
  assign (set_cron_full_sync_strm (get config "cron_full_sync_strm")) >>
  assign (set_full_sync_strm_paths (get config "full_sync_strm_paths")) >>
  let saved_time := get config "last_sync_time" in
  last_sync_time <~ (if truthy saved_time then hlift (py_int P saved_time)
                     else time_now S) ;;
  assign (set_last_sync_time last_sync_time) >>
  interval <~ hlift (py_int P (or_else (get config "incremental_sync_interval")
                                 (CInt 30))) ;;
  assign (set_incremental_sync_interval interval) >>
  assign (set_incremental_sync_enabled
            (or_else (get config "incremental_sync_enabled") (CBool false))) >>
  self <~ this ;;
  (if truthy (_user_rmt_mediaext self) then hret tt
   else assign (set_user_rmt_mediaext
                  (CStr "mp4,mkv,ts,iso,rmvb,avi,mov,mpeg,mpg,wmv,3gp,asf,m4v,flv,m2ts,tp,f4v"))) >>
  (if truthy (_user_download_mediaext self) then hret tt
   else assign (set_user_download_mediaext
                  (CStr "nfo,jpg,jpeg,png,svg,ass,srt,sup,mp3,flac,wav,aac"))) >>
  (if truthy (_cron_full_sync_strm self) then hret tt
   else assign (set_cron_full_sync_strm (CStr "0 */7 * * *"))) >>
  __update_config S.

(** [init_plugin] after its [if config:] block: the check of the
    interpreter, the client, the scheduler. *)
Definition check_and_schedule (S : system) : H (option bool) :=
  ok <~ __check_python_version S ;;
  if negb ok then
    assign (fun self => set_once_full_sync_strm (CBool false)
                          (set_enabled (CBool false) self)) >>
    __update_config S >>
    hret (Some false)
  else
    self <~ this ;;
    match connect S (_passport self) (_password self) with
    | None => assign (set_client (Some (_passport self, _password self)))
    | Some e => error "【123云盘直链】123云盘客户端创建失败" (Some e)
    end >>
    stop_service >>
    self <~ this ;;
    (if truthy (_enabled self) && truthy (_once_full_sync_strm self)
     then run_once S full_sync_job "123云盘助手立刻全量同步"
            (set_once_full_sync_strm (CBool false))
     else hret tt) >>
    self <~ this ;;
    (if truthy (_enabled self) && truthy (_once_incremental_sync self)
     then run_once S incremental_sync_job "123云盘助手立刻增量同步"
            (set_once_incremental_sync (CBool false))
     else hret tt) >>
    hret None.

(** The first lines of [init_plugin]: the defaults. *)
Definition set_defaults (S : system) : H unit :=
  assign (set_storagechain true) >>
  assign (set_expire_time (10 * 365 * 24 * 60)) >>
  assign (set_custom_domain (CStr "https://vip.123pan.cn")) >>
  t0 <~ time_now S ;;
  assign (set_last_sync_time t0) >>
  assign (set_incremental_sync_interval 30) >>
  assign (set_once_incremental_sync (CBool false)).

(** [init_plugin(config)]: [None] is no truthy [config] ([None] or [{}]);
    it returns [None] or [False]. *)
Definition init_plugin (S : system) (config : option config) : H (option bool) :=
  set_defaults S >>
  match config with
  | Some c => if bool_decide (c = ∅) then hret tt else load_config S c
  | None => hret tt
  end >>
  check_and_schedule S.

(** [get_state()] *)
Definition get_state (self : t) : cval := _enabled self.

(** A registered service: its id, its name, its trigger and its
    function. *)
Inductive trigger :=
| Crontab (expr : cval)
| EveryMinutes (expr : string).

Record service := {
  service_id : string;
  service_name : string;
  service_trigger : trigger;
  service_func : job
}.

(** [get_service()]: [None] is the [return] that is not reached. *)
Definition get_service (S : system) : H (option (list service)) :=
  self <~ this ;;
  full <~ (if truthy (_cron_full_sync_strm self)
              && truthy (_timing_full_sync_strm self)
              && truthy (_full_sync_strm_paths self)
           then
             match from_crontab S (_cron_full_sync_strm self) with
             | Some e => hraise e
             | None =>
                 hret [ {| service_id := "p123linker_full_sync_strm_files";
                           service_name := "定期全量同步123媒体库";
                           service_trigger := Crontab (_cron_full_sync_strm self);
                           service_func := full_sync_job |} ]
             end
           else hret []) ;;
  incremental <~ (if truthy (_incremental_sync_enabled self)
                     && truthy (_full_sync_strm_paths self)
                  then
                    let interval := Z.max 1 (_incremental_sync_interval self) in
                    match str_of_int (interpreter S) interval with
                    | Raise e =>
                        error "【123云盘直链】增量同步配置错误" (Some e) >> hret []
                    | Ok digits =>
                        let expr := "*/" +:+ digits in
                        match cron_minute S expr with
                        | Some e =>
                            error "【123云盘直链】增量同步配置错误" (Some e) >> hret []
                        | None =>
                            hret [ {| service_id := "p123linker_incremental_sync";
                                      service_name := "增量同步123媒体库";
                                      service_trigger := EveryMinutes expr;
                                      service_func := incremental_sync_job |} ]
                        end
                    end
                  else hret []) ;;
  let cron_service := full ++ incremental in
  hret (match cron_service with [] => None | _ => Some cron_service end).

(** The second item of what [get_form()] returns: the values of a form
    nobody has filled. *)
Definition form_defaults : config :=
  list_to_map
    [ ("enabled", CBool false);
      ("once_full_sync_strm", CBool false);
      ("once_incremental_sync", CBool false);
      ("passport", CStr "");
      ("password", CStr "");
      ("uid", CStr "");
      ("secret_key", CStr "");
      ("expire_time", CStr "5256000");
      ("custom_domain", CStr "https://vip.123pan.cn");
      ("user_rmt_mediaext",
       CStr "mp4,mkv,ts,iso,rmvb,avi,mov,mpeg,mpg,wmv,3gp,asf,m4v,flv,m2ts,tp,f4v");
      ("user_download_mediaext",
       CStr "nfo,jpg,jpeg,png,svg,ass,srt,sup,mp3,flac,wav,aac");
      ("timing_full_sync_strm", CBool false);
      ("full_sync_auto_download_mediainfo_enabled", CBool false);
      ("cron_full_sync_strm", CStr "0 */7 * * *");
      ("full_sync_strm_paths", CStr "");
      ("last_sync_time", CStr "0");
      ("incremental_sync_interval", CStr "30");
      ("incremental_sync_enabled", CBool false) ].

(** The attributes once the [if config:] block has loaded [c], the
    three numbers read. *)
Definition loaded (c : config) (expire_time last_sync_time interval : Z) (self : t)
  : t :=
  {| _storagechain := _storagechain self;
     _client := _client self;
     _scheduler := _scheduler self;
     _enabled := get c "enabled";
     _once_full_sync_strm := get c "once_full_sync_strm";
     _once_incremental_sync := get c "once_incremental_sync";
     _passport := get c "passport";
     _password := get c "password";
     _user_rmt_mediaext :=
       or_else (get c "user_rmt_mediaext")
         (CStr "mp4,mkv,ts,iso,rmvb,avi,mov,mpeg,mpg,wmv,3gp,asf,m4v,flv,m2ts,tp,f4v");
     _user_download_mediaext :=
       or_else (get c "user_download_mediaext")
         (CStr "nfo,jpg,jpeg,png,svg,ass,srt,sup,mp3,flac,wav,aac");
     _timing_full_sync_strm := get c "timing_full_sync_strm";
     _full_sync_auto_download_mediainfo_enabled :=
       get c "full_sync_auto_download_mediainfo_enabled";
     _cron_full_sync_strm := or_else (get c "cron_full_sync_strm") (CStr "0 */7 * * *");
     _full_sync_strm_paths := get c "full_sync_strm_paths";
     _uid := get c "uid";
     _secret_key := get c "secret_key";
     _expire_time := expire_time;
     _custom_domain := or_else (get c "custom_domain") (CStr "https://vip.123pan.cn");
     _last_sync_time := last_sync_time;
     _incremental_sync_interval := interval;
     _incremental_sync_enabled :=
       or_else (get c "incremental_sync_enabled") (CBool false) |}.

(** The reading of [last_sync_time] in the [if config:] block: the
    stored value when it is truthy, the clock otherwise. *)
Definition read_last (S : system) (c : config) (h : host) : result Z * host :=
  if truthy (get c "last_sync_time")
  then (py_int (interpreter S) (get c "last_sync_time"), h)
  else (Ok (clock (passes_env S) (clock_reads (around h))), tick h).

(** What the attributes always satisfy once [init_plugin] has loaded a
    configuration: the attributes with a default are truthy (or [False]
    for [_incremental_sync_enabled]), and no run-once flag is left set
    on an enabled plugin. *)
Definition settled (self : t) : Prop :=
  truthy (_custom_domain self) = true
  /\ truthy (_user_rmt_mediaext self) = true
  /\ truthy (_user_download_mediaext self) = true
  /\ truthy (_cron_full_sync_strm self) = true
  /\ (truthy (_incremental_sync_enabled self) = true
      \/ _incremental_sync_enabled self = CBool false)
  /\ truthy (_enabled self) && truthy (_once_full_sync_strm self) = false
  /\ truthy (_enabled self) && truthy (_once_incremental_sync self) = false.

End Plugin.

(** An attribute the passes treat as text: [None] or a [str]. *)
Definition text (v : Plugin.cval) : option (option string) :=
  match v with
  | Plugin.CNone => Some None
  | Plugin.CStr s => Some (Some s)
  | _ => None
  end.

(** The plugin as the passes read it, when its text attributes hold
    text. *)
Definition view (self : Plugin.t) : option plugin :=
  paths ← text (Plugin._full_sync_strm_paths self);
  uid ← text (Plugin._uid self);
  secret_key ← text (Plugin._secret_key self);
  rmt ← text (Plugin._user_rmt_mediaext self);
  dl ← text (Plugin._user_download_mediaext self);
  domain ← text (Plugin._custom_domain self);
  Some {| _enabled := Plugin.truthy (Plugin._enabled self);
          _full_sync_strm_paths := paths;
          _uid := uid;
          _secret_key := secret_key;
          _user_rmt_mediaext := rmt;
          _user_download_mediaext := dl;
          _full_sync_auto_download_mediainfo_enabled :=
            Plugin.truthy (Plugin._full_sync_auto_download_mediainfo_enabled self);
          _custom_domain := domain;
          _expire_time := Plugin._expire_time self;
          _last_sync_time := Plugin._last_sync_time self;
          _incremental_sync_interval := Plugin._incremental_sync_interval self |}.

(** The value of a string of digits read after [a]. *)
Fixpoint digits_value (a : Z) (s : string) : Z :=
  match s with
  | EmptyString => a
  | String c r => digits_value (10 * a + Plugin.digit_value c) r
  end.

(** ** A system, a host and configurations to run [init_plugin] on *)

Module PluginExample.

Import Plugin.

Definition python312 : python :=
  {| version_info := (3, 12); int_max_str_digits := 4300;
     int_of_text := fun _ => Raise invalid_literal |}.

Definition python311 : python :=
  {| version_info := (3, 11); int_max_str_digits := 4300;
     int_of_text := fun _ => Raise invalid_literal |}.

(** The fields of a crontab expression, separated by blanks. *)
Definition fields (s : string) : list string :=
  List.filter (fun f => negb (Nat.eqb (Py.len f) 0)) (Py.split " " s).

(** A scheduler that wants five fields in a crontab expression ... *)
Definition crontab_fields (expr : cval) : option exn :=
  match expr with
  | CStr s =>
      if Nat.eqb (List.length (fields s)) 5 then None
      else Some (ValueError "Wrong number of fields")
  | _ => Some (AttributeError "split")
  end.

(** ... and, for the minute, a step [*/n] of 1 to 59: the minutes run
    from 0 to 59, and a step beyond their range is refused. *)
Definition minute_step (expr : string) : option exn :=
  match expr with
  | String "*" (String "/" digits) =>
      match int_of_str {| version_info := (3, 12); int_max_str_digits := 4300;
                          int_of_text := fun _ => Raise invalid_literal |} digits with
      | Ok n =>
          if (1 <=? n) && (n <=? 59) then None
          else Some (ValueError
                       "the step value is higher than the total range of the expression")
      | Raise e => Some e
      end
  | _ => Some (ValueError "Unrecognized expression")
  end.

(** Every account connects. *)
Definition system312 : system :=
  {| passes_env := Example.E; interpreter := python312;
     connect := fun _ _ => None;
     from_crontab := crontab_fields;
     cron_minute := minute_step |}.

Definition system311 : system :=
  {| passes_env := Example.E; interpreter := python311;
     connect := fun _ _ => None;
     from_crontab := crontab_fields;
     cron_minute := minute_step |}.

Definition host0 : host :=
  {| around := Example.empty_world; stored := None; schedulers := [] |}.

(** The form filled for the example drive, both run-once switches on. *)
Definition filled : config :=
  <["enabled" := CBool true]>
    (<["once_full_sync_strm" := CBool true]>
       (<["once_incremental_sync" := CBool true]>
          (<["uid" := CStr "1815"]>
             (<["secret_key" := CStr "secret"]>
                (<["full_sync_strm_paths" := CStr "/local/movies#/media/movies"]>
                   (<["user_rmt_mediaext" := CStr "mp4,mkv"]>
                      (<["incremental_sync_enabled" := CBool true]>
                         form_defaults))))))).

(** The same without a stored time of the last pass. *)
Definition filled_without_time : config := delete "last_sync_time" filled.

End PluginExample.

(** The service of the periodic full pass, and the service of the
    incremental pass every [minutes] minutes, as [get_service] registers
    them. *)
Definition full_sync_service (cron : Plugin.cval) : Plugin.service :=
  {| Plugin.service_id := "p123linker_full_sync_strm_files";
     Plugin.service_name := "定期全量同步123媒体库";
     Plugin.service_trigger := Plugin.Crontab cron;
     Plugin.service_func := Plugin.full_sync_job |}.

Definition incremental_sync_service (minutes : Z) : Plugin.service :=
  {| Plugin.service_id := "p123linker_incremental_sync";
     Plugin.service_name := "增量同步123媒体库";
     Plugin.service_trigger := Plugin.EveryMinutes ("*/" +:+ Py.str_of_int minutes);
     Plugin.service_func := Plugin.incremental_sync_job |}.

(** The plugin and the host after [init_plugin] on the filled form. *)
Definition initialised : Plugin.t * Plugin.host :=
  fst (Plugin.init_plugin PluginExample.system312 (Some PluginExample.filled)
         (Plugin.class_defaults, PluginExample.host0)).
(** * Properties *)

(** ** The guards of the passes *)

Lemma guard_modes (self : plugin) :
  guard Full self = None <-> guard Incremental self = None.
Proof.
  unfold guard.
  destruct (negb (_enabled self)); [easy|].
  destruct (Py.falsy_opt (_full_sync_strm_paths self)); [easy|].
  destruct (Py.falsy_opt (_uid self) || Py.falsy_opt (_secret_key self)); easy.
Qed.


Lemma guard_passes (m : mode) (self : plugin) :
  guard m self = None ->
  _enabled self = true /\
  Py.falsy_opt (_full_sync_strm_paths self) = false /\
  Py.falsy_opt (_uid self) = false /\
  Py.falsy_opt (_secret_key self) = false.
Proof.
  unfold guard.
  destruct (_enabled self); simpl; [|discriminate].
  destruct (Py.falsy_opt (_full_sync_strm_paths self)); [discriminate|].
  destruct (Py.falsy_opt (_uid self)); simpl; [discriminate|].
  destruct (Py.falsy_opt (_secret_key self)); [discriminate|]. auto.
Qed.



(** C7 as stated fails on "no path-pair is configured": the guard looks
    at the text of the paths, not at the pairs in it. A text without
    any pair, a line without [#] or a lone line feed, passes it: the
    pass sends no request and touches no file, but it reads the clock,
    stores what it read as the time of the last pass, and returns
    [True]. *)
Lemma guard_passes_without_a_pair :
  (let self := Example.with_paths "nopair" Example.self in
   let '(self', w', r) :=
     full_sync_strm_files Example.E 10 self Example.empty_world in
   r = ReturnBool true
   /\ _last_sync_time self = 0 /\ _last_sync_time self' = 1000
   /\ saved Example.empty_world = None /\ saved w' = Some "1000"
   /\ listed w' = [] /\ files w' = ∅)
  /\ (let self :=
        set_last_sync_time (Example.with_paths (String "010" "") Example.self) 150 in
      let '(self', w', r) :=
        incremental_sync_files Example.E 10 self Example.empty_world in
      r = ReturnBool true
      /\ _last_sync_time self' = 1000 /\ saved w' = Some "1000"
      /\ listed w' = [] /\ files w' = ∅ /\ log w' = []).
Proof. split; vm_compute; repeat split; reflexivity. Qed.

(** ** The monad of a pass *)

Lemma bind_done {A B} (m : M A) (k : A -> M B) w w' a :
  m w = (w', Done a) -> bind m k w = k a w'.
Proof. intros H. unfold bind. rewrite H. reflexivity. Qed.

Lemma bind_throw {A B} (m : M A) (k : A -> M B) w w' e :
  m w = (w', Throw e) -> bind m k w = (w', Throw e).
Proof. intros H. unfold bind. rewrite H. reflexivity. Qed.

Lemma bind_diverge {A B} (m : M A) (k : A -> M B) w w' :
  m w = (w', Diverge) -> bind m k w = (w', Diverge).
Proof. intros H. unfold bind. rewrite H. reflexivity. Qed.

Section Saved.

Lemma keeps_saved_ret {A} (a : A) : keeps_saved (ret a).
Proof. intros w. reflexivity. Qed.

Lemma keeps_saved_throw {A} e : keeps_saved (@throw A e).
Proof. intros w. reflexivity. Qed.




















Lemma keeps_saved_split_attr v : keeps_saved (split_attr v).
Proof. destruct v; [apply keeps_saved_ret | apply keeps_saved_throw]. Qed.

End Saved.

(** ** The time of the last sync *)

Lemma prepare_world E self w : fst (prepare E self w) = w.
Proof.
  unfold prepare, bind, split_attr.
  destruct (_user_rmt_mediaext self); simpl; [|reflexivity].
  destruct (_user_download_mediaext self); reflexivity.
Qed.

Lemma format_int_ok limit n s : format_int limit n = Ok s -> s = Py.str_of_int n.
Proof.
  unfold format_int. destruct (digits_over _ _); [discriminate|].
  intros [= <-]. reflexivity.
Qed.




(** The update either cannot build the dict, and stores nothing, or
    stores it, and then the date of the log line may still raise. *)
Lemma persist_cases E self w :
  (exists e, persist E self w = (w, Throw e))
  \/ (exists e,
        persist E self w
        = (set_saved (Some (Py.str_of_int (_last_sync_time self))) w, Throw e))
  \/ persist E self w
     = (set_saved (Some (Py.str_of_int (_last_sync_time self))) w, Done tt).
Proof.
  unfold persist, update_config, bind, lift, modify, date_of.
  destruct (format_int (max_str_digits E) (_expire_time self)) as [s1|e1];
    [|left; exists e1; reflexivity].
  cbn [ret throw].
  destruct (format_int (max_str_digits E) (_last_sync_time self)) as [s2|e2] eqn:H2;
    [|left; exists e2; reflexivity].
  apply format_int_ok in H2. subst s2. cbn [ret throw].
  destruct (format_int (max_str_digits E) (_incremental_sync_interval self)) as [s3|e3];
    [|left; exists e3; reflexivity].
  cbn [ret throw].
  destruct (fromtimestamp E (_last_sync_time self)) as [e|].
  - right. left. exists e. reflexivity.
  - right. right. reflexivity.
Qed.

Lemma persist_ends E self w : snd (persist E self w) <> Diverge.
Proof.
  destruct (persist_cases E self w) as [[e ->] | [[e ->] | ->]]; discriminate.
Qed.






(** On the example drive the two passes return [True]: the full pass,
    which may start from a [last_sync_time] of 0, ends at clock value
    1002, read after two links were signed at 1000 and 1001; the
    incremental pass keeps 1000, read before its one link was signed. *)
Example last_sync_time_on_example :
  (let '(self', w', r) :=
     full_sync_strm_files Example.E 10 Example.self Example.empty_world in
   (_last_sync_time self', saved w', clock_reads w', r))
  = (1002, Some "1002", 3%nat, ReturnBool true)
  /\ (let '(self', w', r) :=
        incremental_sync_files Example.E 10 (set_last_sync_time Example.self 150)
          Example.empty_world in
      (_last_sync_time self', saved w', clock_reads w', r))
     = (1000, Some "1000", 2%nat, ReturnBool true).
Proof. split; vm_compute; reflexivity. Qed.

(** C4 as stated fails on its last part: a pass can end in its [except]
    with [last_sync_time] advanced. Under a digit limit of 640, with an
    [expire_time] of 641 digits, [__update_config] cannot write the
    dict: the full pass returns [False] and has stored nothing, but the
    attribute holds the time read at the end of the pass. *)
Lemma failed_pass_advances_last_sync_time :
  let self := Example.with_expire_time (10 ^ 640) Example.self in
  let '(self', w', r) :=
    full_sync_strm_files Example.E_strict 10 self Example.empty_world in
  r = ReturnBool false
  /\ _last_sync_time self = 0
  /\ _last_sync_time self' = 1002
  /\ saved w' = None
  /\ last (log w')
     = Some {| message := "【全量同步】执行全量同步时发生错误";
               cause := Some digit_limit_error |}.
Proof. vm_compute. repeat split; reflexivity. Qed.

(** ** What ends whatever the fuel *)

Lemma ends_ret {A} (a : A) : ends (ret a).
Proof. intros w. discriminate. Qed.

Lemma ends_throw {A} e : ends (@throw A e).
Proof. intros w. discriminate. Qed.

Lemma ends_lift {A} (r : result A) : ends (lift r).
Proof. intros w. destruct r; discriminate. Qed.

Lemma ends_bind {A B} (m : M A) (k : A -> M B) :
  ends m -> (forall a, ends (k a)) -> ends (bind m k).
Proof.
  intros Hm Hk w. unfold bind. specialize (Hm w).
  destruct (m w) as [w' [a|e|]]; simpl in *; [apply Hk | discriminate | contradiction].
Qed.

Lemma ends_try {A} (m : M A) (h : exn -> M A) :
  ends m -> (forall e, ends (h e)) -> ends (try_except m h).
Proof.
  intros Hm Hh w. unfold try_except. specialize (Hm w).
  destruct (m w) as [w' [a|e|]]; simpl in *; [discriminate | apply Hh | contradiction].
Qed.

Lemma ends_modify f : ends (modify f).
Proof. intros w. discriminate. Qed.

Lemma ends_log msg c : ends (log_error msg c).
Proof. apply ends_modify. Qed.

Lemma ends_on_files op : ends (on_files op).
Proof. intros w. unfold on_files. destruct (op (files w)); discriminate. Qed.

Lemma ends_now E : ends (now E).
Proof. intros w. discriminate. Qed.

Lemma ends_draw E a b : ends (draw E a b).
Proof. intros w. discriminate. Qed.

Lemma ends_fs_list E p : ends (call_fs_list E p).
Proof. apply ends_bind; [apply ends_modify|]. intros _. apply ends_lift. Qed.

Lemma ends_download_info E p : ends (call_download_info E p).
Proof. apply ends_bind; [apply ends_modify|]. intros _. apply ends_lift. Qed.

Lemma ends_http_get E u : ends (call_http_get E u).
Proof. apply ends_bind; [apply ends_modify|]. intros _. apply ends_lift. Qed.

Lemma ends_ensure_dir p : ends (ensure_dir p).
Proof.
  intros w. unfold ensure_dir.
  destruct (Fs.exists_ (files w) p); [discriminate|]. apply ends_on_files.
Qed.

Lemma ends_auth_url E self path : ends (_generate_auth_url E self path).
Proof.
  unfold _generate_auth_url.
  destruct (Py.falsy_opt (_uid self) || Py.falsy_opt (_secret_key self)).
  { apply ends_bind; [apply ends_log|]. intros _. apply ends_throw. }
  destruct (Py.falsy_opt (_custom_domain self)).
  { apply ends_bind; [apply ends_log|]. intros _. apply ends_throw. }
  apply ends_try.
  - apply ends_bind; [apply ends_now|]. intros t.
    apply ends_bind; [apply ends_draw|]. intros r.
    apply ends_bind; [apply ends_lift|]. intros _. apply ends_ret.
  - intros e. apply ends_bind; [apply ends_log|]. intros _. apply ends_throw.
Qed.

Lemma ends_materialize E self media data local pan x :
  ends (materialize E self media data local pan x).
Proof.
  unfold materialize.
  apply ends_bind; [apply ends_lift|]. intros fp.
  apply ends_bind; [apply ends_on_files|]. intros _.
  destruct (classify _ _ _ _).
  - apply ends_bind; [apply ends_auth_url|]. intros u. apply ends_on_files.
  - apply ends_bind; [apply ends_download_info|]. intros u.
    apply ends_bind; [apply ends_http_get|]. intros b. apply ends_on_files.
  - apply ends_ret.
Qed.

(** A turn of the loop over the entries always falls through to the
    next: its [except] catches what the body raises. *)
Lemma sync_entry_done E self m media data local pan x w :
  snd (sync_entry E self m media data local pan x w) = Done tt.
Proof.
  unfold sync_entry, try_except.
  match goal with |- context [match ?b w with _ => _ end] => set (body := b) end.
  assert (Hb : ends body).
  { subst body. destruct m; [apply ends_materialize|].
    destruct (update_time x <=? _last_sync_time self);
      [apply ends_ret | apply ends_materialize]. }
  specialize (Hb w). destruct (body w) as [w' [[]|e|]]; simpl in *;
    [reflexivity | reflexivity | contradiction].
Qed.

(** The loop over a run ends as the run does. *)
Lemma for_events_ending body l e w :
  (forall x w0, snd (body x w0) = Done tt) ->
  snd (for_events body l e w) =
  match e with Exhausted => Done tt | Raised x => Throw x | OutOfFuel => Diverge end.
Proof.
  intros Hb. revert w. induction l as [|[p|x] l IH]; intros w; simpl.
  - destruct e; reflexivity.
  - unfold bind, modify. apply IH.
  - unfold bind. specialize (Hb x w).
    destruct (body x w) as [w' o]. simpl in Hb. subst o. apply IH.
Qed.

(** ** The incremental filter *)

Lemma sync_entry_full E self media data local pan x :
  sync_entry E self Full media data local pan x
  = process E self Full media data local pan x.
Proof. reflexivity. Qed.








(** With cutoff 200, of the files modified at 100, 200 and 300 only the
    last one gets its pointer file. *)
Example incremental_filter_on_example :
  let self := set_last_sync_time Example.self 200 in
  map fst (map_to_list (files (fst (
    for_events
      (sync_entry Example.E self Incremental [".mkv"] [".nfo"] "/local/movies" "media/movies")
      [Yield (Example.file_entry "a.mkv" 100); Yield (Example.file_entry "b.mkv" 200);
       Yield (Example.file_entry "c.mkv" 300)] Exhausted Example.empty_world))))
  = ["/local/movies/c.strm"; "/local/movies"; "/local"].
Proof. vm_compute. reflexivity. Qed.

(** ** A failing pair does not stop a pass *)

Lemma for_run_raised E self m media data local pan r w e :
  ending_of r = Raised e ->
  snd (for_run (sync_entry E self m media data local pan) r w) = Throw e.
Proof.
  intros H. unfold for_run. rewrite for_events_ending.
  - rewrite H. reflexivity.
  - intros x w0. apply sync_entry_done.
Qed.

Lemma log_error_last msg c w :
  last (log (fst (log_error msg c w))) = Some {| message := msg; cause := c |}.
Proof. simpl. apply last_snoc. Qed.

(** C5, for the two passes of the plugin. When, in a pair whose local
    directory could be made, the resolution of the remote directory
    raises (a segment not found, an error of the drive), or the
    traversal does, the pair ends normally with the exception in the
    last log record, and the pass goes on with the pairs that follow. *)
Theorem pair_failure_isolated (E : env) (fuel : nat) (self : plugin) (m : mode)
    (media data : list string) (path local pan : string) (rest : list string)
    (w w0 : world) (e : exn) :
  Py.falsy (Unicode.strip path) = false ->
  Py.split1 "#" path = [local; pan] ->
  Py.falsy (Py.strip_slash pan) = false ->
  ensure_dir (Pathlib.Path local) w = (w0, Done tt) ->
  snd (resolve_parts E (Py.split "/" (Py.strip_slash pan)) 0 w0) = Throw e
  \/ (exists w1 pid,
        resolve_parts E (Py.split "/" (Py.strip_slash pan)) 0 w0 = (w1, Done pid)
        /\ ending_of (iterdir (client E) true fuel pid) = Raised e) ->
  exists w',
    sync_pair E fuel self m media data path w = (w', Done tt)
    /\ last (log w')
       = Some {| message := tag m +:+ "获取网盘目录ID失败"; cause := Some e |}
    /\ for_paths E fuel self m media data (path :: rest) w
       = for_paths E fuel self m media data rest w'.
Proof.
  intros Hpath Hsplit Hpan Hdir Hfail.
  assert (Hwalk : exists w2,
             resolve_and_walk E fuel self m media data local pan w0 = (w2, Throw e)).
  { unfold resolve_and_walk. rewrite Hpan.
    destruct Hfail as [Hres | (w1 & pid & Hres & Hend)].
    - destruct (resolve_parts E (Py.split "/" (Py.strip_slash pan)) 0 w0)
        as [w1 o] eqn:Hr. simpl in Hres. subst o.
      exists w1. unfold bind. rewrite Hr. reflexivity.
    - unfold bind. rewrite Hres.
      pose proof (for_run_raised E self m media data local (Py.strip_slash pan)
                    (iterdir (client E) true fuel pid) w1 e Hend) as Hrun.
      destruct (for_run _ _ w1) as [w2 o]. simpl in Hrun. subst o.
      exists w2. reflexivity. }
  destruct Hwalk as [w2 Hwalk].
  set (msg := tag m +:+ "获取网盘目录ID失败").
  assert (Hpair : sync_pair E fuel self m media data path w
                  = (fst (log_error msg (Some e) w2), Done tt)).
  { unfold sync_pair. rewrite Hpath, Hsplit. unfold bind at 1. rewrite Hdir.
    unfold try_except. rewrite Hwalk. reflexivity. }
  exists (fst (log_error msg (Some e) w2)).
  split; [exact Hpair|]. split; [apply log_error_last|].
  simpl. unfold bind. rewrite Hpair. reflexivity.
Qed.

Lemma pair_failure_isolated_witness :
  exists w',
    sync_pair Example.E 10 Example.self Full [".mkv"] [".nfo"] "/local/a#/missing"
      Example.empty_world = (w', Done tt)
    /\ last (log w')
       = Some {| message := tag Full +:+ "获取网盘目录ID失败";
                 cause := Some (ValueError ("未找到目录: " +:+ "missing")) |}
    /\ for_paths Example.E 10 Example.self Full [".mkv"] [".nfo"]
         ["/local/a#/missing"; "/local/movies#/media/movies"] Example.empty_world
       = for_paths Example.E 10 Example.self Full [".mkv"] [".nfo"]
           ["/local/movies#/media/movies"] w'.
Proof.
  apply (pair_failure_isolated Example.E 10 Example.self Full [".mkv"] [".nfo"]
           "/local/a#/missing" "/local/a" "/missing" ["/local/movies#/media/movies"]
           Example.empty_world
           (fst (ensure_dir (Pathlib.Path "/local/a") Example.empty_world))
           (ValueError ("未找到目录: " +:+ "missing"))).
  - reflexivity.
  - reflexivity.
  - reflexivity.
  - vm_compute. reflexivity.
  - left. vm_compute. reflexivity.
Defined.

(** The full pass over [two_pairs]: the first pair fails at resolution,
    the second is served; the pass returns [True]. *)
Example full_sync_two_pairs :
  let '(_, w', r) :=
    full_sync_strm_files Example.E 10
      (Example.with_paths Example.two_pairs Example.self) Example.empty_world in
  r = ReturnBool true
  /\ map cause (log w') = [Some (ValueError ("未找到目录: " +:+ "missing"))]
  /\ map fst (map_to_list (files w'))
     = ["/local/movies/S1/E1.strm"; "/local/movies/S1"; "/local/movies/A.strm";
        "/local/movies"; "/local/a"; "/local"].
Proof. vm_compute. auto. Qed.

(** The full pass on the drive whose listing of [S1] fails, with a second
    pair after the failing one: the traversal error is logged, the second
    pair is still served, the pass returns [True]. *)
Example full_sync_flaky_traversal :
  let paths := "/local/movies#/media/movies" +:+ String "010" "/local/m#/media" in
  let '(_, w', r) :=
    full_sync_strm_files Example.E_flaky 10
      (Example.with_paths paths Example.self) Example.empty_world in
  r = ReturnBool true
  /\ map cause (log w') = [Some (RemoteError "code 429"); Some (RemoteError "code 429")]
  /\ map fst (map_to_list (files w'))
     = ["/local/movies/A.strm"; "/local/movies"; "/local/m/movies/A.strm";
        "/local/m/movies"; "/local/m"; "/local"].
Proof. vm_compute. auto. Qed.

(** C5 as stated fails for the pass of [FullSyncStrmHelper]: over
    [two_pairs], the failure to resolve the first remote directory is
    logged and ends the call with [False]; the second pair, which alone
    yields a pointer file, is not touched. *)
Lemma helper_stops_at_failing_pair :
  let run paths :=
    FullSyncStrmHelper.generate_strm_files Example.E Example.host 10 Example.helper
      paths Example.empty_world in
  snd (run Example.two_pairs) = Done false
  /\ files (fst (run Example.two_pairs)) = ∅
  /\ listed (fst (run Example.two_pairs)) = []
  /\ length (log (fst (run Example.two_pairs))) = 1%nat
  /\ snd (run "/local/movies#/media/movies") = Done true
  /\ map fst (map_to_list (files (fst (run "/local/movies#/media/movies"))))
     = ["/local/movies/A.strm"; "/local/movies"; "/local"].
Proof. vm_compute. repeat split; reflexivity. Qed.

(** ** The resolution of the remote directory *)

Lemma set_listed_id w : set_listed (listed w ++ []) w = w.
Proof. destruct w. unfold set_listed. simpl. rewrite app_nil_r. reflexivity. Qed.

Lemma set_listed_twice l1 l2 w :
  set_listed (listed (set_listed (listed w ++ l1) w) ++ l2) (set_listed (listed w ++ l1) w)
  = set_listed (listed w ++ l1 ++ l2) w.
Proof. unfold set_listed. simpl. rewrite app_assoc. reflexivity. Qed.

Lemma call_fs_list_ok E p resp w :
  fs_list (client E) p = Ok resp ->
  call_fs_list E p w = (set_listed (listed w ++ [p]) w, Done resp).
Proof. intros H. unfold call_fs_list, bind, modify, lift. rewrite H. reflexivity. Qed.

Lemma call_fs_list_raise E p e w :
  fs_list (client E) p = Raise e ->
  call_fs_list E p w = (set_listed (listed w ++ [p]) w, Throw e).
Proof. intros H. unfold call_fs_list, bind, modify, lift. rewrite H. reflexivity. Qed.

(** The resolution touches the world through its requests only: one
    first page for each level it gets to. *)
Lemma resolve_parts_trace E parts : forall pid w,
  exists pids,
    fst (resolve_parts E parts pid w) = set_listed (listed w ++ map first_page pids) w
    /\ (length pids <= length (levels parts))%nat
    /\ (forall r, snd (resolve_parts E parts pid w) = Done r ->
        length pids = length (levels parts)).
Proof.
  induction parts as [|part rest IH]; intros pid w.
  - exists []. simpl. rewrite set_listed_id. auto.
  - simpl. unfold levels. simpl. fold (levels rest).
    destruct (Py.falsy part) eqn:Hp; simpl; [apply IH|].
    change {| limit := 100; next := PInt 0; Page := None; parentFileId := pid;
              inDirectSpace := "false" |} with (first_page pid).
    unfold bind.
    destruct (fs_list (client E) (first_page pid)) as [resp|e] eqn:Hl.
    + rewrite (call_fs_list_ok E _ resp w Hl).
      destruct (find_dir_entry part (InfoList resp)) as [fid|].
      * destruct (IH fid (set_listed (listed w ++ [first_page pid]) w))
          as (pids & Hw & Hle & Hdone).
        exists (pid :: pids). rewrite Hw. simpl.
        split; [apply set_listed_twice|]. split; [lia|].
        intros r Hr. rewrite (Hdone r Hr). reflexivity.
      * exists [pid]. simpl. split; [reflexivity|]. split; [lia|]. discriminate.
    + rewrite (call_fs_list_raise E _ e w Hl).
      exists [pid]. simpl. split; [reflexivity|]. split; [lia|]. discriminate.
Qed.

Lemma resolve_parts_app E pre : forall l p0 w0 w1 pid,
  resolve_parts E pre p0 w0 = (w1, Done pid) ->
  resolve_parts E (pre ++ l) p0 w0 = resolve_parts E l pid w1.
Proof.
  induction pre as [|part pre IH]; intros l p0 w0 w1 pid H; simpl in *.
  - inversion H. reflexivity.
  - destruct (Py.falsy part); [apply IH; exact H|].
    unfold bind in *.
    destruct (call_fs_list E _ w0) as [w' [resp|e|]]; try discriminate.
    destruct (find_dir_entry part (InfoList resp)) as [fid|]; [|discriminate].
    apply IH. exact H.
Qed.

(** A level whose directory is not on the first page of its parent. *)
Lemma resolve_parts_not_found E part rest pid w resp :
  Py.falsy part = false ->
  fs_list (client E) (first_page pid) = Ok resp ->
  find_dir_entry part (InfoList resp) = None ->
  resolve_parts E (part :: rest) pid w
  = (set_listed (listed w ++ [first_page pid]) w,
     Throw (ValueError ("未找到目录: " +:+ part))).
Proof.
  intros Hp Hl Hf. simpl. rewrite Hp.
  change {| limit := 100; next := PInt 0; Page := None; parentFileId := pid;
            inDirectSpace := "false" |} with (first_page pid).
  unfold bind. rewrite (call_fs_list_ok E _ resp w Hl), Hf. reflexivity.
Qed.

(** C10. The resolution sends one request per level, each with limit
    100 and cursor 0 and nothing else. So when the levels before have
    been resolved to [pid] and the first page of [pid] holds no
    directory named [part], the resolution raises "not found" for
    [part] whatever the drive would answer to any other request, and the
    pair ends there: the error is logged, the requests of the pair are
    the first pages of the levels tried, and the local files are those
    left by the creation of the local directory. *)
Theorem resolution_reads_first_page_only (E : env) (fuel : nat) (self : plugin)
    (m : mode) (media data : list string) (path local pan : string)
    (pre : list string) (part : string) (rest : list string) (pid : Z)
    (resp : listing) (w w0 w1 : world) :
  Py.falsy (Unicode.strip path) = false ->
  Py.split1 "#" path = [local; pan] ->
  Py.falsy (Py.strip_slash pan) = false ->
  Py.split "/" (Py.strip_slash pan) = pre ++ part :: rest ->
  Py.falsy part = false ->
  ensure_dir (Pathlib.Path local) w = (w0, Done tt) ->
  resolve_parts E pre 0 w0 = (w1, Done pid) ->
  fs_list (client E) (first_page pid) = Ok resp ->
  find_dir_entry part (InfoList resp) = None ->
  exists pids w',
    sync_pair E fuel self m media data path w = (w', Done tt)
    /\ length pids = length (levels pre)
    /\ listed w' = listed w0 ++ map first_page (pids ++ [pid])
    /\ Forall (fun p => limit p = 100 /\ next p = PInt 0 /\ Page p = None)
         (map first_page (pids ++ [pid]))
    /\ last (log w')
       = Some {| message := tag m +:+ "获取网盘目录ID失败";
                 cause := Some (ValueError ("未找到目录: " +:+ part)) |}
    /\ files w' = files w0.
Proof.
  intros Hpath Hsplit Hpan Hparts Hpart Hdir Hpre Hl Hf.
  destruct (resolve_parts_trace E pre 0 w0) as (pids & Hw & _ & Hlen).
  rewrite Hpre in Hw, Hlen. simpl in Hw. specialize (Hlen pid eq_refl).
  set (e := ValueError ("未找到目录: " +:+ part)).
  set (w2 := set_listed (listed w1 ++ [first_page pid]) w1).
  assert (Hres : resolve_parts E (Py.split "/" (Py.strip_slash pan)) 0 w0 = (w2, Throw e)).
  { rewrite Hparts, (resolve_parts_app E pre _ 0 w0 w1 pid Hpre).
    apply (resolve_parts_not_found E part rest pid w1 resp); assumption. }
  set (msg := tag m +:+ "获取网盘目录ID失败").
  exists pids, (fst (log_error msg (Some e) w2)).
  split; [|split; [exact Hlen|split; [|split; [|split]]]].
  - unfold sync_pair. rewrite Hpath, Hsplit. unfold bind at 1. rewrite Hdir.
    unfold try_except, resolve_and_walk. rewrite Hpan. unfold bind at 1.
    rewrite Hres. reflexivity.
  - simpl. rewrite Hw. simpl. rewrite map_app, app_assoc. reflexivity.
  - induction (pids ++ [pid]) as [|q l IHl]; simpl; constructor; auto.
  - apply log_error_last.
  - simpl. rewrite Hw. reflexivity.
Qed.

Lemma resolution_reads_first_page_only_witness :
  exists pids w',
    sync_pair Example.E_wide 300 Example.self Full [".mkv"] [".nfo"] "/local/w#/d100"
      Example.empty_world = (w', Done tt)
    /\ length pids = length (levels [])
    /\ listed w'
       = listed (fst (ensure_dir (Pathlib.Path "/local/w") Example.empty_world))
         ++ map first_page (pids ++ [0])
    /\ Forall (fun p => limit p = 100 /\ next p = PInt 0 /\ Page p = None)
         (map first_page (pids ++ [0]))
    /\ last (log w')
       = Some {| message := tag Full +:+ "获取网盘目录ID失败";
                 cause := Some (ValueError ("未找到目录: " +:+ "d100")) |}
    /\ files w' = files (fst (ensure_dir (Pathlib.Path "/local/w") Example.empty_world)).
Proof.
  eapply (resolution_reads_first_page_only Example.E_wide 300 Example.self Full
            [".mkv"] [".nfo"] "/local/w#/d100" "/local/w" "/d100" [] "d100" [] 0 _
            Example.empty_world
            (fst (ensure_dir (Pathlib.Path "/local/w") Example.empty_world))
            (fst (ensure_dir (Pathlib.Path "/local/w") Example.empty_world))).
  - reflexivity.
  - reflexivity.
  - reflexivity.
  - reflexivity.
  - reflexivity.
  - vm_compute. reflexivity.
  - reflexivity.
  - vm_compute. reflexivity.
  - vm_compute. reflexivity.
Defined.

(** The directory [d100] is there: a listing of the root that follows
    the pages yields it, and the resolution of [d99], on the first page,
    succeeds. *)
Example d100_is_on_the_second_page :
  In "d100" (map relpath (yielded (iterdir (serve Example.wide) false 300 0)))
  /\ snd (resolve_parts Example.E_wide ["d99"] 0 Example.empty_world) = Done 100
  /\ snd (resolve_parts Example.E_wide ["d100"] 0 Example.empty_world)
     = Throw (ValueError ("未找到目录: " +:+ "d100")).
Proof.
  split; [|split]; [|vm_compute; reflexivity..].
  apply list_elem_of_In. apply (bool_decide_unpack _). vm_compute. exact I.
Qed.

(** ** Letter case and the classification *)









Lemma lower_app a b : Py.lower_ascii (a +:+ b) = Py.lower_ascii a +:+ Py.lower_ascii b.
Proof. induction a as [|c a IH]; simpl; [reflexivity|]. rewrite IH. reflexivity. Qed.




(** *** ASCII text *)





































(** The three categories on the example configuration, and a capital
    letter outside ASCII: with [avi] written [àvi] in the list, [c.ÀVI]
    is streamable. *)
Example classify_examples :
  let U := Example.latin1 in
  classify U (ext_set U "mp4,mkv") (ext_set U "nfo,jpg") true "MOVIE.MKV" = Streamable
  /\ classify U (ext_set U "mp4,mkv") (ext_set U "nfo,jpg") true "movie.mkv" = Streamable
  /\ classify U (ext_set U "mp4,mkv") (ext_set U "nfo,jpg") true "Movie.NFO" = Sidecar
  /\ classify U (ext_set U "mp4,mkv") (ext_set U "nfo,jpg") false "Movie.NFO" = Ignored
  /\ classify U (ext_set U "mp4,mkv") (ext_set U "nfo,jpg") true "notes.txt" = Ignored
  /\ classify U (ext_set U "mp4,mkv") (ext_set U "nfo,jpg") true "mkv" = Ignored
  /\ classify U (ext_set U "àvi") (ext_set U "nfo") true "c.ÀVI" = Streamable
  /\ ext_set U "　mp4" = [".mp4"].
Proof. vm_compute. repeat split; reflexivity. Qed.


(** ** The path round trip *)

Lemma append_cons c a b : String c a +:+ b = String c (a +:+ b).
Proof. reflexivity. Qed.

Lemma append_nil_l b : "" +:+ b = b.
Proof. reflexivity. Qed.

Lemma append_nil_r a : a +:+ "" = a.
Proof. induction a as [|c a IH]; [reflexivity|]. rewrite append_cons, IH. reflexivity. Qed.

Lemma append_assoc a b c : (a +:+ b) +:+ c = a +:+ (b +:+ c).
Proof.
  induction a as [|x a IH]; [reflexivity|]. rewrite !append_cons, IH. reflexivity.
Qed.

Lemma split_nonempty sep s : Py.split sep s <> [].
Proof.
  induction s as [|c s IH]; simpl; [discriminate|].
  destruct (Py.ascii_eqb c sep); [discriminate|].
  destruct (Py.split sep s); discriminate.
Qed.

(** Splitting at the slashes goes through a slash put between two
    strings. *)
Lemma split_app_slash a b :
  Py.split "/" (a +:+ "/" +:+ b) = Py.split "/" a ++ Py.split "/" b.
Proof.
  induction a as [|c a IH].
  - reflexivity.
  - rewrite append_cons. simpl. rewrite IH.
    destruct (Py.ascii_eqb c "/"); [reflexivity|].
    pose proof (split_nonempty "/" a) as Hne.
    destruct (Py.split "/" a) as [|x l]; [contradiction|]. reflexivity.
Qed.

Lemma lstrip_head p s :
  Py.lstrip_by p s = "" \/ exists c r, Py.lstrip_by p s = String c r /\ p c = false.
Proof.
  induction s as [|c s IH]; simpl; [auto|].
  destruct (p c) eqn:Hc; [exact IH|]. right. eauto.
Qed.

Lemma rstrip_head p c s :
  p c = false -> exists r, Py.rstrip_by p (String c s) = String c r.
Proof.
  intros Hc. simpl. destruct (Py.rstrip_by p s); [|eauto].
  rewrite Hc. eauto.
Qed.

(** What [strip('/')] leaves is empty or starts with something else
    than a slash. *)
Lemma strip_slash_head s :
  Py.strip_slash s = "" \/
  exists c r, Py.strip_slash s = String c r /\ Py.is_slash c = false.
Proof.
  unfold Py.strip_slash, Py.strip_by.
  destruct (lstrip_head Py.is_slash s) as [-> | (c & r & -> & Hc)]; [auto|].
  destruct (rstrip_head Py.is_slash c r Hc) as [r' ->]. right. eauto.
Qed.

Lemma splitroot_relative s :
  fst (Pathlib.splitroot s) = "" -> Pathlib.splitroot s = ("", s).
Proof.
  destruct s as [|c [|c1 [|c2 r]]]; simpl; try reflexivity;
    repeat match goal with |- context [Py.is_slash ?x] => destruct (Py.is_slash x) end;
    simpl; intros H; first [reflexivity | discriminate H].
Qed.

Lemma Path_root s : Pathlib.root (Pathlib.Path s) = fst (Pathlib.splitroot s).
Proof. unfold Pathlib.Path. destruct (Pathlib.splitroot s). reflexivity. Qed.

Lemma Path_relative s :
  Pathlib.root (Pathlib.Path s) = "" ->
  Pathlib.Path s
  = {| Pathlib.root := "";
       Pathlib.tail := List.filter Pathlib.keep_segment (Py.split "/" s) |}.
Proof.
  rewrite Path_root. intros H. unfold Pathlib.Path.
  rewrite (splitroot_relative s H). reflexivity.
Qed.

(** The path of a file below a remote root that does not start with a
    slash: the segments of the root, then those of the relative path. *)
Lemma Path_below c r rel :
  Py.is_slash c = false ->
  Pathlib.root (Pathlib.Path rel) = "" ->
  Pathlib.Path (String c r +:+ "/" +:+ rel)
  = {| Pathlib.root := "";
       Pathlib.tail := Pathlib.tail (Pathlib.Path (String c r))
                       ++ Pathlib.tail (Pathlib.Path rel) |}.
Proof.
  intros Hc Hrel.
  assert (H1 : forall s, Pathlib.Path (String c s)
                         = {| Pathlib.root := "";
                              Pathlib.tail := List.filter Pathlib.keep_segment
                                                (Py.split "/" (String c s)) |}).
  { intros s. unfold Pathlib.Path, Pathlib.splitroot. rewrite Hc. reflexivity. }
  rewrite append_cons, !H1, (Path_relative rel Hrel). simpl Pathlib.tail.
  rewrite <- append_cons, split_app_slash, List.filter_app. reflexivity.
Qed.

Lemma is_prefix_app p l : Pathlib.is_prefix p (p ++ l) = true.
Proof.
  induction p as [|x p IH]; simpl; [reflexivity|].
  unfold Py.string_eqb. rewrite bool_decide_eq_true_2 by reflexivity. exact IH.
Qed.

Lemma relative_to_join a b :
  Pathlib.root b = "" ->
  Pathlib.relative_to (Pathlib.joinpath a b) a = Some b.
Proof.
  intros Hb. unfold Pathlib.joinpath, Pathlib.relative_to. rewrite Hb. simpl.
  unfold Py.string_eqb at 1. rewrite bool_decide_eq_true_2 by reflexivity.
  rewrite is_prefix_app. simpl. rewrite drop_app_length.
  destruct b as [rb tb]. simpl in *. subst rb. reflexivity.
Qed.

Lemma local_target_below local c r rel :
  Py.is_slash c = false ->
  Pathlib.root (Pathlib.Path rel) = "" ->
  local_target local (String c r) rel
  = Ok (Pathlib.joinpath (Pathlib.Path local) (Pathlib.Path rel)).
Proof.
  intros Hc Hrel. unfold local_target. rewrite (Path_below c r rel Hc Hrel).
  assert (Hroot : Pathlib.root (Pathlib.Path (String c r)) = "").
  { rewrite Path_root. unfold Pathlib.splitroot. rewrite Hc. reflexivity. }
  unfold Pathlib.relative_to. simpl. rewrite Hroot.
  unfold Py.string_eqb at 1. rewrite bool_decide_eq_true_2 by reflexivity.
  rewrite is_prefix_app. simpl. rewrite drop_app_length.
  do 2 f_equal. destruct (Pathlib.Path rel) as [rr tr]. simpl in *. subst rr. reflexivity.
Qed.

(** C9, for the remote roots and relative paths a pass works with. For
    every local root, every remote root that is not empty once its
    slashes are stripped, and every relative path that pathlib leaves as
    it is (relative, no empty segment, no ["."] segment), the local
    target is the local root joined with the relative path, and taking it
    relative to the local root gives the relative path back. *)
Theorem path_round_trip (local_root remote_root relative_path : string) :
  Py.falsy (Py.strip_slash remote_root) = false ->
  Pathlib.root (Pathlib.Path relative_path) = "" ->
  Pathlib.str (Pathlib.Path relative_path) = relative_path ->
  exists p,
    local_target local_root (Py.strip_slash remote_root) relative_path = Ok p
    /\ p = Pathlib.joinpath (Pathlib.Path local_root) (Pathlib.Path relative_path)
    /\ option_map Pathlib.str (Pathlib.relative_to p (Pathlib.Path local_root))
       = Some relative_path.
Proof.
  intros Hpan Hrel Hstr.
  destruct (strip_slash_head remote_root) as [He | (c & r & He & Hc)].
  { rewrite He in Hpan. discriminate. }
  rewrite He. eexists. split; [apply local_target_below; assumption|].
  split; [reflexivity|].
  rewrite relative_to_join by exact Hrel. simpl. rewrite Hstr. reflexivity.
Qed.

Lemma path_round_trip_witness :
  exists p,
    local_target "/local/movies" (Py.strip_slash "/media/movies/") "S1/E1.MP4" = Ok p
    /\ p = Pathlib.joinpath (Pathlib.Path "/local/movies") (Pathlib.Path "S1/E1.MP4")
    /\ option_map Pathlib.str (Pathlib.relative_to p (Pathlib.Path "/local/movies"))
       = Some "S1/E1.MP4".
Proof.
  apply (path_round_trip "/local/movies" "/media/movies/" "S1/E1.MP4"); reflexivity.
Defined.

(** C9 as stated fails: with an empty remote root there is no local
    target ([relative_to] raises; the passes skip such a pair), and a
    relative path with an empty segment comes back without it. *)
Lemma path_round_trip_fails :
  (exists e, local_target "/local" (Py.strip_slash "/") "A.mkv" = Raise e)
  /\ (exists p,
        local_target "/local" "media" "a//b" = Ok p
        /\ option_map Pathlib.str (Pathlib.relative_to p (Pathlib.Path "/local"))
           = Some "a/b"
        /\ "a/b" <> "a//b").
Proof.
  split.
  - eexists. vm_compute. reflexivity.
  - eexists. split; [vm_compute; reflexivity|]. split; [vm_compute; reflexivity|].
    discriminate.
Qed.

(** *** The relative paths a traversal builds *)

Lemma item_path_nonempty p n : p <> "" -> item_path p n = p +:+ "/" +:+ n.
Proof. intros H. unfold item_path. destruct p; [contradiction|reflexivity]. Qed.

Lemma append_nonempty a b : a <> "" -> a +:+ b <> "".
Proof. destruct a; [contradiction|discriminate]. Qed.

Lemma join_cons2 sep a b l : Py.join sep (a :: b :: l) = a +:+ sep +:+ Py.join sep (b :: l).
Proof. reflexivity. Qed.

Lemma fold_item_path ns : forall n,
  n <> "" -> fold_left item_path ns n = Py.join "/" (n :: ns).
Proof.
  induction ns as [|x ns IH]; intros n Hn; [reflexivity|].
  simpl fold_left. rewrite (item_path_nonempty n x Hn).
  rewrite IH by (apply append_nonempty; exact Hn).
  destruct ns as [|y ns].
  - reflexivity.
  - rewrite !join_cons2, append_assoc. reflexivity.
Qed.

(** With non-empty names the path built step by step is the names
    joined by slashes. *)
Lemma path_of_names_join names :
  Forall (fun n => n <> "") names -> path_of_names names = Py.join "/" names.
Proof.
  intros H. destruct names as [|n ns]; [reflexivity|].
  unfold path_of_names. simpl fold_left. inversion H; subst.
  apply fold_item_path. assumption.
Qed.

Lemma split_no_slash s : Urllib.contains "/" s = false -> Py.split "/" s = [s].
Proof.
  induction s as [|c s IH]; simpl; [reflexivity|].
  intros H. apply orb_false_iff in H as [Hc Hs].
  rewrite Hc, (IH Hs). reflexivity.
Qed.

Lemma split_join names :
  names <> [] -> Forall plain_name names -> Py.split "/" (Py.join "/" names) = names.
Proof.
  induction names as [|n [|n' ns] IH]; intros Hne H; [contradiction| |].
  - inversion H as [|? ? (_ & _ & Hs) _]; subst. simpl. apply split_no_slash. exact Hs.
  - inversion H as [|? ? (_ & _ & Hs) H']; subst.
    rewrite join_cons2, split_app_slash, (split_no_slash n Hs), IH by (discriminate || assumption).
    reflexivity.
Qed.

Lemma filter_plain names :
  Forall plain_name names -> List.filter Pathlib.keep_segment names = names.
Proof.
  induction 1 as [|n ns (H1 & H2 & _) _ IH]; [reflexivity|].
  assert (Hk : Pathlib.keep_segment n = true).
  { unfold Pathlib.keep_segment, Py.string_eqb.
    rewrite !bool_decide_eq_false_2 by assumption. reflexivity. }
  cbn [List.filter]. rewrite Hk, IH. reflexivity.
Qed.

Lemma join_head n ns :
  plain_name n -> exists c r, Py.join "/" (n :: ns) = String c r /\ Py.is_slash c = false.
Proof.
  intros (Hne & _ & Hs). destruct n as [|c r]; [contradiction|].
  simpl in Hs. apply orb_false_iff in Hs as [Hc _].
  exists c. destruct ns; [exists r | eexists]; split; try reflexivity; exact Hc.
Qed.

(** The relative path of an entry reached through plain names is the
    names joined by slashes, and pathlib leaves it as it is: it meets
    the conditions of the round trip. *)
Lemma relpath_normal_form names :
  names <> [] -> Forall plain_name names ->
  path_of_names names = Py.join "/" names
  /\ Pathlib.root (Pathlib.Path (path_of_names names)) = ""
  /\ Pathlib.str (Pathlib.Path (path_of_names names)) = path_of_names names.
Proof.
  intros Hne H.
  assert (Hj : path_of_names names = Py.join "/" names).
  { apply path_of_names_join. eapply Forall_impl; [exact H|]. intros n (Hn & _). exact Hn. }
  rewrite Hj. split; [reflexivity|].
  destruct names as [|n ns]; [contradiction|].
  inversion H as [|? ? Hn Hns]; subst.
  destruct (join_head n ns Hn) as (c & r & Hc & Hslash).
  assert (Hroot : Pathlib.root (Pathlib.Path (Py.join "/" (n :: ns))) = "").
  { rewrite Path_root, Hc. unfold Pathlib.splitroot. rewrite Hslash. reflexivity. }
  split; [exact Hroot|].
  rewrite (Path_relative _ Hroot), split_join, filter_plain by (discriminate || assumption).
  reflexivity.
Qed.

(** ** The signed link *)

Lemma contains_app c a b :
  Urllib.contains c (a +:+ b) = Urllib.contains c a || Urllib.contains c b.
Proof.
  induction a as [|x a IH]; [reflexivity|].
  rewrite append_cons. simpl. rewrite IH, orb_assoc. reflexivity.
Qed.

Lemma unquote_to_bytes_cons c s :
  Py.ascii_eqb c "%" = false ->
  Urllib.unquote_to_bytes (String c s) = String c (Urllib.unquote_to_bytes s).
Proof. intros H. simpl. rewrite H. reflexivity. Qed.

Lemma decode_replace_cons c s :
  Urllib.is_ascii c = true ->
  Urllib.decode_replace (String c s) = String c (Urllib.decode_replace s).
Proof. intros H. unfold Urllib.is_ascii in H. simpl. rewrite H. reflexivity. Qed.

Lemma ascii_runs_cons c s :
  Urllib.ascii_runs (String c s)
  = match Urllib.ascii_runs s with
    | (b, r) :: rest =>
        if Bool.eqb (Urllib.is_ascii c) b then (b, String c r) :: rest
        else (Urllib.is_ascii c, String c "") :: (b, r) :: rest
    | [] => [(Urllib.is_ascii c, String c "")]
    end.
Proof. reflexivity. Qed.

Lemma decode_run_cons c b r :
  Py.ascii_eqb c "%" = false -> Urllib.is_ascii c = b ->
  Urllib.decode_run (b, String c r) = String c (Urllib.decode_run (b, r)).
Proof.
  intros Hc Ha. unfold Urllib.decode_run. cbn [fst snd]. destruct b; [|reflexivity].
  rewrite (unquote_to_bytes_cons c _ Hc), (decode_replace_cons c _ Ha). reflexivity.
Qed.

Lemma decode_run_nil b : Urllib.decode_run (b, "") = "".
Proof. destruct b; reflexivity. Qed.

(** A character that is not a percent sign goes through the decoding of
    the runs. *)
Lemma unquote_runs_cons c s :
  Py.ascii_eqb c "%" = false ->
  Urllib.unquote_runs (String c s) = String c (Urllib.unquote_runs s).
Proof.
  intros Hc. unfold Urllib.unquote_runs. rewrite ascii_runs_cons.
  destruct (Urllib.ascii_runs s) as [|[b r] rest].
  - cbn [map Urllib.concat_strings].
    rewrite (decode_run_cons c _ "" Hc eq_refl), decode_run_nil. reflexivity.
  - destruct (Bool.eqb (Urllib.is_ascii c) b) eqn:Hb.
    + apply Bool.eqb_prop in Hb. cbn [map Urllib.concat_strings].
      rewrite (decode_run_cons c b r Hc Hb). reflexivity.
    + cbn [map Urllib.concat_strings].
      rewrite (decode_run_cons c _ "" Hc eq_refl), decode_run_nil. reflexivity.
Qed.

Lemma unquote_runs_app a b :
  Urllib.contains "%" a = false ->
  Urllib.unquote_runs (a +:+ b) = a +:+ Urllib.unquote_runs b.
Proof.
  induction a as [|c a IH]; intros H; [reflexivity|].
  simpl in H. apply orb_false_iff in H as [Hc Ha].
  rewrite !append_cons, (unquote_runs_cons c _ Hc), (IH Ha). reflexivity.
Qed.

(** Decoding leaves a prefix without percent sign in place. *)
Lemma unquote_app a b :
  Urllib.contains "%" a = false ->
  Urllib.unquote (a +:+ b) = a +:+ Urllib.unquote b.
Proof.
  intros Ha. unfold Urllib.unquote. rewrite contains_app, Ha. simpl.
  destruct (Urllib.contains "%" b); simpl; [|reflexivity].
  apply unquote_runs_app. exact Ha.
Qed.

Lemma randint_range a b raw : a <= b -> a <= randint a b raw <= b.
Proof.
  intros H. unfold randint.
  pose proof (Z.mod_pos_bound raw (b - a + 1)). lia.
Qed.

Lemma falsy_opt_some s : s <> "" -> Py.falsy_opt (Some s) = false.
Proof. intros H. destruct s; [contradiction|reflexivity]. Qed.

(** The signer with its attributes set, when the expiry time can be
    written. *)
Lemma generate_auth_url_done E self path w uid secret_key domain :
  _uid self = Some uid -> uid <> "" ->
  _secret_key self = Some secret_key -> secret_key <> "" ->
  _custom_domain self = Some domain -> domain <> "" ->
  format_int (max_str_digits E) (clock E (clock_reads w) + _expire_time self * 60)
  = Ok (Py.str_of_int (clock E (clock_reads w) + _expire_time self * 60)) ->
  _generate_auth_url E self path w
  = (set_rand_draws (S (rand_draws w)) (set_clock_reads (S (clock_reads w)) w),
     Done (auth_url uid secret_key domain
             (clock E (clock_reads w) + _expire_time self * 60)
             (randint 0 (2 ^ 31 - 1) (entropy E (rand_draws w))) path)).
Proof.
  intros Hu Hu' Hk Hk' Hd Hd' Hf. unfold _generate_auth_url.
  rewrite Hu, Hk, Hd, !falsy_opt_some by assumption.
  cbn [orb]. unfold try_except, bind, now, draw.
  cbn [rand_draws clock_reads set_clock_reads set_rand_draws].
  rewrite Hf. reflexivity.
Qed.

(** C1, with the request path and the domain as the signer computes
    them. For a configured (non-empty) uid, secret key and domain, the
    call draws the clock value [now] and the number [nonce], which lies
    in [0, 2^31 - 1], and touches nothing else. When [expire_at = now +
    expire_minutes * 60] can be written under the digit limit of the
    interpreter, it returns [domain' + request_path + "?auth_key=" +
    auth_key], where [domain'] is the configured domain without trailing
    slashes and with [https://] in front when it names no scheme,
    [request_path] is the URL-decoding of ["/" + uid + "/" + path] as a
    whole, the signature is the hexadecimal MD5 digest of
    [request_path-expire_at-nonce-uid-secret_key] and [auth_key =
    expire_at-nonce-uid-signature]. When [expire_at] has too many
    digits, the call logs the [ValueError] and raises it. When the uid
    holds no percent sign, [request_path] is ["/" + uid + "/" +
    url_decode(path)]. *)
Theorem generate_auth_url_form (E : env) (self : plugin) (path : string) (w : world)
    (uid secret_key domain : string) :
  _uid self = Some uid -> uid <> "" ->
  _secret_key self = Some secret_key -> secret_key <> "" ->
  _custom_domain self = Some domain -> domain <> "" ->
  let now_ := clock E (clock_reads w) in
  let nonce := randint 0 (2 ^ 31 - 1) (entropy E (rand_draws w)) in
  let expire_at := now_ + _expire_time self * 60 in
  let request_path := Urllib.unquote ("/" +:+ uid +:+ "/" +:+ path) in
  let signature :=
    MD5.hexdigest (request_path +:+ "-" +:+ Py.str_of_int expire_at +:+ "-"
                   +:+ Py.str_of_int nonce +:+ "-" +:+ uid +:+ "-" +:+ secret_key) in
  let auth_key :=
    Py.str_of_int expire_at +:+ "-" +:+ Py.str_of_int nonce +:+ "-" +:+ uid
    +:+ "-" +:+ signature in
  let w' := set_rand_draws (S (rand_draws w)) (set_clock_reads (S (clock_reads w)) w) in
  0 <= nonce <= 2 ^ 31 - 1
  /\ (format_int (max_str_digits E) expire_at = Ok (Py.str_of_int expire_at) ->
      _generate_auth_url E self path w
      = (w', Done (normalized_domain domain +:+ request_path +:+ "?auth_key="
                   +:+ auth_key)))
  /\ (forall e,
        format_int (max_str_digits E) expire_at = Raise e ->
        _generate_auth_url E self path w
        = (set_log (log w' ++ [{| message := "【直链生成】生成直链过程中发生错误";
                                  cause := Some e |}]) w',
           Throw e))
  /\ (Urllib.contains "%" uid = false ->
      request_path = "/" +:+ uid +:+ "/" +:+ Urllib.unquote path).
Proof.
  intros Hu Hu' Hk Hk' Hd Hd'. cbv zeta. split; [|split; [|split]].
  - apply randint_range. lia.
  - intros Hf.
    rewrite (generate_auth_url_done E self path w uid secret_key domain)
      by assumption.
    unfold auth_url, normalized_domain. rewrite append_assoc. reflexivity.
  - intros e Hf. unfold _generate_auth_url.
    rewrite Hu, Hk, Hd, !falsy_opt_some by assumption.
    cbn [orb]. unfold try_except, bind, now, draw.
    cbn [rand_draws clock_reads set_clock_reads set_rand_draws].
    rewrite Hf. reflexivity.
  - intros Hp.
    replace ("/" +:+ uid +:+ "/" +:+ path) with (("/" +:+ uid +:+ "/") +:+ path)
      by (rewrite !append_assoc; reflexivity).
    rewrite unquote_app.
    + rewrite !append_assoc. reflexivity.
    + rewrite !contains_app, Hp. reflexivity.
Qed.

Lemma generate_auth_url_form_witness :
  _generate_auth_url Example.E Example.self "media/movies/A.mkv" Example.empty_world
  = (set_rand_draws 1 (set_clock_reads 1 Example.empty_world),
     Done ("https://vip.123pan.cn" +:+ "/1815/media/movies/A.mkv" +:+ "?auth_key="
           +:+ "1600-12345-1815-ef27e655d324354ba16676aeaa39898f")).
Proof.
  apply (proj1 (proj2 (generate_auth_url_form Example.E Example.self
                         "media/movies/A.mkv" Example.empty_world
                         "1815" "secret" "https://vip.123pan.cn"
                         eq_refl ltac:(discriminate) eq_refl ltac:(discriminate)
                         eq_refl ltac:(discriminate)))).
  reflexivity.
Defined.

(** Under a digit limit of 640, an [expire_time] of 641 digits makes the
    signer raise, after one error record. *)
Example generate_auth_url_over_the_limit :
  let '(w', r) :=
    _generate_auth_url Example.E_strict
      (Example.with_expire_time (10 ^ 640) Example.self)
      "media/movies/A.mkv" Example.empty_world in
  r = Throw digit_limit_error
  /\ log w' = [{| message := "【直链生成】生成直链过程中发生错误";
                  cause := Some digit_limit_error |}].
Proof. vm_compute. split; reflexivity. Qed.

(** C1 as stated fails on the domain and on the uid: a configured domain
    without scheme or with a trailing slash is not what the link starts
    with, and a percent escape in the uid is decoded with the path. *)
Lemma signed_url_differs_from_spec :
  (exists url,
      snd (_generate_auth_url Example.E
             (Example.with_uid_domain "1815" "vip.123pan.cn/" Example.self)
             "media/A.mkv" Example.empty_world) = Done url
      /\ url <> spec_signed_url "1815" "secret" "vip.123pan.cn/" 10 1000 12345
                  "media/A.mkv")
  /\ (exists url,
        snd (_generate_auth_url Example.E
               (Example.with_uid_domain "%31" "https://vip.123pan.cn" Example.self)
               "media/A.mkv" Example.empty_world) = Done url
        /\ url <> spec_signed_url "%31" "secret" "https://vip.123pan.cn" 10 1000 12345
                    "media/A.mkv").
Proof.
  split; eexists; (split; [vm_compute; reflexivity|]); vm_compute; discriminate.
Qed.

(** ** The breadth-first traversal *)

(** *** Trees *)

Lemma rtree_forall_ind (P : rtree -> Prop) :
  (forall m, P (RFile m)) ->
  (forall m cs, Forall P cs -> P (RDir m cs)) ->
  forall t, P t.
Proof.
  intros Hf Hd. fix IH 1. intros [m|m cs]; [apply Hf|].
  apply Hd. induction cs as [|c cs IHcs]; constructor; [apply IH | exact IHcs].
Qed.

Lemma find_dir_dir pid m cs :
  find_dir pid (RDir m cs) = if m_id m =? pid then Some cs else find_in pid cs.
Proof.
  simpl. destruct (m_id m =? pid); [reflexivity|].
  induction cs as [|c cs IH]; [reflexivity|].
  simpl. destruct (find_dir pid c); [reflexivity | exact IH].
Qed.

Lemma find_in_ids pid l cs :
  Forall (fun c => forall r, find_dir pid c = Some r -> In pid (dir_ids c)) l ->
  find_in pid l = Some cs -> In pid (flat_map dir_ids l).
Proof.
  induction 1 as [|c l Hc _ IH]; simpl; [discriminate|].
  intros H. apply in_or_app. destruct (find_dir pid c) as [r|] eqn:Hf.
  - left. eapply Hc. reflexivity.
  - right. apply IH. exact H.
Qed.

(** An id that is found is an id of the tree. *)
Lemma find_dir_ids pid t : forall cs, find_dir pid t = Some cs -> In pid (dir_ids t).
Proof.
  induction t as [m|m l IH] using rtree_forall_ind; intros cs H; [discriminate|].
  rewrite find_dir_dir in H. simpl.
  destruct (Z.eqb_spec (m_id m) pid) as [->|Hne]; [left; reflexivity|].
  right. eapply find_in_ids; eassumption.
Qed.

Lemma occurs_ids m cs t : occurs (RDir m cs) t -> In (m_id m) (dir_ids t).
Proof.
  induction 1 as [|m' cs' c Hin _ IH]; simpl; [left; reflexivity|].
  right. apply in_flat_map. exists c. split; assumption.
Qed.

Lemma occurs_trans a b c : occurs a b -> occurs b c -> occurs a c.
Proof.
  intros Hab Hbc. induction Hbc as [|m cs c' Hin _ IH]; [exact Hab|].
  eapply occurs_below; [exact Hin | exact IH].
Qed.

Lemma NoDup_app_l {A} (l1 l2 : list A) : List.NoDup (l1 ++ l2) -> List.NoDup l1.
Proof.
  induction l1 as [|x l1 IH]; intros H; [constructor|].
  inversion H as [|? ? Hx Hrest]; subst. constructor.
  - intros Hin. apply Hx. apply in_or_app. left. exact Hin.
  - apply IH. exact Hrest.
Qed.

Lemma NoDup_app_r {A} (l1 l2 : list A) : List.NoDup (l1 ++ l2) -> List.NoDup l2.
Proof.
  induction l1 as [|x l1 IH]; intros H; [exact H|].
  inversion H; subst. apply IH. assumption.
Qed.

Lemma NoDup_app_disjoint {A} (l1 l2 : list A) x :
  List.NoDup (l1 ++ l2) -> In x l1 -> In x l2 -> False.
Proof.
  induction l1 as [|y l1 IH]; intros H H1 H2; [contradiction|].
  inversion H as [|? ? Hy Hrest]; subst. destruct H1 as [->|H1].
  - apply Hy. apply in_or_app. right. exact H2.
  - apply (IH Hrest H1 H2).
Qed.

Lemma find_in_occurs m cs l :
  Forall (fun c => List.NoDup (dir_ids c) -> occurs (RDir m cs) c ->
                   find_dir (m_id m) c = Some cs) l ->
  List.NoDup (flat_map dir_ids l) ->
  forall c, In c l -> occurs (RDir m cs) c -> find_in (m_id m) l = Some cs.
Proof.
  induction 1 as [|c0 l Hc0 _ IH]; intros Hnd c Hin Hocc; [contradiction|].
  simpl in Hnd. simpl. destruct Hin as [->|Hin].
  - rewrite Hc0; [reflexivity | eapply NoDup_app_l; exact Hnd | exact Hocc].
  - destruct (find_dir (m_id m) c0) as [r|] eqn:Hf.
    + exfalso. apply (NoDup_app_disjoint _ _ (m_id m) Hnd).
      * eapply find_dir_ids. exact Hf.
      * apply in_flat_map. exists c. split; [exact Hin|]. apply occurs_ids with cs. exact Hocc.
    + apply (IH (NoDup_app_r _ _ Hnd) c Hin Hocc).
Qed.

(** With distinct directory ids, the search by id finds each directory
    of the tree. *)
Lemma find_dir_occurs m cs t :
  List.NoDup (dir_ids t) -> occurs (RDir m cs) t -> find_dir (m_id m) t = Some cs.
Proof.
  induction t as [m0|m0 l IH] using rtree_forall_ind; intros Hnd Hocc.
  - inversion Hocc.
  - rewrite find_dir_dir. simpl in Hnd. inversion Hnd as [|? ? Hm0 Hrest]; subst.
    inversion Hocc as [Heq | m' cs' c Hin Hc Heq]; subst.
    + rewrite Z.eqb_refl. reflexivity.
    + destruct (Z.eqb_spec (m_id m0) (m_id m)) as [Heq|Hne].
      * exfalso. apply Hm0. rewrite Heq. apply in_flat_map. exists c.
        split; [exact Hin|]. apply occurs_ids with cs. exact Hc.
      * eapply find_in_occurs; eassumption.
Qed.

(** *** One directory *)

Lemma queue_of_app F G : queue_of (F ++ G) = queue_of F ++ queue_of G.
Proof. unfold queue_of. apply map_app. Qed.

Lemma for_items_app only_file pid path l1 l2 :
  for_items only_file pid path (l1 ++ l2)
  = (fst (for_items only_file pid path l1)
       ++ fst (for_items only_file pid path l2),
     snd (for_items only_file pid path l1)
       ++ snd (for_items only_file pid path l2)).
Proof.
  induction l1 as [|it l1 IH]; simpl.
  - destruct (for_items only_file pid path l2). reflexivity.
  - rewrite IH.
    destruct (for_items only_file pid path l1) as [q1 y1].
    destruct (for_items only_file pid path l2) as [q2 y2].
    simpl. rewrite <- !app_assoc. reflexivity.
Qed.

Lemma item_is_dir_of t :
  item_is_dir (item_of t) = match t with RFile _ => false | RDir _ _ => true end.
Proof. destruct t; reflexivity. Qed.

(** What the body of the loop over the items appends and yields for the
    children of a directory. *)
Lemma for_items_children only_file pid path cs :
  for_items only_file pid path (map item_of cs)
  = (queue_of (subdirs (pid, path, cs)),
     List.filter (passes only_file) (entries_of (pid, path, cs))).
Proof.
  induction cs as [|c cs IH]; [reflexivity|].
  simpl map. cbn [for_items]. rewrite IH.
  destruct c as [m|m cs']; destruct only_file; reflexivity.
Qed.

Lemma yields_app l1 l2 : yields (l1 ++ l2) = yields l1 ++ yields l2.
Proof.
  induction l1 as [|[p|e] l1 IH]; simpl; [reflexivity | exact IH |].
  rewrite IH. reflexivity.
Qed.

Lemma yields_map_Yield ys : yields (map Yield ys) = ys.
Proof. induction ys as [|y ys IH]; simpl; [reflexivity|]. rewrite IH. reflexivity. Qed.

Lemma requests_app l1 l2 : requests (l1 ++ l2) = requests l1 ++ requests l2.
Proof.
  induction l1 as [|[p|e] l1 IH]; simpl; [reflexivity | | exact IH].
  rewrite IH. reflexivity.
Qed.

Lemma requests_map_Yield ys : requests (map Yield ys) = [].
Proof. induction ys as [|y ys IH]; simpl; [reflexivity | exact IH]. Qed.

Lemma asked_page_app page l1 l2 :
  asked_page page (l1 ++ l2) = asked_page page l1 ++ asked_page page l2.
Proof. unfold asked_page. rewrite List.filter_app, map_app. reflexivity. Qed.

Lemma take_nil_inv {A} (l : list A) : take 100 l = [] -> l = [].
Proof. destruct l; [reflexivity|discriminate]. Qed.

Lemma asked_page_one page0 page pid nxt :
  asked_page page0
    [{| limit := 100; next := nxt; Page := Some page; parentFileId := pid;
        inDirectSpace := "false" |}]
  = if bool_decide (page0 = page) then [pid] else [].
Proof.
  unfold asked_page. cbn [List.filter Page].
  destruct (bool_decide_reflect (page0 = page)) as [->|Hne].
  - rewrite bool_decide_eq_true_2 by reflexivity. reflexivity.
  - rewrite bool_decide_eq_false_2 by congruence. reflexivity.
Qed.

(** The pages of a directory the drive holds: the loop over them goes
    through all its children, in order, asking each page once. *)
Lemma page_loop_serve t only_file pid path cs :
  find_dir pid t = Some cs ->
  forall fuel off page queue,
    (length cs - off < 100 * fuel)%nat ->
    exists evs,
      page_loop (serve t) only_file fuel pid path page (PInt (Z.of_nat off)) queue
      = (queue ++ fst (for_items only_file pid path (drop off (map item_of cs))),
         {| events := evs; ending_of := Exhausted |})
      /\ yields evs
         = snd (for_items only_file pid path (drop off (map item_of cs)))
      /\ (forall page0, page0 <= page ->
          asked_page page0 (requests evs)
          = if bool_decide (page0 = page) then [pid] else []).
Proof.
  intros Hfind. induction fuel as [|fuel IH]; intros off page queue Hfuel; [lia|].
  cbn [page_loop]. cbn [fs_list serve]. unfold serve_list.
  cbn [parentFileId next limit]. rewrite Hfind. cbn [offset_of].
  rewrite Nat2Z.id. change (Z.to_nat 100) with 100%nat. cbn [InfoList Next].
  set (items := map item_of cs). set (rest := drop off items).
  assert (Hlen : length items = length cs) by (subst items; apply length_map).
  destruct (take 100 rest) as [|it pg] eqn:Hpg.
  - apply take_nil_inv in Hpg. rewrite Hpg. simpl for_items. cbn [fst snd].
    rewrite app_nil_r. eexists. split; [reflexivity|]. split; [reflexivity|].
    intros page0 _. cbn [requests]. apply asked_page_one.
  - assert (Hsplit : rest = (it :: pg) ++ drop 100 rest).
    { rewrite <- Hpg. symmetry. apply take_drop. }
    destruct (for_items only_file pid path (it :: pg)) as [q ys] eqn:Hfor.
    rewrite Hlen.
    destruct (Nat.ltb_spec (off + 100) (length cs)) as [Hlt|Hge].
    + rewrite bool_decide_eq_false_2 by discriminate.
      destruct (IH (off + 100)%nat (page + 1) (queue ++ q)) as (evs & Hloop & Hys & Hreq);
        [lia|].
      rewrite Hloop. eexists. split; [|split].
      * f_equal. rewrite <- app_assoc. f_equal.
        rewrite Hsplit at 1. rewrite for_items_app, Hfor. cbn [fst].
        subst rest. rewrite drop_drop. reflexivity.
      * cbn [yields events]. rewrite yields_app, yields_map_Yield, Hys.
        rewrite (Hsplit) at 1. rewrite for_items_app, Hfor. cbn [snd].
        subst rest. rewrite drop_drop. reflexivity.
      * intros page0 Hp0. cbn [events requests].
        rewrite requests_app, requests_map_Yield. cbn [app].
        change (?p :: requests evs) with ([p] ++ requests evs).
        rewrite asked_page_app, asked_page_one, (Hreq page0) by lia.
        rewrite (bool_decide_eq_false_2 (page0 = page + 1)) by lia.
        apply app_nil_r.
    + rewrite bool_decide_eq_true_2 by reflexivity.
      assert (Hd : drop 100 rest = []).
      { subst rest. rewrite drop_drop. apply drop_ge. lia. }
      rewrite Hd, app_nil_r in Hsplit. rewrite Hsplit, Hfor.
      eexists. split; [reflexivity|]. split.
      * cbn [yields events]. apply yields_map_Yield.
      * intros page0 _. cbn [events requests]. rewrite requests_map_Yield.
        apply asked_page_one.
Qed.

(** *** The queue *)

Lemma runs_to_nil client only_file : runs_to client only_file [] [] [].
Proof.
  exists 1%nat. intros fuel H. destruct fuel as [|fuel]; [lia|]. repeat split.
Qed.

(** One turn of the outer loop on a directory the drive holds. *)
Lemma runs_to_step t only_file pid path cs q ys ds :
  find_dir pid t = Some cs ->
  runs_to (serve t) only_file (q ++ queue_of (subdirs (pid, path, cs))) ys ds ->
  runs_to (serve t) only_file ((pid, path) :: q)
    (List.filter (passes only_file) (entries_of (pid, path, cs)) ++ ys) (pid :: ds).
Proof.
  intros Hfind [fuel0 Hrun].
  exists (S (Nat.max fuel0 (S (length cs)))). intros fuel Hfuel.
  destruct fuel as [|fuel]; [lia|].
  destruct (page_loop_serve t only_file pid path cs Hfind fuel 0 1 q)
    as (evs & Hloop & Hys & Hreq); [lia|].
  change (PInt (Z.of_nat 0)) with (PInt 0) in Hloop.
  rewrite drop_0, for_items_children in Hloop, Hys. cbn [fst snd] in Hloop, Hys.
  destruct (Hrun fuel) as (Hy & Hd & He); [lia|].
  cbn [queue_loop]. rewrite Hloop. cbn [ending_of events].
  unfold yielded, listed_dirs, sent in *. cbn [events ending_of].
  rewrite yields_app, requests_app, asked_page_app, Hys, Hy, Hd, He.
  rewrite (Hreq 1) by lia. rewrite bool_decide_eq_true_2 by reflexivity.
  repeat split.
Qed.

Lemma in_tree_find t F :
  List.NoDup (dir_ids t) -> in_tree t F ->
  Forall (fun d : dir => find_dir (fst (fst d)) t = Some (snd d)) F.
Proof.
  intros Hnd H. eapply Forall_impl; [exact H|].
  intros [[pid path] cs] (m & Hm & Hocc). simpl in *. subst pid.
  apply find_dir_occurs; assumption.
Qed.

Lemma in_tree_subdirs t d :
  (exists m, m_id m = fst (fst d) /\ occurs (RDir m (snd d)) t) ->
  in_tree t (subdirs d).
Proof.
  destruct d as [[pid path] cs]. intros (m & _ & Hocc). simpl in Hocc.
  unfold in_tree, subdirs. apply Forall_forall. intros d Hd.
  apply list_elem_of_In in Hd. apply in_flat_map in Hd as (c & Hc & Hd).
  destruct c as [mc|mc cs']; [contradiction|]. destruct Hd as [<-|[]].
  exists mc. split; [reflexivity|]. simpl.
  eapply occurs_trans; [|exact Hocc].
  eapply occurs_below; [exact Hc | constructor].
Qed.

Lemma in_tree_next t F : in_tree t F -> in_tree t (next_dirs F).
Proof.
  unfold in_tree, next_dirs. induction 1 as [|d F Hd _ IH]; simpl; [constructor|].
  apply Forall_app. split; [apply in_tree_subdirs; exact Hd | exact IH].
Qed.

(** A stretch of the queue: the directories of [F] are served one after
    the other, their sub-directories joining the queue behind what was
    there. *)
Lemma runs_to_stretch t only_file F :
  Forall (fun d : dir => find_dir (fst (fst d)) t = Some (snd d)) F ->
  forall q ys ds,
    runs_to (serve t) only_file (q ++ queue_of (next_dirs F)) ys ds ->
    runs_to (serve t) only_file (queue_of F ++ q)
      (children_entries only_file F ++ ys) (map fst (queue_of F) ++ ds).
Proof.
  induction 1 as [|[[pid path] cs] F Hd _ IH]; intros q ys ds Hrun.
  - simpl in *. rewrite app_nil_r in Hrun. exact Hrun.
  - simpl in Hd. cbn [queue_of map fst snd app children_entries flat_map].
    rewrite <- app_assoc. apply runs_to_step; [exact Hd|].
    rewrite <- app_assoc. apply IH.
    unfold next_dirs in *. cbn [flat_map] in Hrun. unfold queue_of in *.
    rewrite map_app in Hrun. rewrite <- app_assoc. exact Hrun.
Qed.

(** *** Levels *)

Lemma flat_map_flat_map {A B C} (f : A -> list B) (g : B -> list C) l :
  flat_map g (flat_map f l) = flat_map (fun x => flat_map g (f x)) l.
Proof.
  induction l as [|x l IH]; simpl; [reflexivity|].
  rewrite flat_map_app, IH. reflexivity.
Qed.

Lemma level_next n F : flat_map (level (S n)) F = flat_map (level n) (next_dirs F).
Proof. unfold next_dirs. rewrite flat_map_flat_map. reflexivity. Qed.

Lemma filter_flat_map {A B} (p : B -> bool) (f : A -> list B) l :
  List.filter p (flat_map f l) = flat_map (fun x => List.filter p (f x)) l.
Proof.
  induction l as [|x l IH]; simpl; [reflexivity|].
  rewrite List.filter_app, IH. reflexivity.
Qed.

Lemma flat_map_seq_S {A} (f : nat -> list A) H :
  flat_map f (seq 0 (S H)) = f 0%nat ++ flat_map (fun n => f (S n)) (seq 0 H).
Proof.
  cbn [seq flat_map]. f_equal. rewrite <- seq_shift, flat_map_concat_map, map_map.
  rewrite <- flat_map_concat_map. reflexivity.
Qed.

Lemma height_dir m cs : height (RDir m cs) = S (forest_height cs).
Proof. reflexivity. Qed.

Lemma dirs_height_app F G :
  dirs_height (F ++ G) = Nat.max (dirs_height F) (dirs_height G).
Proof.
  induction F as [|d F IH]; simpl; [reflexivity|]. rewrite IH. lia.
Qed.

Lemma subdirs_height d : (dirs_height (subdirs d) <= forest_height (snd d))%nat.
Proof.
  destruct d as [[pid path] cs]. simpl. induction cs as [|c cs IH]; simpl; [lia|].
  rewrite dirs_height_app. destruct c as [m|m cs']; simpl.
  - lia.
  - unfold dir_height. simpl. fold (forest_height cs'). lia.
Qed.

Lemma next_dirs_height F : (dirs_height (next_dirs F) <= Nat.pred (dirs_height F))%nat.
Proof.
  induction F as [|d F IH]; simpl; [lia|].
  unfold next_dirs in *. simpl. rewrite dirs_height_app.
  pose proof (subdirs_height d). unfold dir_height. lia.
Qed.

Lemma dirs_height_0 F : dirs_height F = 0%nat -> F = [].
Proof. destruct F as [|d F]; [reflexivity|]. simpl. unfold dir_height. lia. Qed.

(** The ids of the sub-directories are the ids of the entries that are
    directories. *)
Lemma subdirs_ids d :
  map fst (queue_of (subdirs d)) = map id (List.filter is_dir (entries_of d)).
Proof.
  destruct d as [[pid path] cs]. unfold subdirs, entries_of.
  induction cs as [|c cs IH]; [reflexivity|].
  cbn [flat_map map]. rewrite queue_of_app, map_app, IH.
  destruct c as [m|m cs']; reflexivity.
Qed.

Lemma next_dirs_ids F :
  map fst (queue_of (next_dirs F))
  = map id (List.filter is_dir (flat_map (level 0) F)).
Proof.
  unfold next_dirs. induction F as [|d F IH]; [reflexivity|].
  cbn [flat_map]. rewrite queue_of_app, List.filter_app, !map_app, IH, subdirs_ids.
  reflexivity.
Qed.

(** The queue loop on directories of the tree yields their levels one
    after the other, and lists, after those directories, every
    directory of these levels. *)
Lemma runs_to_levels t only_file :
  List.NoDup (dir_ids t) ->
  forall H F,
    (dirs_height F <= H)%nat -> in_tree t F ->
    runs_to (serve t) only_file (queue_of F)
      (List.filter (passes only_file)
         (flat_map (fun n => flat_map (level n) F) (seq 0 H)))
      (map fst (queue_of F)
       ++ map id (List.filter is_dir
                    (flat_map (fun n => flat_map (level n) F) (seq 0 H)))).
Proof.
  intros Hnd. induction H as [|H IH]; intros F HF Hin.
  - assert (F = []) as -> by (apply dirs_height_0; lia). apply runs_to_nil.
  - rewrite flat_map_seq_S, !List.filter_app, map_app.
    replace (flat_map (fun n => flat_map (level (S n)) F) (seq 0 H))
      with (flat_map (fun n => flat_map (level n) (next_dirs F)) (seq 0 H)).
    2:{ apply flat_map_ext. intros n. symmetry. apply level_next. }
    replace (List.filter (passes only_file) (flat_map (level 0) F))
      with (children_entries only_file F).
    2:{ unfold children_entries. rewrite filter_flat_map. reflexivity. }
    rewrite <- next_dirs_ids.
    rewrite <- (app_nil_r (queue_of F)) at 1.
    apply runs_to_stretch; [apply in_tree_find; assumption|].
    simpl. apply IH; [|apply in_tree_next; exact Hin].
    pose proof (next_dirs_height F). lia.
Qed.

(** *** Every node once *)

Lemma path_of_names_snoc above n :
  path_of_names (above ++ [n]) = item_path (path_of_names above) n.
Proof. unfold path_of_names. rewrite fold_left_app. reflexivity. Qed.

Lemma make_entry_spec pid above it :
  make_entry pid (path_of_names above) it = spec_entry pid (above ++ [FileName it]) it.
Proof. unfold make_entry, spec_entry. rewrite path_of_names_snoc. reflexivity. Qed.

Lemma entries_of_named pid above cs :
  entries_of (to_dir (pid, above, cs))
  = map (fun c => spec_entry pid (above ++ [m_name (meta_of c)]) (item_of c)) cs.
Proof.
  unfold to_dir, entries_of. cbn [fst snd]. apply map_ext. intros c.
  apply make_entry_spec.
Qed.

Lemma subdirs_named d : subdirs (to_dir d) = map to_dir (named_subdirs d).
Proof.
  destruct d as [[pid above] cs]. unfold to_dir, subdirs, named_subdirs. cbn [fst snd].
  induction cs as [|c cs IH]; [reflexivity|].
  cbn [flat_map]. rewrite map_app, IH. f_equal.
  destruct c as [m|m cs']; [reflexivity|].
  cbn [map fst snd]. rewrite path_of_names_snoc. reflexivity.
Qed.

Lemma walk_dir_unfold d :
  Permutation (walk_dir d)
    (entries_of (to_dir d) ++ flat_map walk_dir (named_subdirs d)).
Proof.
  destruct d as [[pid above] cs]. rewrite entries_of_named.
  unfold walk_dir, named_subdirs. cbn [fst snd].
  induction cs as [|c cs IH]; [reflexivity|].
  cbn [flat_map map]. rewrite flat_map_app.
  destruct c as [m|m cs'].
  - cbn [walk_names flat_map app]. apply perm_skip. exact IH.
  - cbn [walk_names flat_map app meta_of]. rewrite app_nil_r.
    apply perm_skip. rewrite IH. cbn [fst snd].
    apply Permutation_app_swap_app.
Qed.

Lemma flat_map_nil {A B} (l : list A) : flat_map (fun _ => @nil B) l = [].
Proof. induction l; simpl; auto. Qed.

Lemma flat_map_app_perm {A B} (g h : A -> list B) l :
  Permutation (flat_map (fun x => g x ++ h x) l) (flat_map g l ++ flat_map h l).
Proof.
  induction l as [|x l IH]; simpl; [reflexivity|].
  rewrite IH, <- !app_assoc. apply Permutation_app_head.
  apply Permutation_app_swap_app.
Qed.

Lemma flat_map_swap {A B C} (f : A -> B -> list C) (la : list A) (lb : list B) :
  Permutation (flat_map (fun a => flat_map (f a) lb) la)
    (flat_map (fun b => flat_map (fun a => f a b) la) lb).
Proof.
  induction la as [|a la IH]; simpl.
  - rewrite flat_map_nil. reflexivity.
  - rewrite IH. symmetry. apply flat_map_app_perm.
Qed.

Lemma flat_map_perm {A B} (f g : A -> list B) l :
  (forall x, In x l -> Permutation (f x) (g x)) ->
  Permutation (flat_map f l) (flat_map g l).
Proof.
  induction l as [|x l IH]; intros H; simpl; [reflexivity|].
  apply Permutation_app; [apply H; left; reflexivity|].
  apply IH. intros y Hy. apply H. right. exact Hy.
Qed.

Lemma dirs_height_in d F : In d F -> (dir_height d <= dirs_height F)%nat.
Proof.
  induction F as [|d' F IH]; intros Hin; [contradiction|].
  simpl. destruct Hin as [->|Hin]; [lia|]. specialize (IH Hin). lia.
Qed.

(** The levels of a directory, put one after the other, hold every node
    below it once. *)
Lemma levels_walk : forall H d,
  (dir_height (to_dir d) <= H)%nat ->
  Permutation (flat_map (fun n => level n (to_dir d)) (seq 0 H)) (walk_dir d).
Proof.
  induction H as [|H IH]; intros d Hd; [unfold dir_height in Hd; lia|].
  rewrite flat_map_seq_S, walk_dir_unfold. cbn [level].
  apply Permutation_app_head.
  rewrite subdirs_named.
  transitivity (flat_map (fun n => flat_map (fun s => level n (to_dir s)) (named_subdirs d))
                  (seq 0 H)).
  { apply Permutation_refl'. apply flat_map_ext. intros n.
    rewrite flat_map_concat_map, map_map, <- flat_map_concat_map. reflexivity. }
  rewrite flat_map_swap. apply flat_map_perm. intros s Hs. apply IH.
  assert (Hin : In (to_dir s) (subdirs (to_dir d))).
  { rewrite subdirs_named. apply in_map. exact Hs. }
  pose proof (dirs_height_in _ _ Hin). pose proof (subdirs_height (to_dir d)).
  unfold dir_height in Hd. lia.
Qed.

Lemma level_order_all_nodes m cs :
  Permutation (level_order (RDir m cs)) (all_nodes (RDir m cs)).
Proof.
  unfold level_order, all_nodes, root_dir. cbn [meta_of children_of].
  change (m_id m, "", cs) with (to_dir (m_id m, [], cs)).
  change (flat_map (walk_names (m_id m) []) cs) with (walk_dir (m_id m, [], cs)).
  apply levels_walk. rewrite height_dir. unfold dir_height. cbn [snd to_dir]. lia.
Qed.

Lemma filter_passes_all (l : list entry) : List.filter (passes false) l = l.
Proof.
  induction l as [|e l IH]; simpl; [reflexivity|].
  unfold passes at 1. rewrite andb_false_r. simpl. rewrite IH. reflexivity.
Qed.

Lemma filter_passes_files (l : list entry) :
  List.filter (passes true) l = List.filter (fun e => negb (is_dir e)) l.
Proof.
  apply List.filter_ext. intros e. unfold passes. rewrite andb_true_r. reflexivity.
Qed.

(** *** Fuel *)

(** More fuel does not change a run that ended. *)
Lemma page_loop_mono client only_file : forall fuel pid path page nxt q,
  ending_of (snd (page_loop client only_file fuel pid path page nxt q)) <> OutOfFuel ->
  forall fuel', (fuel <= fuel')%nat ->
    page_loop client only_file fuel' pid path page nxt q
    = page_loop client only_file fuel pid path page nxt q.
Proof.
  induction fuel as [|fuel IH]; intros pid path page nxt q Hend fuel' Hle.
  - simpl in Hend. contradiction.
  - destruct fuel' as [|fuel']; [lia|]. cbn [page_loop] in *.
    destruct (fs_list client _) as [resp|e]; [|reflexivity].
    destruct (InfoList resp) as [|it l]; [reflexivity|].
    destruct (for_items only_file pid path (it :: l)) as [q1 ys].
    destruct (bool_decide (Next resp = PStr "-1")); [reflexivity|].
    specialize (IH pid path (page + 1) (Next resp) (q ++ q1)).
    destruct (page_loop client only_file fuel pid path (page + 1) (Next resp) (q ++ q1))
      as [q' r] eqn:Hr.
    simpl in Hend. rewrite (IH Hend fuel') by lia. reflexivity.
Qed.

Lemma queue_loop_mono client only_file : forall fuel q,
  ending_of (queue_loop client only_file fuel q) <> OutOfFuel ->
  forall fuel', (fuel <= fuel')%nat ->
    queue_loop client only_file fuel' q = queue_loop client only_file fuel q.
Proof.
  induction fuel as [|fuel IH]; intros q Hend fuel' Hle.
  - simpl in Hend. contradiction.
  - destruct fuel' as [|fuel']; [lia|]. cbn [queue_loop] in *.
    destruct q as [|[pid path] q]; [reflexivity|].
    pose proof (page_loop_mono client only_file fuel pid path 1 (PInt 0) q) as Hp.
    destruct (page_loop client only_file fuel pid path 1 (PInt 0) q) as [q' r] eqn:Hr.
    simpl in Hp.
    destruct (ending_of r) eqn:He.
    + rewrite (Hp ltac:(discriminate) fuel') by lia. rewrite He.
      simpl in Hend. rewrite (IH q' Hend fuel') by lia. reflexivity.
    + rewrite (Hp ltac:(discriminate) fuel') by lia. rewrite He. reflexivity.
    + exfalso. apply Hend. exact He.
Qed.

Lemma tree_size_pos t : (0 < tree_size t)%nat.
Proof. destruct t; simpl; lia. Qed.

Lemma forest_size_length cs : (length cs <= forest_size cs)%nat.
Proof.
  induction cs as [|c cs IH]; simpl; [lia|]. pose proof (tree_size_pos c). lia.
Qed.

Lemma dirs_size_app F G : dirs_size (F ++ G) = (dirs_size F + dirs_size G)%nat.
Proof. induction F as [|d F IH]; simpl; [reflexivity|]. rewrite IH. lia. Qed.

Lemma subdirs_size d : (dirs_size (subdirs d) <= forest_size (snd d))%nat.
Proof.
  destruct d as [[pid path] cs]. simpl. induction cs as [|c cs IH]; simpl; [lia|].
  rewrite dirs_size_app. destruct c as [m|m cs']; simpl.
  - lia.
  - fold (forest_size cs'). lia.
Qed.

(** On the drive of a tree, fuel above the number of nodes to go is
    enough for the queue loop to end. *)
Lemma queue_loop_ends t only_file :
  List.NoDup (dir_ids t) ->
  forall fuel F,
    in_tree t F -> (dirs_size F < fuel)%nat ->
    ending_of (queue_loop (serve t) only_file fuel (queue_of F)) = Exhausted.
Proof.
  intros Hnd. induction fuel as [|fuel IH]; intros F Hin Hfuel; [lia|].
  destruct F as [|[[pid path] cs] F]; [reflexivity|].
  cbn [queue_of map fst snd queue_loop].
  inversion Hin as [|? ? Hd HF]; subst.
  assert (Hfind : find_dir pid t = Some cs).
  { destruct Hd as (m & Hm & Hocc). simpl in *. subst pid.
    apply find_dir_occurs; assumption. }
  simpl in Hfuel. pose proof (forest_size_length cs) as Hlen.
  destruct (page_loop_serve t only_file pid path cs Hfind fuel 0 1 (queue_of F))
    as (evs & Hloop & _); [lia|].
  change (PInt (Z.of_nat 0)) with (PInt 0) in Hloop.
  rewrite drop_0, for_items_children in Hloop. cbn [fst] in Hloop.
  fold (queue_of F). rewrite Hloop. cbn [ending_of].
  rewrite <- queue_of_app. apply IH.
  - apply Forall_app. split; [exact HF | apply in_tree_subdirs; exact Hd].
  - rewrite dirs_size_app. pose proof (subdirs_size (pid, path, cs)). simpl in *. lia.
Qed.

Lemma find_in_sound pid l cs :
  Forall (fun c => forall r, find_dir pid c = Some r ->
                   exists m, m_id m = pid /\ occurs (RDir m r) c) l ->
  find_in pid l = Some cs ->
  exists c m, In c l /\ m_id m = pid /\ occurs (RDir m cs) c.
Proof.
  induction 1 as [|c l Hc _ IH]; simpl; [discriminate|].
  destruct (find_dir pid c) as [r|] eqn:Hf.
  - intros [= <-]. destruct (Hc r eq_refl) as (m & Hm & Hocc).
    exists c, m. auto.
  - intros H. destruct (IH H) as (c' & m & Hin & Hm & Hocc). exists c', m. auto.
Qed.

(** What the search by id finds is a directory of the tree. *)
Lemma find_dir_sound pid t : forall cs,
  find_dir pid t = Some cs -> exists m, m_id m = pid /\ occurs (RDir m cs) t.
Proof.
  induction t as [m0|m0 l IH] using rtree_forall_ind; intros cs H; [discriminate|].
  rewrite find_dir_dir in H.
  destruct (Z.eqb_spec (m_id m0) pid) as [Heq|Hne].
  - injection H as <-. exists m0. split; [exact Heq | constructor].
  - destruct (find_in_sound pid l cs IH H) as (c & m & Hin & Hm & Hocc).
    exists m. split; [exact Hm|]. eapply occurs_below; eassumption.
Qed.

Lemma forest_size_in c cs : In c cs -> (tree_size c <= forest_size cs)%nat.
Proof.
  induction cs as [|c' cs IH]; intros Hin; [contradiction|].
  simpl. destruct Hin as [->|Hin]; [lia|]. specialize (IH Hin). lia.
Qed.

Lemma occurs_size a t : occurs a t -> (tree_size a <= tree_size t)%nat.
Proof.
  induction 1 as [|m cs c Hin _ IH]; [lia|].
  simpl. fold (forest_size cs). pose proof (forest_size_in c cs Hin). lia.
Qed.

(** On the drive of a tree, a traversal from any id ends when the fuel
    is above the number of nodes of the tree. *)
Lemma iterdir_ends t only_file pid fuel :
  List.NoDup (dir_ids t) -> (tree_size t < fuel)%nat ->
  ending_of (iterdir (serve t) only_file fuel pid) = Exhausted.
Proof.
  intros Hnd Hfuel. unfold iterdir.
  destruct (find_dir pid t) as [cs|] eqn:Hfind.
  - destruct (find_dir_sound pid t cs Hfind) as (m & Hm & Hocc).
    change [(pid, "")] with (queue_of [(pid, "", cs)]).
    apply queue_loop_ends; [exact Hnd | |].
    + constructor; [|constructor]. exists m. auto.
    + pose proof (occurs_size _ _ Hocc) as Hs. simpl in *.
      fold (forest_size cs) in Hs. lia.
  - pose proof (tree_size_pos t).
    destruct fuel as [|[|fuel]]; [lia | lia |].
    cbn [queue_loop page_loop fs_list serve]. unfold serve_list.
    cbn [parentFileId]. rewrite Hfind. reflexivity.
Qed.

(** The directories among the nodes of a tree are those of its ids. *)
Lemma walk_names_dir_ids t : forall pid above,
  map id (List.filter is_dir (walk_names pid above t)) = dir_ids t.
Proof.
  induction t as [m0|m0 l IH] using rtree_forall_ind; intros pid above.
  - reflexivity.
  - assert (Hl : forall p a, map id (List.filter is_dir (flat_map (walk_names p a) l))
                             = flat_map dir_ids l).
    { intros p a. induction IH as [|c l Hc _ IHl]; [reflexivity|].
      cbn [flat_map]. rewrite List.filter_app, map_app, Hc, IHl. reflexivity. }
    cbn [walk_names dir_ids].
    change (List.filter is_dir (?e :: ?r)) with (e :: List.filter is_dir r).
    change (map id (?e :: ?r)) with (id e :: map id r).
    rewrite Hl. reflexivity.
Qed.

Lemma all_nodes_dir_ids m cs :
  m_id m :: map id (List.filter is_dir (all_nodes (RDir m cs))) = dir_ids (RDir m cs).
Proof.
  cbn [dir_ids]. f_equal. unfold all_nodes. cbn [children_of meta_of].
  induction cs as [|c cs IH]; [reflexivity|].
  cbn [flat_map]. rewrite List.filter_app, map_app, walk_names_dir_ids, IH.
  reflexivity.
Qed.

Lemma Permutation_filter {A} (p : A -> bool) l1 l2 :
  Permutation l1 l2 -> Permutation (List.filter p l1) (List.filter p l2).
Proof.
  induction 1 as [|x l1 l2 _ IH|x y l|l1 l2 l3 _ IH1 _ IH2]; simpl.
  - constructor.
  - destruct (p x); [constructor|]; exact IH.
  - destruct (p x), (p y); try reflexivity. constructor.
  - etransitivity; eassumption.
Qed.

(** C2. On the drive that holds a finite directory tree with distinct
    directory ids, the traversal started at the root with an empty path
    ends as soon as the fuel exceeds the number of nodes. What it yields
    is the level order of the tree - all of it when [only_file] is
    false, its files when [only_file] is true. Whatever [only_file] is,
    the directories it lists are the root and then the directories of
    the level order, which are the directories of the tree, each once.
    The level order holds every node below the root exactly once, each
    with the path of the names that lead to it, built with a slash
    between a non-empty path and the next name and none after an empty
    path; for non-empty names that is the names joined by slashes. *)
Theorem iterdir_breadth_first (m : meta) (cs : list rtree) (only_file : bool) :
  List.NoDup (dir_ids (RDir m cs)) ->
  (forall fuel, (tree_size (RDir m cs) < fuel)%nat ->
     ending_of (iterdir (serve (RDir m cs)) only_file fuel (m_id m)) = Exhausted
     /\ yielded (iterdir (serve (RDir m cs)) only_file fuel (m_id m))
        = (if only_file
           then List.filter (fun e => negb (is_dir e)) (level_order (RDir m cs))
           else level_order (RDir m cs))
     /\ listed_dirs (iterdir (serve (RDir m cs)) only_file fuel (m_id m))
        = m_id m :: map id (List.filter is_dir (level_order (RDir m cs))))
  /\ Permutation (m_id m :: map id (List.filter is_dir (level_order (RDir m cs))))
       (dir_ids (RDir m cs))
  /\ Permutation (level_order (RDir m cs)) (all_nodes (RDir m cs))
  /\ (forall names, Forall (fun n => n <> "") names ->
        path_of_names names = Py.join "/" names).
Proof.
  intros Hnd. split; [|split; [|split]].
  - intros fuel Hfuel.
    pose proof (iterdir_ends (RDir m cs) only_file (m_id m) fuel Hnd Hfuel) as Hend.
    split; [exact Hend|].
    destruct (runs_to_levels (RDir m cs) only_file Hnd (height (RDir m cs))
                [root_dir (RDir m cs)]) as [fuel0 Hrun].
    + simpl. unfold dir_height. simpl. fold (forest_height cs). lia.
    + constructor; [|constructor]. exists m. split; [reflexivity|]. constructor.
    + destruct (Hrun (Nat.max fuel0 fuel)) as (Hy & Hd & _); [lia|].
      cbn [queue_of map root_dir meta_of children_of fst snd app] in Hy, Hd.
      unfold iterdir in *.
      rewrite (queue_loop_mono (serve (RDir m cs)) only_file fuel [(m_id m, "")])
        in Hy, Hd by (rewrite ?Hend; first [discriminate | lia]).
      rewrite Hy, Hd.
      replace (flat_map (fun n => flat_map (level n) [root_dir (RDir m cs)])
                 (seq 0 (height (RDir m cs))))
        with (level_order (RDir m cs)).
      2:{ unfold level_order. apply flat_map_ext. intros n. simpl.
          rewrite app_nil_r. reflexivity. }
      split; [|reflexivity].
      destruct only_file; [apply filter_passes_files | apply filter_passes_all].
  - rewrite <- all_nodes_dir_ids. constructor. apply Permutation_map.
    apply Permutation_filter. apply level_order_all_nodes.
  - apply level_order_all_nodes.
  - apply path_of_names_join.
Qed.

Lemma iterdir_breadth_first_witness :
  (forall fuel, (tree_size Example.drive < fuel)%nat ->
     ending_of (iterdir (serve Example.drive) true fuel 0) = Exhausted
     /\ yielded (iterdir (serve Example.drive) true fuel 0)
        = List.filter (fun e => negb (is_dir e)) (level_order Example.drive)
     /\ listed_dirs (iterdir (serve Example.drive) true fuel 0)
        = 0 :: map id (List.filter is_dir (level_order Example.drive)))
  /\ Permutation (0 :: map id (List.filter is_dir (level_order Example.drive)))
       (dir_ids Example.drive)
  /\ Permutation (level_order Example.drive) (all_nodes Example.drive)
  /\ (forall names, Forall (fun n => n <> "") names ->
        path_of_names names = Py.join "/" names).
Proof.
  apply (iterdir_breadth_first (Example.node 0 "" 0) (children_of Example.drive) true).
  vm_compute. repeat constructor; simpl; intuition discriminate.
Defined.

(** The traversal of the example drive, directories included. *)
Example iterdir_on_example :
  map (fun e => (relpath e, is_dir e, parent_id e))
    (yielded (iterdir (serve Example.drive) false 10 0))
  = [("media", true, 0); ("top.txt", false, 0); ("media/movies", true, 1);
     ("media/movies/A.mkv", false, 2); ("media/movies/A.nfo", false, 2);
     ("media/movies/S1", true, 2); ("media/movies/S1/E1.MP4", false, 5)]
  /\ map relpath (yielded (iterdir (serve Example.drive) true 10 0))
     = ["top.txt"; "media/movies/A.mkv"; "media/movies/A.nfo"; "media/movies/S1/E1.MP4"]
  /\ ending_of (iterdir (serve Example.drive) false 10 0) = Exhausted
  /\ listed_dirs (iterdir (serve Example.drive) true 10 0) = [0; 1; 2; 5].
Proof. vm_compute. repeat split; reflexivity. Qed.

(** ** The passes return *)

Lemma ends_resolve_parts E parts : forall pid, ends (resolve_parts E parts pid).
Proof.
  induction parts as [|part rest IH]; intros pid; simpl; [apply ends_ret|].
  destruct (Py.falsy part); [apply IH|].
  apply ends_bind; [apply ends_fs_list|]. intros resp.
  destruct (find_dir_entry part (InfoList resp)); [apply IH | apply ends_throw].
Qed.

Lemma ends_for_run E self m media data local pan r :
  ending_of r <> OutOfFuel ->
  ends (for_run (sync_entry E self m media data local pan) r).
Proof.
  intros H w. unfold for_run. rewrite for_events_ending.
  - destruct (ending_of r); [discriminate | discriminate | contradiction].
  - intros x w0. apply sync_entry_done.
Qed.

Section FiniteDrive.

Variable t : rtree.
Variable E : env.
Variable fuel : nat.
Hypothesis E_serves : client E = serve t.
Hypothesis ids_distinct : List.NoDup (dir_ids t).
Hypothesis fuel_enough : (tree_size t < fuel)%nat.

Lemma ends_sync_pair self m media data path :
  ends (sync_pair E fuel self m media data path).
Proof.
  unfold sync_pair.
  destruct (Py.falsy (Unicode.strip path)); [apply ends_ret|].
  destruct (Py.split1 "#" path) as [|a [|b [|c l]]]; try apply ends_log.
  apply ends_bind; [apply ends_ensure_dir|]. intros _.
  apply ends_try; [|intros e; apply ends_log].
  unfold resolve_and_walk.
  destruct (Py.falsy (Py.strip_slash b)); [apply ends_log|].
  apply ends_bind; [apply ends_resolve_parts|]. intros pid.
  apply ends_for_run. rewrite E_serves, iterdir_ends by assumption. discriminate.
Qed.

Lemma ends_for_paths self m media data paths :
  ends (for_paths E fuel self m media data paths).
Proof.
  induction paths as [|path rest IH]; simpl; [apply ends_ret|].
  apply ends_bind; [apply ends_sync_pair|]. intros _. exact IH.
Qed.

Lemma ends_prepare self : ends (prepare E self).
Proof.
  unfold prepare, split_attr.
  destruct (_user_rmt_mediaext self); [|intros w; discriminate].
  destruct (_user_download_mediaext self); intros w; discriminate.
Qed.

Lemma ends_date_of x : ends (date_of E x).
Proof. unfold date_of. destruct (fromtimestamp E x); [apply ends_throw | apply ends_ret]. Qed.

Lemma ends_work self m : ends (work E fuel self m).
Proof.
  unfold work. apply ends_bind; [apply ends_prepare|]. intros exts. destruct m.
  - apply ends_bind; [apply ends_for_paths|]. intros _. apply ends_now.
  - apply ends_bind; [apply ends_date_of|]. intros _.
    apply ends_bind; [apply ends_now|]. intros x.
    apply ends_bind; [apply ends_for_paths|]. intros _. apply ends_ret.
Qed.

Lemma run_pass_returns self m w : snd (run_pass E fuel self m w) <> NoReturn.
Proof.
  unfold run_pass. pose proof (ends_work self m w) as Hw.
  destruct (work E fuel self m w) as [w1 [x|e|]]; cbn [snd] in Hw;
    [|discriminate|contradiction].
  pose proof (persist_ends E (set_last_sync_time self x) w1) as Hp.
  destruct (persist E (set_last_sync_time self x) w1) as [w2 [[]|e|]]; cbn [snd] in Hp;
    [discriminate|discriminate|contradiction].
Qed.

(** On the drive of a finite tree, with fuel above the number of its
    nodes, both passes return. *)
Lemma full_sync_returns self w :
  snd (full_sync_strm_files E fuel self w) <> NoReturn.
Proof.
  unfold full_sync_strm_files.
  destruct (guard Full self); [discriminate | apply run_pass_returns].
Qed.

Lemma incremental_sync_returns self w :
  snd (incremental_sync_files E fuel self w) <> NoReturn.
Proof.
  unfold incremental_sync_files.
  destruct (guard Incremental self); [discriminate|].
  destruct (_last_sync_time self =? 0); [|apply run_pass_returns].
  pose proof (full_sync_returns self w) as Hf.
  destruct (full_sync_strm_files E fuel self w) as [[p1 w1] [|b|]];
    simpl in *; [discriminate|discriminate|contradiction].
Qed.

End FiniteDrive.

(** ** The first incremental pass *)

(** C8. With [last_sync_time = 0] and the guards passed, the incremental
    pass is the full pass: the same plugin object and the same world
    after it, the local files among them, and it returns [None]
    whenever the full pass returns - which it does on the drive of a
    finite tree, with fuel above the number of its nodes. *)
Theorem incremental_first_run_is_full (E : env) (fuel : nat) (self : plugin) (w : world) :
  guard Incremental self = None ->
  _last_sync_time self = 0 ->
  fst (incremental_sync_files E fuel self w) = fst (full_sync_strm_files E fuel self w)
  /\ files (snd (fst (incremental_sync_files E fuel self w)))
     = files (snd (fst (full_sync_strm_files E fuel self w)))
  /\ snd (incremental_sync_files E fuel self w)
     = match snd (full_sync_strm_files E fuel self w) with
       | NoReturn => NoReturn
       | _ => ReturnNone
       end
  /\ (forall t, client E = serve t -> List.NoDup (dir_ids t) ->
      (tree_size t < fuel)%nat ->
      snd (incremental_sync_files E fuel self w) = ReturnNone).
Proof.
  intros Hg H0.
  assert (Heq : incremental_sync_files E fuel self w =
                match full_sync_strm_files E fuel self w with
                | (self', w', NoReturn) => (self', w', NoReturn)
                | (self', w', _) => (self', w', ReturnNone)
                end).
  { unfold incremental_sync_files at 1. rewrite Hg, H0. reflexivity. }
  assert (Hret : snd (incremental_sync_files E fuel self w)
                 = match snd (full_sync_strm_files E fuel self w) with
                   | NoReturn => NoReturn
                   | _ => ReturnNone
                   end).
  { rewrite Heq. destruct (full_sync_strm_files E fuel self w) as [[p1 w1] [|b|]];
      reflexivity. }
  split; [|split; [|split]].
  - rewrite Heq. destruct (full_sync_strm_files E fuel self w) as [[p1 w1] [|b|]];
      reflexivity.
  - rewrite Heq. destruct (full_sync_strm_files E fuel self w) as [[p1 w1] [|b|]];
      reflexivity.
  - exact Hret.
  - intros t HE Hnd Hfuel. rewrite Hret.
    pose proof (full_sync_returns t E fuel HE Hnd Hfuel self w) as Hf.
    destruct (snd (full_sync_strm_files E fuel self w)); [reflexivity..|contradiction].
Qed.

Lemma incremental_first_run_is_full_witness :
  fst (incremental_sync_files Example.E 10 Example.self Example.empty_world)
  = fst (full_sync_strm_files Example.E 10 Example.self Example.empty_world)
  /\ files (snd (fst (incremental_sync_files Example.E 10 Example.self Example.empty_world)))
     = files (snd (fst (full_sync_strm_files Example.E 10 Example.self Example.empty_world)))
  /\ snd (incremental_sync_files Example.E 10 Example.self Example.empty_world)
     = match snd (full_sync_strm_files Example.E 10 Example.self Example.empty_world) with
       | NoReturn => NoReturn
       | _ => ReturnNone
       end
  /\ (forall t, client Example.E = serve t -> List.NoDup (dir_ids t) ->
      (tree_size t < 10)%nat ->
      snd (incremental_sync_files Example.E 10 Example.self Example.empty_world)
      = ReturnNone).
Proof.
  apply (incremental_first_run_is_full Example.E 10 Example.self Example.empty_world);
    reflexivity.
Defined.

(** The first incremental pass on the example drive: the pointer files
    of a full pass, and [None] returned. *)
Example incremental_first_run_on_example :
  let '(self', w', r) :=
    incremental_sync_files Example.E 10 Example.self Example.empty_world in
  r = ReturnNone
  /\ _last_sync_time self' = 1002
  /\ map fst (map_to_list (files w'))
     = ["/local/movies/S1/E1.strm"; "/local/movies/S1"; "/local/movies/A.strm";
        "/local/movies"; "/local"].
Proof. vm_compute. auto. Qed.

(** * More of the plugin *)

(** ** What every run of [iterdir] keeps *)

Lemma for_items_files pid path l :
  Forall file_entry_of (snd (for_items true pid path l)).
Proof.
  induction l as [|it l IH]; simpl; [constructor|].
  destruct (for_items true pid path l) as [q2 y2]. unfold visit.
  destruct (item_is_dir it) eqn:Hd; simpl in *; [exact IH|].
  constructor; [|exact IH].
  unfold file_entry_of, make_entry. simpl. rewrite Hd. auto.
Qed.

Lemma Forall_yields_app (P : entry -> Prop) l1 l2 :
  Forall P (yields l1) -> Forall P (yields l2) -> Forall P (yields (l1 ++ l2)).
Proof. intros H1 H2. rewrite yields_app. apply Forall_app. auto. Qed.

Lemma page_loop_files client : forall fuel pid path page nxt q,
  Forall file_entry_of
    (yielded (snd (page_loop client true fuel pid path page nxt q))).
Proof.
  induction fuel as [|fuel IH]; intros pid path page nxt q; [constructor|].
  cbn [page_loop].
  destruct (fs_list client _) as [resp|e]; [|constructor].
  destruct (InfoList resp) as [|it l] eqn:Hl; [constructor|].
  pose proof (for_items_files pid path (it :: l)) as Hf.
  destruct (for_items true pid path (it :: l)) as [q1 ys]. cbn [snd] in Hf.
  destruct (bool_decide (Next resp = PStr "-1")).
  - unfold yielded. cbn [snd events yields]. rewrite yields_map_Yield. exact Hf.
  - specialize (IH pid path (page + 1) (Next resp) (q ++ q1)).
    destruct (page_loop client true fuel pid path (page + 1) (Next resp) (q ++ q1))
      as [q' r]. unfold yielded in *. cbn [snd events yields] in *.
    rewrite yields_app, yields_map_Yield. apply Forall_app. auto.
Qed.

Lemma queue_loop_files client : forall fuel queue,
  Forall file_entry_of (yielded (queue_loop client true fuel queue)).
Proof.
  induction fuel as [|fuel IH]; intros queue; [constructor|].
  cbn [queue_loop]. destruct queue as [|[pid path] queue]; [constructor|].
  pose proof (page_loop_files client fuel pid path 1 (PInt 0) queue) as Hp.
  destruct (page_loop client true fuel pid path 1 (PInt 0) queue) as [q' r].
  cbn [snd] in Hp.
  destruct (ending_of r); try exact Hp.
  unfold yielded in *. cbn [events]. apply Forall_yields_app; [exact Hp | apply IH].
Qed.

(** X1. Under [only_file], whatever the drive answers and however long the
    traversal runs, every entry yielded is a file, and carries the
    [size], [md5] and [uri] of its item. *)
Theorem iterdir_only_file_yields_files (client : P123Client) (fuel : nat) (pid : Z) :
  Forall file_entry_of (yielded (iterdir client true fuel pid)).
Proof. apply queue_loop_files. Qed.

Lemma forallb_requests_app (f : payload -> bool) l1 l2 :
  forallb f (requests (l1 ++ l2)) = forallb f (requests l1) && forallb f (requests l2).
Proof. rewrite requests_app. apply forallb_app. Qed.

Lemma page_loop_requests client only_file : forall fuel pid path page nxt q,
  1 <= page -> nxt <> PStr "-1" -> (page = 1 -> nxt = PInt 0) ->
  forallb paging_request
    (sent (snd (page_loop client only_file fuel pid path page nxt q))) = true.
Proof.
  induction fuel as [|fuel IH]; intros pid path page nxt q Hp Hn H1; [reflexivity|].
  cbn [page_loop].
  set (p := {| limit := 100; next := nxt; Page := Some page; parentFileId := pid;
               inDirectSpace := "false" |}).
  assert (Hreq : paging_request p = true).
  { unfold paging_request, p. cbn [limit inDirectSpace next Page].
    rewrite !bool_decide_eq_true_2 by reflexivity.
    rewrite (bool_decide_eq_false_2 _ Hn). cbn [andb negb].
    apply andb_true_iff. split; [apply Z.leb_le; exact Hp|].
    destruct (Z.eqb_spec page 1) as [Heq|Hne]; [|reflexivity].
    rewrite (bool_decide_eq_true_2 _ (H1 Heq)). reflexivity. }
  destruct (fs_list client p) as [resp|e].
  2:{ unfold sent. cbn [snd events requests forallb]. rewrite Hreq. reflexivity. }
  destruct (InfoList resp) as [|it l] eqn:Hl.
  { unfold sent. cbn [snd events requests forallb]. rewrite Hreq. reflexivity. }
  destruct (for_items only_file pid path (it :: l)) as [q1 ys].
  destruct (bool_decide_reflect (Next resp = PStr "-1")) as [Hend|Hgo].
  - unfold sent. cbn [snd events requests forallb].
    rewrite requests_map_Yield, Hreq. reflexivity.
  - specialize (IH pid path (page + 1) (Next resp) (q ++ q1)).
    destruct (page_loop client only_file fuel pid path (page + 1) (Next resp) (q ++ q1))
      as [q' r]. unfold sent in *. cbn [snd events requests forallb] in *.
    rewrite forallb_requests_app, requests_map_Yield, Hreq. cbn [forallb andb].
    apply IH; [lia | exact Hgo | lia].
Qed.

Lemma queue_loop_requests client only_file : forall fuel queue,
  forallb paging_request (sent (queue_loop client only_file fuel queue)) = true.
Proof.
  induction fuel as [|fuel IH]; intros queue; [reflexivity|].
  cbn [queue_loop]. destruct queue as [|[pid path] queue]; [reflexivity|].
  pose proof (page_loop_requests client only_file fuel pid path 1 (PInt 0) queue)
    as Hp.
  destruct (page_loop client only_file fuel pid path 1 (PInt 0) queue) as [q' r].
  cbn [snd] in Hp. specialize (Hp ltac:(lia) ltac:(discriminate) ltac:(reflexivity)).
  destruct (ending_of r); try exact Hp.
  unfold sent in *. cbn [events]. rewrite forallb_requests_app, Hp. apply IH.
Qed.

(** X2. Whatever the drive answers, every request of a traversal asks for a
    hundred items a page outside the direct space, numbers its pages
    from 1, asks a first page with the cursor 0, and never sends the end
    mark ["-1"] back as a cursor. *)
Theorem iterdir_requests_shape (client : P123Client) (only_file : bool)
    (fuel : nat) (pid : Z) :
  forallb paging_request (sent (iterdir client only_file fuel pid)) = true.
Proof. apply queue_loop_requests. Qed.

Lemma follows_yields cur pid path only_file l rest :
  cur = Some pid ->
  follows cur rest = true ->
  follows cur (map Yield (snd (for_items only_file pid path l)) ++ rest) = true.
Proof.
  intros -> Hrest. induction l as [|it l IH]; simpl; [exact Hrest|].
  destruct (for_items only_file pid path l) as [q2 y2]. unfold visit.
  cbn [snd] in *.
  destruct (item_is_dir it && only_file); cbn [app map follows]; [exact IH|].
  cbn [make_entry parent_id]. rewrite bool_decide_eq_true_2 by reflexivity.
  exact IH.
Qed.

Lemma follows_app_any cur l1 l2 :
  follows cur l1 = true -> (forall c, follows c l2 = true) ->
  follows cur (l1 ++ l2) = true.
Proof.
  revert cur. induction l1 as [|[p|e] l1 IH]; intros cur H1 H2; simpl in *.
  - apply H2.
  - apply IH; assumption.
  - apply andb_true_iff in H1 as [Ha Hb]. rewrite Ha. apply IH; assumption.
Qed.

Lemma page_loop_follows client only_file : forall fuel pid path page nxt q cur,
  follows cur (events (snd (page_loop client only_file fuel pid path page nxt q)))
  = true.
Proof.
  induction fuel as [|fuel IH]; intros pid path page nxt q cur; [reflexivity|].
  cbn [page_loop].
  destruct (fs_list client _) as [resp|e]; [|reflexivity].
  destruct (InfoList resp) as [|it l] eqn:Hl; [reflexivity|].
  pose proof (follows_yields (Some pid) pid path only_file (it :: l)) as Hy.
  destruct (for_items only_file pid path (it :: l)) as [q1 ys]. cbn [snd] in Hy.
  destruct (bool_decide (Next resp = PStr "-1")).
  - cbn [snd events follows parentFileId].
    rewrite <- (app_nil_r (map Yield ys)). apply Hy; reflexivity.
  - specialize (IH pid path (page + 1) (Next resp) (q ++ q1) (Some pid)).
    destruct (page_loop client only_file fuel pid path (page + 1) (Next resp) (q ++ q1))
      as [q' r]. cbn [snd events follows parentFileId] in *.
    apply Hy; [reflexivity | exact IH].
Qed.

Lemma queue_loop_follows client only_file : forall fuel queue cur,
  follows cur (events (queue_loop client only_file fuel queue)) = true.
Proof.
  induction fuel as [|fuel IH]; intros queue cur; [reflexivity|].
  cbn [queue_loop]. destruct queue as [|[pid path] queue]; [reflexivity|].
  pose proof (page_loop_follows client only_file fuel pid path 1 (PInt 0) queue cur)
    as Hp.
  destruct (page_loop client only_file fuel pid path 1 (PInt 0) queue) as [q' r].
  cbn [snd] in Hp.
  destruct (ending_of r); try exact Hp.
  cbn [events]. apply follows_app_any; [exact Hp | apply IH].
Qed.

(** X3. Whatever the drive answers, no entry is yielded before a request,
    and the last request before an entry asked for the directory that
    the entry names as its parent. *)
Theorem iterdir_entry_follows_request (client : P123Client) (only_file : bool)
    (fuel : nat) (pid : Z) :
  follows None (events (iterdir client only_file fuel pid)) = true.
Proof. apply queue_loop_follows. Qed.








(** The traversal of the drive whose directory [S1] cannot be listed:
    what the other directories hold is yielded, then the exception. *)
Example iterdir_on_flaky_drive :
  map relpath (yielded (iterdir Example.flaky true 10 0))
  = ["top.txt"; "media/movies/A.mkv"; "media/movies/A.nfo"]
  /\ ending_of (iterdir Example.flaky true 10 0) = Raised (RemoteError "code 429")
  /\ last (events (iterdir Example.flaky true 10 0))
     = Some (Sent {| limit := 100; next := PInt 0; Page := Some 1;
                     parentFileId := 5; inDirectSpace := "false" |}).
Proof. vm_compute. auto. Qed.

Lemma page_loop_endless client only_file :
  endless client ->
  forall fuel pid path page nxt q,
    ending_of (snd (page_loop client only_file fuel pid path page nxt q)) = OutOfFuel.
Proof.
  intros Hc. induction fuel as [|fuel IH]; intros pid path page nxt q; [reflexivity|].
  cbn [page_loop].
  match goal with |- context [fs_list client ?p] =>
    destruct (Hc p) as (resp & -> & Hl & Hn) end.
  destruct (InfoList resp) as [|it l]; [contradiction|].
  destruct (for_items only_file pid path (it :: l)) as [q1 ys].
  rewrite (bool_decide_eq_false_2 _ Hn).
  specialize (IH pid path (page + 1) (Next resp) (q ++ q1)).
  destruct (page_loop client only_file fuel pid path (page + 1) (Next resp) (q ++ q1))
    as [q' r]. exact IH.
Qed.

Lemma page_loop_one_directory client only_file : forall fuel pid path page nxt q,
  Forall (fun p => parentFileId p = pid)
    (sent (snd (page_loop client only_file fuel pid path page nxt q))).
Proof.
  induction fuel as [|fuel IH]; intros pid path page nxt q; [constructor|].
  cbn [page_loop].
  destruct (fs_list client _) as [resp|e]; [|repeat constructor].
  destruct (InfoList resp) as [|it l]; [repeat constructor|].
  destruct (for_items only_file pid path (it :: l)) as [q1 ys].
  destruct (bool_decide (Next resp = PStr "-1")).
  - unfold sent. cbn [snd events requests]. rewrite requests_map_Yield.
    repeat constructor.
  - specialize (IH pid path (page + 1) (Next resp) (q ++ q1)).
    destruct (page_loop client only_file fuel pid path (page + 1) (Next resp) (q ++ q1))
      as [q' r]. unfold sent in *. cbn [snd events requests] in *.
    rewrite requests_app, requests_map_Yield. constructor; [reflexivity | exact IH].
Qed.

(** X5. The traversal relies on the drive to end a listing, by an empty page
    or by the end mark ["-1"]: on a drive that does neither, it never
    ends and never leaves the first directory, however long it runs. *)
Theorem iterdir_needs_end_mark (client : P123Client) (only_file : bool) (pid : Z) :
  endless client ->
  forall fuel,
    ending_of (iterdir client only_file fuel pid) = OutOfFuel
    /\ Forall (fun p => parentFileId p = pid)
         (sent (iterdir client only_file fuel pid)).
Proof.
  intros Hc fuel. unfold iterdir.
  destruct fuel as [|fuel]; [split; [reflexivity|constructor]|].
  cbn [queue_loop].
  pose proof (page_loop_endless client only_file Hc fuel pid "" 1 (PInt 0) []) as He.
  pose proof (page_loop_one_directory client only_file fuel pid "" 1 (PInt 0) [])
    as Hq.
  destruct (page_loop client only_file fuel pid "" 1 (PInt 0) []) as [q' r].
  cbn [snd] in *. rewrite He. split; [exact He | exact Hq].
Qed.

Lemma iterdir_needs_end_mark_witness :
  ending_of (iterdir endless_drive true 25 0) = OutOfFuel
  /\ Forall (fun p => parentFileId p = 0) (sent (iterdir endless_drive true 25 0)).
Proof.
  apply (iterdir_needs_end_mark endless_drive true 0).
  intros p. eexists. split; [reflexivity|]. split; discriminate.
Defined.

(** ** Names and extensions *)

Lemma rpartition_dot_none s :
  Pathlib.rpartition_dot s = None -> Urllib.contains "." s = false.
Proof.
  induction s as [|c s IH]; [reflexivity|]. simpl.
  destruct (Pathlib.rpartition_dot s) as [[a b]|]; [discriminate|].
  destruct (Py.ascii_eqb c "."); [discriminate|].
  intros _. simpl. apply IH. reflexivity.
Qed.

(** What is cut after the last dot of a name starts with this dot and
    holds no other. *)
Lemma rpartition_dot_shape s : forall a b,
  Pathlib.rpartition_dot s = Some (a, b) ->
  exists x, b = String "." x /\ Urllib.contains "." x = false.
Proof.
  induction s as [|c s IH]; intros a b; [discriminate|]. simpl.
  destruct (Pathlib.rpartition_dot s) as [[a' b']|] eqn:Hr.
  - intros [= <- <-]. apply (IH a' b'). reflexivity.
  - unfold Py.ascii_eqb. destruct (bool_decide_reflect (c = "."%char)) as [->|];
      [|discriminate].
    intros [= <- <-]. exists s. split; [reflexivity|].
    apply rpartition_dot_none. exact Hr.
Qed.

(** The suffix of a name is empty, or a dot and a non-empty extension
    without dot. *)
Lemma suffix_shape p :
  Pathlib.suffix p = ""
  \/ exists c x, Pathlib.suffix p = String "." (String c x)
                 /\ Urllib.contains "." (String c x) = false.
Proof.
  unfold Pathlib.suffix, Pathlib.split_suffix.
  destruct (Pathlib.rpartition_dot (Pathlib.name p)) as [[a b]|] eqn:Hr; [|left; reflexivity].
  destruct (negb (Py.falsy a) && (1 <? Py.len b)%nat) eqn:Hc; [|left; reflexivity].
  right. destruct (rpartition_dot_shape _ _ _ Hr) as (x & -> & Hx).
  apply andb_true_iff in Hc as [_ Hlen].
  destruct x as [|c x]; [discriminate|]. exists c, x. split; [reflexivity | exact Hx].
Qed.

Lemma not_in_ext_set_nil U s : "" ∉ ext_set U s.
Proof.
  unfold ext_set. intros H. apply list_elem_of_In, in_map_iff in H.
  destruct H as (e & He & _). discriminate.
Qed.

(** X6. The passes sort a file by the suffix of its name; a name without
    suffix is skipped whatever the configuration: a name without dot, a
    name that only starts with its dot ([.mkv]) or one that ends with
    it. *)
Theorem classify_needs_suffix (U : Unicode.tables) (rmt dl : string) (auto : bool)
    (file_name : string) :
  Pathlib.suffix (Pathlib.Path file_name) = "" ->
  classify U (ext_set U rmt) (ext_set U dl) auto file_name = Ignored.
Proof.
  intros H. unfold classify. rewrite H.
  change (Unicode.lower U "") with "".
  rewrite !bool_decide_eq_false_2 by apply not_in_ext_set_nil.
  rewrite andb_false_r. reflexivity.
Qed.

Lemma classify_needs_suffix_witness :
  classify Example.latin1 (ext_set Example.latin1 "mkv,mp4")
    (ext_set Example.latin1 "nfo") true ".mkv" = Ignored.
Proof.
  apply (classify_needs_suffix Example.latin1 "mkv,mp4" "nfo" true ".mkv").
  reflexivity.
Defined.

(** Names the passes leave alone although they end in a configured
    extension. *)
Example names_without_suffix :
  map (fun n => Pathlib.suffix (Pathlib.Path n)) [".mkv"; "mkv"; "movie.mkv."; "a/.mp4"]
  = [""; ""; ""; ""]
  /\ Pathlib.suffix (Pathlib.Path "a.b/movie.tar.MKV") = ".MKV".
Proof. vm_compute. auto. Qed.

(** *** The full stop under [str.lower] *)

Lemma byte_of_bound c : 0 <= Urllib.byte_of c < 256.
Proof.
  unfold Urllib.byte_of. pose proof (nat_ascii_bounded c). lia.
Qed.

Lemma byte_of_char_of v : 0 <= v < 256 -> Urllib.byte_of (Urllib.char_of v) = v.
Proof.
  intros H. unfold Urllib.byte_of, Urllib.char_of.
  rewrite nat_ascii_embedding by lia. lia.
Qed.

Lemma dot_byte c : Py.ascii_eqb "." c = (Urllib.byte_of c =? 46).
Proof. destruct c as [[] [] [] [] [] [] [] []]; reflexivity. Qed.

Lemma dot_char v : v < 128 -> Py.ascii_eqb "." (Urllib.char_of v) = (v =? 46).
Proof.
  intros H. rewrite dot_byte. destruct (Z.ltb_spec v 0) as [Hn|Hp].
  - unfold Urllib.char_of. rewrite Z2Nat.nonpos by lia. cbn.
    symmetry. apply Z.eqb_neq. lia.
  - rewrite byte_of_char_of by lia. reflexivity.
Qed.

Lemma not_dot_char v : 128 <= v < 256 -> Py.ascii_eqb "." (Urllib.char_of v) = false.
Proof.
  intros H. rewrite dot_byte, byte_of_char_of by lia. apply Z.eqb_neq. lia.
Qed.

Lemma is_cont_bound c : Urllib.is_cont c = true -> 128 <= Urllib.byte_of c <= 191.
Proof. unfold Urllib.is_cont. intros H. apply andb_true_iff in H. lia. Qed.

Lemma second_ok_bound b c :
  Urllib.second_ok b c = true -> 128 <= Urllib.byte_of c <= 191.
Proof.
  unfold Urllib.second_ok.
  destruct (b =? 224); [intros H; apply andb_true_iff in H; lia|].
  destruct (b =? 237); [intros H; apply andb_true_iff in H; lia|].
  destruct (b =? 240); [intros H; apply andb_true_iff in H; lia|].
  destruct (b =? 244); [intros H; apply andb_true_iff in H; lia|].
  apply is_cont_bound.
Qed.

Lemma second_ok_low b c :
  Urllib.second_ok b c = true ->
  (b = 224 -> 160 <= Urllib.byte_of c) /\ (b = 240 -> 144 <= Urllib.byte_of c).
Proof.
  unfold Urllib.second_ok. intros H.
  destruct (Z.eqb_spec b 224) as [E1|E1].
  { apply andb_true_iff in H. split; intros; lia. }
  destruct (Z.eqb_spec b 237) as [E2|E2]; [split; intros; lia|].
  destruct (Z.eqb_spec b 240) as [E3|E3].
  { apply andb_true_iff in H. split; intros; lia. }
  split; intros; lia.
Qed.

(** The first code point is a full stop when the first byte is. *)
Lemma decode_first s : dot_first (Unicode.decode s) = Py.startswith "." s.
Proof.
  destruct s as [|c r]; [reflexivity|].
  cbn [Py.startswith]. rewrite andb_true_r, dot_byte.
  pose proof (byte_of_bound c) as Hb.
  cbn [Unicode.decode]. cbv zeta.
  destruct (Z.ltb_spec (Urllib.byte_of c) 128) as [L1|L1]; [reflexivity|].
  assert (H46 : (Urllib.byte_of c =? 46) = false) by (apply Z.eqb_neq; lia).
  rewrite H46.
  destruct (Z.ltb_spec (Urllib.byte_of c) 194) as [L2|L2]; [reflexivity|].
  destruct (Z.ltb_spec (Urllib.byte_of c) 224) as [L3|L3].
  { destruct r as [|c1 r1]; [reflexivity|].
    destruct (Urllib.is_cont c1) eqn:H1; [|reflexivity].
    apply is_cont_bound in H1. cbn [dot_first]. apply Z.eqb_neq. lia. }
  destruct (Z.ltb_spec (Urllib.byte_of c) 240) as [L4|L4].
  { destruct r as [|c1 [|c2 r2]]; [reflexivity..|].
    destruct (Urllib.second_ok (Urllib.byte_of c) c1 && Urllib.is_cont c2) eqn:H1;
      [|reflexivity].
    apply andb_true_iff in H1 as [H1 H2].
    destruct (second_ok_low _ _ H1) as [Hlow _].
    apply second_ok_bound in H1. apply is_cont_bound in H2.
    cbn [dot_first]. apply Z.eqb_neq.
    destruct (Z.eq_dec (Urllib.byte_of c) 224) as [E1|E1];
      [specialize (Hlow E1)|]; lia. }
  destruct (Z.ltb_spec (Urllib.byte_of c) 245) as [L5|L5]; [|reflexivity].
  destruct r as [|c1 [|c2 [|c3 r3]]]; [reflexivity..|].
  destruct (Urllib.second_ok (Urllib.byte_of c) c1 && Urllib.is_cont c2
            && Urllib.is_cont c3) eqn:H1; [|reflexivity].
  apply andb_true_iff in H1 as [H1 H3]. apply andb_true_iff in H1 as [H1 H2].
  destruct (second_ok_low _ _ H1) as [_ Hlow].
  apply second_ok_bound in H1. apply is_cont_bound in H2. apply is_cont_bound in H3.
  cbn [dot_first]. apply Z.eqb_neq.
  destruct (Z.eq_dec (Urllib.byte_of c) 240) as [E1|E1];
    [specialize (Hlow E1)|]; lia.
Qed.

Lemma lower_points_first U before l :
  dot_first (Unicode.lower_points U before l) = dot_first l.
Proof.
  destruct l as [|x after]; [reflexivity|]. cbn [Unicode.lower_points dot_first].
  destruct (Z.ltb_spec x 128) as [Hx|Hx].
  - cbn [app dot_first]. unfold Unicode.lower_point.
    destruct ((65 <=? x) && (x <=? 90)) eqn:Hc.
    + apply andb_true_iff in Hc as [H1 H2].
      transitivity false; [apply Z.eqb_neq; lia | symmetry; apply Z.eqb_neq; lia].
    + reflexivity.
  - destruct (Unicode.lower_at_shape U before x after Hx) as [Hne Hall].
    destruct (Unicode.lower_at U before x after) as [|y ys]; [contradiction|].
    inversion Hall as [|? ? Hy _]; subst. cbn [app dot_first].
    transitivity false; [|symmetry; apply Z.eqb_neq; lia].
    apply Z.eqb_neq. unfold Unicode.lowered in Hy. lia.
Qed.

Lemma encode_first l : Py.startswith "." (Unicode.encode l) = dot_first l.
Proof.
  destruct l as [|x l]; [reflexivity|]. cbn [Unicode.encode dot_first].
  unfold Unicode.encode_point.
  destruct (Z.ltb_spec x 128) as [H1|H1].
  { rewrite append_cons. cbn [Py.startswith]. rewrite andb_true_r. apply dot_char. exact H1. }
  assert (H46 : (x =? 46) = false) by (apply Z.eqb_neq; lia). rewrite H46.
  destruct (Z.ltb_spec x 2048) as [H2|H2].
  { rewrite append_cons. cbn [Py.startswith]. rewrite andb_true_r. apply not_dot_char.
    pose proof (Z.div_le_lower_bound x 64 2). pose proof (Z.div_lt_upper_bound x 64 32).
    lia. }
  destruct (Z.ltb_spec x 65536) as [H3|H3].
  { rewrite append_cons. cbn [Py.startswith]. rewrite andb_true_r. apply not_dot_char.
    pose proof (Z.div_le_lower_bound x 4096 0). pose proof (Z.div_lt_upper_bound x 4096 16).
    lia. }
  rewrite append_cons. cbn [Py.startswith]. rewrite andb_true_r. apply not_dot_char.
  pose proof (Z.mod_pos_bound (x / 262144) 8). lia.
Qed.

Lemma lower_ascii_first s : Py.startswith "." (Py.lower_ascii s) = Py.startswith "." s.
Proof.
  destruct s as [|c r]; [reflexivity|]. cbn [Py.lower_ascii Py.startswith].
  destruct c as [[] [] [] [] [] [] [] []]; reflexivity.
Qed.

(** Lower-casing neither makes nor removes a full stop in front. *)
Lemma lower_first U s : Py.startswith "." (Unicode.lower U s) = Py.startswith "." s.
Proof.
  unfold Unicode.lower. destruct (Unicode.all_ascii s); [apply lower_ascii_first|].
  rewrite encode_first, lower_points_first. apply decode_first.
Qed.

(** Nor behind a full stop in front. *)
Lemma lower_after_dot U r :
  exists r', Unicode.lower U (String "." r) = String "." r'
             /\ Py.startswith "." r' = Py.startswith "." r.
Proof.
  unfold Unicode.lower. cbn [Unicode.all_ascii].
  change (Urllib.is_ascii ".") with true. cbn [andb].
  destruct (Unicode.all_ascii r).
  - exists (Py.lower_ascii r). split; [reflexivity | apply lower_ascii_first].
  - exists (Unicode.encode (Unicode.lower_points U [46] (Unicode.decode r))).
    split; [reflexivity|].
    rewrite encode_first, lower_points_first. apply decode_first.
Qed.

(** No suffix is an entry typed with its dot. *)
Lemma dotted_entry_no_suffix U e p :
  Py.startswith "." e = true ->
  Unicode.lower U (Pathlib.suffix p) <> "." +:+ Unicode.lower U e.
Proof.
  intros He Heq.
  destruct e as [|d y]; [discriminate|].
  cbn [Py.startswith] in He. apply andb_true_iff in He as [Hd _].
  unfold Py.ascii_eqb in Hd. apply bool_decide_eq_true_1 in Hd. subst d.
  destruct (lower_after_dot U y) as (y' & Hy & _). rewrite Hy in Heq.
  destruct (suffix_shape p) as [H0|(c & x & Hp & Hx)].
  - rewrite H0 in Heq. discriminate.
  - rewrite Hp in Heq.
    destruct (lower_after_dot U (String c x)) as (r' & Hr & Hfirst).
    rewrite Hr in Heq. rewrite append_cons, append_nil_l in Heq. injection Heq as ->.
    cbn [Py.startswith] in Hfirst.
    cbn [Urllib.contains] in Hx. apply orb_false_iff in Hx as [Hx _].
    unfold Py.ascii_eqb in *.
    rewrite (bool_decide_eq_true_2 _ eq_refl) in Hfirst.
    rewrite andb_true_r in Hfirst.
    apply bool_decide_eq_false_1 in Hx. symmetry in Hfirst.
    apply andb_true_iff in Hfirst as [Hfirst _].
    apply bool_decide_eq_true_1 in Hfirst. apply Hx. symmetry. exact Hfirst.
Qed.

Lemma dotted_ext_set U s f :
  Forall (fun e => Py.startswith "." e = true) (typed_extensions s) ->
  Unicode.lower U (Pathlib.suffix f) ∉ ext_set U s.
Proof.
  unfold typed_extensions, ext_set. intros Hall Hin.
  apply list_elem_of_In, in_map_iff in Hin. destruct Hin as (e & He & Hin).
  rewrite Forall_map in Hall. rewrite Forall_forall in Hall.
  specialize (Hall e (proj2 (list_elem_of_In _ _) Hin)).
  exact (dotted_entry_no_suffix U (Unicode.strip e) f Hall (eq_sym He)).
Qed.

(** X7. The extensions are configured without their dot: the passes put one
    in front of each entry. When every entry of both lists is typed with
    a dot ([.mkv,.mp4]), no file is streamable or a sidecar. *)
Theorem dotted_extensions_match_nothing (U : Unicode.tables) (rmt dl : string)
    (auto : bool) (file_name : string) :
  Forall (fun e => Py.startswith "." e = true) (typed_extensions rmt) ->
  Forall (fun e => Py.startswith "." e = true) (typed_extensions dl) ->
  classify U (ext_set U rmt) (ext_set U dl) auto file_name = Ignored.
Proof.
  intros Hr Hd. unfold classify.
  rewrite !bool_decide_eq_false_2 by (apply dotted_ext_set; assumption).
  rewrite andb_false_r. reflexivity.
Qed.

Lemma dotted_extensions_match_nothing_witness :
  classify Example.latin1 (ext_set Example.latin1 ".mkv, .mp4")
    (ext_set Example.latin1 ".nfo") true "movie.mkv" = Ignored.
Proof.
  apply (dotted_extensions_match_nothing Example.latin1 ".mkv, .mp4" ".nfo" true
           "movie.mkv");
    vm_compute; repeat constructor.
Defined.

Lemma char_of_byte_of c : Urllib.char_of (Urllib.byte_of c) = c.
Proof.
  unfold Urllib.char_of, Urllib.byte_of. rewrite Nat2Z.id. apply ascii_nat_embedding.
Qed.

Lemma byte_of_range c : 0 <= Urllib.byte_of c < 256.
Proof.
  unfold Urllib.byte_of. pose proof (nat_ascii_bounded c). lia.
Qed.

Lemma hex_digit_cases (d : Z) : 0 <= d < 16 ->
  d = 0 \/ d = 1 \/ d = 2 \/ d = 3 \/ d = 4 \/ d = 5 \/ d = 6 \/ d = 7 \/ d = 8
  \/ d = 9 \/ d = 10 \/ d = 11 \/ d = 12 \/ d = 13 \/ d = 14 \/ d = 15.
Proof. lia. Qed.

Lemma hex_value_hex_digit d :
  0 <= d < 16 -> Urllib.hex_value (Urllib.hex_digit true d) = Some d.
Proof.
  intros H. destruct (hex_digit_cases d H) as
    [->|[->|[->|[->|[->|[->|[->|[->|[->|[->|[->|[->|[->|[->|[->| ->]]]]]]]]]]]]]]];
    reflexivity.
Qed.

Lemma hex_digit_ascii u d :
  0 <= d < 16 -> Urllib.is_ascii (Urllib.hex_digit u d) = true.
Proof.
  intros H. destruct u; destruct (hex_digit_cases d H) as
    [->|[->|[->|[->|[->|[->|[->|[->|[->|[->|[->|[->|[->|[->|[->| ->]]]]]]]]]]]]]]];
    reflexivity.
Qed.

Lemma hex_digit_not_percent d :
  0 <= d < 16 -> Py.ascii_eqb (Urllib.hex_digit true d) "%" = false.
Proof.
  intros H. destruct (hex_digit_cases d H) as
    [->|[->|[->|[->|[->|[->|[->|[->|[->|[->|[->|[->|[->|[->|[->| ->]]]]]]]]]]]]]]];
    reflexivity.
Qed.

Lemma safe_not_percent c : Urllib.is_safe c = true -> Py.ascii_eqb c "%" = false.
Proof.
  intros H. unfold Py.ascii_eqb.
  destruct (bool_decide_reflect (c = "%"%char)) as [->|]; [discriminate|reflexivity].
Qed.

Lemma safe_ascii c : Urllib.is_safe c = true -> Urllib.is_ascii c = true.
Proof.
  unfold Urllib.is_safe, Urllib.is_ascii. intros H. apply Z.ltb_lt.
  repeat (apply orb_true_iff in H as [H|H]);
    rewrite ?andb_true_iff, ?Z.leb_le, ?Z.eqb_eq in H; lia.
Qed.

Lemma byte_split c :
  16 * (Urllib.byte_of c / 16) + Urllib.byte_of c mod 16 = Urllib.byte_of c.
Proof. symmetry. apply Z.div_mod. lia. Qed.

Lemma byte_nibbles c :
  0 <= Urllib.byte_of c / 16 < 16 /\ 0 <= Urllib.byte_of c mod 16 < 16.
Proof.
  pose proof (byte_of_range c). split.
  - split; [apply Z.div_pos; lia | apply Z.div_lt_upper_bound; lia].
  - apply Z.mod_pos_bound. lia.
Qed.

(** Percent-decoding undoes the quoting, byte for byte. *)
Lemma unquote_to_bytes_quote s : Urllib.unquote_to_bytes (Urllib.quote s) = s.
Proof.
  induction s as [|c s IH]; [reflexivity|].
  cbn [Urllib.quote]. destruct (Urllib.is_safe c) eqn:Hs.
  - rewrite unquote_to_bytes_cons by (apply safe_not_percent; exact Hs).
    rewrite IH. reflexivity.
  - destruct (byte_nibbles c) as [Hh Hl].
    cbn [Urllib.unquote_to_bytes].
    change (Py.ascii_eqb "%" "%") with true. cbv iota.
    rewrite (hex_value_hex_digit _ Hh), (hex_value_hex_digit _ Hl).
    rewrite byte_split, char_of_byte_of, IH. reflexivity.
Qed.

Lemma quote_all_ascii s : all_chars Urllib.is_ascii (Urllib.quote s) = true.
Proof.
  induction s as [|c s IH]; [reflexivity|].
  cbn [Urllib.quote]. destruct (Urllib.is_safe c) eqn:Hs.
  - cbn [all_chars]. rewrite (safe_ascii c Hs), IH. reflexivity.
  - destruct (byte_nibbles c) as [Hh Hl]. cbn [all_chars].
    rewrite (hex_digit_ascii true _ Hh), (hex_digit_ascii true _ Hl), IH. reflexivity.
Qed.

Lemma quote_without_percent s :
  Urllib.contains "%" (Urllib.quote s) = false -> Urllib.quote s = s.
Proof.
  induction s as [|c s IH]; [reflexivity|].
  cbn [Urllib.quote]. destruct (Urllib.is_safe c) eqn:Hs.
  - cbn [Urllib.contains]. intros H. apply orb_false_iff in H as [_ H].
    rewrite (IH H). reflexivity.
  - cbn [Urllib.contains]. change (Py.ascii_eqb "%" "%") with true. discriminate.
Qed.

Lemma ascii_runs_all_ascii s :
  all_chars Urllib.is_ascii s = true -> s <> "" -> Urllib.ascii_runs s = [(true, s)].
Proof.
  induction s as [|c s IH]; [contradiction|]. intros H _.
  cbn [all_chars] in H. apply andb_true_iff in H as [Hc Hs].
  rewrite ascii_runs_cons, Hc. destruct s as [|c' s']; [reflexivity|].
  rewrite IH by (auto; discriminate). reflexivity.
Qed.

Lemma decode_replace_valid : forall n s,
  (String.length s <= n)%nat -> utf8_valid s = true -> Urllib.decode_replace s = s.
Proof.
  induction n as [|n IH]; intros s Hlen Hv.
  { destruct s; [reflexivity | simpl in Hlen; lia]. }
  destruct s as [|c r]; [reflexivity|].
  cbn [utf8_valid Urllib.decode_replace] in *. cbv zeta in *.
  simpl String.length in Hlen.
  destruct (Urllib.byte_of c <? 128); [rewrite IH by (auto; lia); reflexivity|].
  destruct (Urllib.byte_of c <? 194); [discriminate|].
  destruct (Urllib.byte_of c <? 224).
  { destruct r as [|c1 r1]; [discriminate|].
    apply andb_true_iff in Hv as [H1 Hv]. rewrite H1.
    simpl String.length in Hlen. rewrite IH by (auto; lia). reflexivity. }
  destruct (Urllib.byte_of c <? 240).
  { destruct r as [|c1 [|c2 r2]]; try discriminate.
    apply andb_true_iff in Hv as [Hv H3]. apply andb_true_iff in Hv as [H1 H2].
    rewrite H1, H2. simpl String.length in Hlen. rewrite IH by (auto; lia).
    reflexivity. }
  destruct (Urllib.byte_of c <? 245); [|discriminate].
  destruct r as [|c1 [|c2 [|c3 r3]]]; try discriminate.
  apply andb_true_iff in Hv as [Hv H4]. apply andb_true_iff in Hv as [Hv H3].
  apply andb_true_iff in Hv as [H1 H2].
  rewrite H1, H2, H3. simpl String.length in Hlen. rewrite IH by (auto; lia).
  reflexivity.
Qed.

Lemma unquote_quote s : Urllib.unquote (Urllib.quote s) = Urllib.decode_replace s
                        \/ Urllib.unquote (Urllib.quote s) = s.
Proof.
  unfold Urllib.unquote.
  destruct (Urllib.contains "%" (Urllib.quote s)) eqn:Hc; cbn [negb].
  - left. unfold Urllib.unquote_runs.
    rewrite ascii_runs_all_ascii; [|apply quote_all_ascii|].
    + cbn [map Urllib.concat_strings]. unfold Urllib.decode_run. cbn [fst snd].
      rewrite unquote_to_bytes_quote. apply append_nil_r.
    + intros H. rewrite H in Hc. discriminate.
  - right. apply quote_without_percent. exact Hc.
Qed.

Lemma unquote_quote_valid s :
  utf8_valid s = true -> Urllib.unquote (Urllib.quote s) = s.
Proof.
  intros Hv. destruct (unquote_quote s) as [H|H]; [|exact H].
  rewrite H. apply (decode_replace_valid (String.length s)); [lia | exact Hv].
Qed.

(** ** Links *)

(** X8. [unquote] undoes [quote] on every Python string: on the bytes, and
    on the text, whose bytes are well-formed UTF-8. *)
Theorem unquote_quote_round_trip (s : string) :
  utf8_valid s = true ->
  Urllib.unquote_to_bytes (Urllib.quote s) = s
  /\ Urllib.unquote (Urllib.quote s) = s.
Proof.
  intros Hv. split; [apply unquote_to_bytes_quote | apply unquote_quote_valid; exact Hv].
Qed.

Lemma unquote_quote_round_trip_witness :
  Urllib.unquote_to_bytes (Urllib.quote "电影/第 1 集 100%.mkv") = "电影/第 1 集 100%.mkv"
  /\ Urllib.unquote (Urllib.quote "电影/第 1 集 100%.mkv") = "电影/第 1 集 100%.mkv".
Proof. apply (unquote_quote_round_trip "电影/第 1 集 100%.mkv"). reflexivity. Defined.

(** X9. The passes quote the remote path of a file before they hand it to
    the signer, and the signer decodes what it is given: with a uid
    without percent sign, and an expiry time that can be written under
    the digit limit, the link signs and carries the remote path as it
    is, not quoted. *)
Theorem strm_link_carries_plain_path (E : env) (self : plugin) (w : world)
    (uid secret_key domain full_path : string) :
  _uid self = Some uid -> uid <> "" -> Urllib.contains "%" uid = false ->
  _secret_key self = Some secret_key -> secret_key <> "" ->
  _custom_domain self = Some domain -> domain <> "" ->
  utf8_valid full_path = true ->
  format_int (max_str_digits E) (clock E (clock_reads w) + _expire_time self * 60)
  = Ok (Py.str_of_int (clock E (clock_reads w) + _expire_time self * 60)) ->
  snd (_generate_auth_url E self (Urllib.quote full_path) w)
  = Done (signed_link (normalized_domain domain) ("/" +:+ uid +:+ "/" +:+ full_path)
            uid secret_key
            (clock E (clock_reads w) + _expire_time self * 60)
            (randint 0 (2 ^ 31 - 1) (entropy E (rand_draws w)))).
Proof.
  intros Hu Hu' Hp Hk Hk' Hd Hd' Hv Hf.
  rewrite (generate_auth_url_done E self _ w uid secret_key domain) by assumption.
  cbn [snd]. unfold auth_url, normalized_domain, signed_link.
  replace (Urllib.unquote ("/" +:+ uid +:+ "/" +:+ Urllib.quote full_path))
    with ("/" +:+ uid +:+ "/" +:+ full_path).
  - rewrite append_assoc. reflexivity.
  - replace ("/" +:+ uid +:+ "/" +:+ Urllib.quote full_path)
      with (("/" +:+ uid +:+ "/") +:+ Urllib.quote full_path)
      by (rewrite !append_assoc; reflexivity).
    rewrite unquote_app, unquote_quote_valid by
      first [exact Hv | rewrite !contains_app, Hp; reflexivity].
    rewrite !append_assoc. reflexivity.
Qed.

Lemma strm_link_carries_plain_path_witness :
  snd (_generate_auth_url Example.E Example.self
         (Urllib.quote "media/movies/第 1 集.mkv") Example.empty_world)
  = Done (signed_link (normalized_domain "https://vip.123pan.cn")
            ("/" +:+ "1815" +:+ "/" +:+ "media/movies/第 1 集.mkv") "1815" "secret"
            (clock Example.E (clock_reads Example.empty_world)
             + _expire_time Example.self * 60)
            (randint 0 (2 ^ 31 - 1)
               (entropy Example.E (rand_draws Example.empty_world)))).
Proof.
  apply (strm_link_carries_plain_path Example.E Example.self Example.empty_world
           "1815" "secret" "https://vip.123pan.cn" "media/movies/第 1 集.mkv");
    first [reflexivity | discriminate].
Defined.

(** What the signer is handed for a file with a space in its name, and
    the link it returns. *)
Example strm_link_on_example :
  Urllib.quote "media/movies/A B.mkv" = "media/movies/A%20B.mkv"
  /\ snd (_generate_auth_url Example.E Example.self "media/movies/A%20B.mkv"
            Example.empty_world)
     = Done "https://vip.123pan.cn/1815/media/movies/A B.mkv?auth_key=1600-12345-1815-395c34b131bdc30fad120c310556583a".
Proof. vm_compute. auto. Qed.

Lemma rstrip_by_snoc p s c :
  p c = true -> Py.rstrip_by p (s +:+ String c "") = Py.rstrip_by p s.
Proof.
  intros Hc. induction s as [|a s IH]; simpl; [rewrite Hc; reflexivity|].
  rewrite IH. reflexivity.
Qed.

Lemma startswith_app p d s :
  Py.startswith p d = true -> Py.startswith p (d +:+ s) = true.
Proof.
  revert d. induction p as [|a p IH]; intros d H; [reflexivity|].
  destruct d as [|b d]; [discriminate|]. simpl in *.
  apply andb_true_iff in H as [Ha Hp]. rewrite Ha. apply IH. exact Hp.
Qed.

Lemma startswith_refl_app p s : Py.startswith p (p +:+ s) = true.
Proof.
  induction p as [|a p IH]; [reflexivity|]. simpl.
  unfold Py.ascii_eqb. rewrite bool_decide_eq_true_2 by reflexivity. exact IH.
Qed.

(** X10. Whatever is configured as the domain, the link starts with
    [http://] or [https://], and slashes at the end of the configured
    domain change nothing to it. *)
Theorem auth_url_domain (uid secret_key domain : string) (expire_time rand : Z)
    (file_path : string) :
  (Py.startswith "http://" (auth_url uid secret_key domain expire_time rand file_path)
   || Py.startswith "https://" (auth_url uid secret_key domain expire_time rand file_path))
  = true
  /\ auth_url uid secret_key (domain +:+ "/") expire_time rand file_path
     = auth_url uid secret_key domain expire_time rand file_path.
Proof.
  split.
  - unfold auth_url. cbv zeta.
    destruct (Py.startswith "http://" (Py.rstrip_slash domain)
              || Py.startswith "https://" (Py.rstrip_slash domain)) eqn:Hs.
    + rewrite !append_assoc. apply orb_true_iff in Hs as [H|H].
      * rewrite (startswith_app _ _ _ H). reflexivity.
      * rewrite (startswith_app _ _ _ H). apply orb_true_r.
    + rewrite !append_assoc. rewrite (startswith_refl_app "https://"). apply orb_true_r.
  - unfold auth_url. cbv zeta. unfold Py.rstrip_slash.
    rewrite rstrip_by_snoc by reflexivity. reflexivity.
Qed.

Lemma le_bytes_range n x : Forall (fun b => 0 <= b < 256) (MD5.le_bytes n x).
Proof.
  unfold MD5.le_bytes. apply Forall_map. apply Forall_forall. intros k _.
  apply Z.mod_pos_bound. lia.
Qed.

Lemma hex_digit_lower d :
  0 <= d < 16 -> is_lower_hex (Urllib.hex_digit false d) = true.
Proof.
  intros H. destruct (hex_digit_cases d H) as
    [->|[->|[->|[->|[->|[->|[->|[->|[->|[->|[->|[->|[->|[->|[->| ->]]]]]]]]]]]]]]];
    reflexivity.
Qed.

Lemma hex_of_bytes_shape bs :
  Forall (fun b => 0 <= b < 256) bs ->
  Py.len (MD5.hex_of_bytes bs) = (2 * length bs)%nat
  /\ all_chars is_lower_hex (MD5.hex_of_bytes bs) = true.
Proof.
  induction 1 as [|b bs Hb _ [IHl IHc]]; [split; reflexivity|].
  cbn [MD5.hex_of_bytes Py.len all_chars length]. split; [lia|].
  rewrite !hex_digit_lower, IHc; [reflexivity | |].
  - apply Z.mod_pos_bound. lia.
  - split; [apply Z.div_pos; lia | apply Z.div_lt_upper_bound; lia].
Qed.

(** X11. The signature of a link is 32 hexadecimal digits in lower case,
    whatever is signed. *)
Theorem signature_shape (s : string) :
  Py.len (MD5.hexdigest s) = 32%nat
  /\ all_chars is_lower_hex (MD5.hexdigest s) = true.
Proof.
  unfold MD5.hexdigest, MD5.digest. cbv zeta.
  match goal with |- context [MD5.hex_of_bytes ?l] =>
    destruct (hex_of_bytes_shape l) as [Hl Hc] end.
  - repeat (apply Forall_app; split); apply le_bytes_range.
  - split; [|exact Hc]. rewrite Hl. rewrite !length_app.
    unfold MD5.le_bytes. rewrite !length_map, !length_seq. reflexivity.
Qed.

(** ** The local files only grow *)

Lemma fs_grows_refl f : fs_grows f f.
Proof. intros k. auto. Qed.

Lemma fs_grows_trans f g h : fs_grows f g -> fs_grows g h -> fs_grows f h.
Proof.
  intros H1 H2 k. destruct (H1 k) as [a b], (H2 k) as [c d]. auto.
Qed.

Lemma fs_grows_insert_new f k v : f !! k = None -> fs_grows f (<[k := v]> f).
Proof.
  intros Hk j. destruct (decide (j = k)) as [->|Hne].
  - rewrite Hk. split; [intros [x Hx]; discriminate | discriminate].
  - rewrite lookup_insert_ne by congruence. auto.
Qed.

Lemma fs_grows_overwrite f k c :
  f !! k <> Some Fs.FDir -> fs_grows f (<[k := Fs.FFile c]> f).
Proof.
  intros Hk j. destruct (decide (j = k)) as [->|Hne].
  - rewrite lookup_insert_eq. split; [eauto | contradiction].
  - rewrite lookup_insert_ne by congruence. auto.
Qed.

Lemma os_mkdir_grows f p f' : Fs.os_mkdir f p = Ok f' -> fs_grows f f'.
Proof.
  unfold Fs.os_mkdir. destruct (Fs.exists_ f p) eqn:He; [discriminate|].
  destruct (Fs.under_file f p); [discriminate|].
  destruct (Fs.is_dir f (Pathlib.parent p)); [|discriminate].
  intros [= <-]. apply fs_grows_insert_new.
  unfold Fs.exists_ in He. destruct (Pathlib.tail p); [discriminate|].
  apply bool_decide_eq_false_1 in He.
  destruct (f !! Pathlib.str p) eqn:Hl; [exfalso; apply He; eauto | reflexivity].
Qed.

Lemma mkdir_go_grows : forall n f p f', Fs.mkdir_go n f p = Ok f' -> fs_grows f f'.
Proof.
  induction n as [|n IH]; intros f p f'; cbn [Fs.mkdir_go].
  - destruct (Fs.os_mkdir f p) as [g|e] eqn:Hm.
    + intros [= <-]. eapply os_mkdir_grows; eassumption.
    + destruct e as [| | | |[] x|]; try (destruct (Fs.is_dir f p); [|discriminate]);
        try discriminate; intros [= <-]; apply fs_grows_refl.
  - destruct (Fs.os_mkdir f p) as [g|e] eqn:Hm.
    + intros [= <-]. eapply os_mkdir_grows; eassumption.
    + destruct e as [| | | |[] x|];
        try (destruct (Fs.is_dir f p); [|discriminate]; intros [= <-];
             apply fs_grows_refl).
      destruct (bool_decide (Pathlib.parent p = p)); [discriminate|].
      destruct (Fs.mkdir_go n f (Pathlib.parent p)) as [f1|e1] eqn:H1; [|discriminate].
      pose proof (IH _ _ _ H1) as Hg1.
      destruct (Fs.os_mkdir f1 p) as [f2|e2] eqn:H2.
      * intros [= <-]. eapply fs_grows_trans; [exact Hg1|].
        eapply os_mkdir_grows; eassumption.
      * destruct e2 as [| | | |[] y|]; try discriminate;
          (destruct (Fs.is_dir f1 p); [|discriminate]); intros [= <-]; exact Hg1.
Qed.

Lemma mkdir_parents_grows f p f' : Fs.mkdir_parents f p = Ok f' -> fs_grows f f'.
Proof. apply mkdir_go_grows. Qed.

Lemma write_file_grows f p c f' : Fs.write_file f p c = Ok f' -> fs_grows f f'.
Proof.
  unfold Fs.write_file. destruct (Fs.is_dir f p) eqn:Hd; [discriminate|].
  destruct (Fs.under_file f p); [discriminate|].
  destruct (Fs.is_dir f (Pathlib.parent p)); [|discriminate].
  intros [= <-]. apply fs_grows_overwrite.
  unfold Fs.is_dir in Hd. destruct (Pathlib.tail p); [discriminate|].
  apply bool_decide_eq_false_1 in Hd. exact Hd.
Qed.

Section OnlyAdds.

Lemma only_adds_same {A} (m : M A) :
  (forall w, files (fst (m w)) = files w) -> only_adds m.
Proof. intros H w. rewrite H. apply fs_grows_refl. Qed.

Lemma only_adds_ret {A} (a : A) : only_adds (ret a).
Proof. apply only_adds_same. reflexivity. Qed.

Lemma only_adds_throw {A} e : only_adds (@throw A e).
Proof. apply only_adds_same. reflexivity. Qed.

Lemma only_adds_diverge {A} : only_adds (@diverge A).
Proof. apply only_adds_same. reflexivity. Qed.

Lemma only_adds_lift {A} (r : result A) : only_adds (lift r).
Proof. destruct r; [apply only_adds_ret | apply only_adds_throw]. Qed.

Lemma only_adds_bind {A B} (m : M A) (k : A -> M B) :
  only_adds m -> (forall a, only_adds (k a)) -> only_adds (bind m k).
Proof.
  intros Hm Hk w. unfold bind. specialize (Hm w).
  destruct (m w) as [w' [a|e|]]; simpl in *; try exact Hm.
  eapply fs_grows_trans; [exact Hm | apply Hk].
Qed.

Lemma only_adds_try {A} (m : M A) (h : exn -> M A) :
  only_adds m -> (forall e, only_adds (h e)) -> only_adds (try_except m h).
Proof.
  intros Hm Hh w. unfold try_except. specialize (Hm w).
  destruct (m w) as [w' [a|e|]]; simpl in *; try exact Hm.
  eapply fs_grows_trans; [exact Hm | apply Hh].
Qed.

Lemma only_adds_log msg c : only_adds (log_error msg c).
Proof. apply only_adds_same. reflexivity. Qed.

Lemma only_adds_on_files op :
  (forall f f', op f = Ok f' -> fs_grows f f') -> only_adds (on_files op).
Proof.
  intros H w. unfold on_files. destruct (op (files w)) as [f'|e] eqn:Hop; simpl.
  - apply H. exact Hop.
  - apply fs_grows_refl.
Qed.

Lemma only_adds_now E : only_adds (now E).
Proof. apply only_adds_same. reflexivity. Qed.

Lemma only_adds_draw E a b : only_adds (draw E a b).
Proof. apply only_adds_same. reflexivity. Qed.

Lemma only_adds_fs_list E p : only_adds (call_fs_list E p).
Proof.
  apply only_adds_bind; [apply only_adds_same; reflexivity|].
  intros _. apply only_adds_lift.
Qed.

Lemma only_adds_download_info E p : only_adds (call_download_info E p).
Proof.
  apply only_adds_bind; [apply only_adds_same; reflexivity|].
  intros _. apply only_adds_lift.
Qed.

Lemma only_adds_http_get E u : only_adds (call_http_get E u).
Proof.
  apply only_adds_bind; [apply only_adds_same; reflexivity|].
  intros _. apply only_adds_lift.
Qed.

Lemma only_adds_mkdir p : only_adds (on_files (fun f => Fs.mkdir_parents f p)).
Proof. apply only_adds_on_files. intros f f'. apply mkdir_parents_grows. Qed.

Lemma only_adds_write p c : only_adds (on_files (fun f => Fs.write_file f p c)).
Proof. apply only_adds_on_files. intros f f'. apply write_file_grows. Qed.

Lemma only_adds_ensure_dir p : only_adds (ensure_dir p).
Proof.
  intros w. unfold ensure_dir. destruct (Fs.exists_ (files w) p).
  - apply only_adds_ret.
  - apply only_adds_mkdir.
Qed.

Lemma only_adds_auth_url E self path : only_adds (_generate_auth_url E self path).
Proof.
  unfold _generate_auth_url.
  destruct (Py.falsy_opt (_uid self) || Py.falsy_opt (_secret_key self)).
  { apply only_adds_bind; [apply only_adds_log | intros; apply only_adds_throw]. }
  destruct (Py.falsy_opt (_custom_domain self)).
  { apply only_adds_bind; [apply only_adds_log | intros; apply only_adds_throw]. }
  apply only_adds_try.
  - apply only_adds_bind; [apply only_adds_now|]. intros t.
    apply only_adds_bind; [apply only_adds_draw|]. intros r.
    apply only_adds_bind; [apply only_adds_lift|]. intros _. apply only_adds_ret.
  - intros e. apply only_adds_bind; [apply only_adds_log|]. intros _. apply only_adds_throw.
Qed.

Lemma only_adds_materialize E self media data local pan x :
  only_adds (materialize E self media data local pan x).
Proof.
  unfold materialize.
  apply only_adds_bind; [apply only_adds_lift|]. intros fp.
  apply only_adds_bind; [apply only_adds_mkdir|]. intros _.
  destruct (classify _ _ _ _ _).
  - apply only_adds_bind; [apply only_adds_auth_url|]. intros u. apply only_adds_write.
  - apply only_adds_bind; [apply only_adds_download_info|]. intros u.
    apply only_adds_bind; [apply only_adds_http_get|]. intros b. apply only_adds_write.
  - apply only_adds_ret.
Qed.

Lemma only_adds_sync_entry E self m media data local pan x :
  only_adds (sync_entry E self m media data local pan x).
Proof.
  unfold sync_entry. apply only_adds_try.
  - destruct m; [apply only_adds_materialize|].
    destruct (update_time x <=? _last_sync_time self);
      [apply only_adds_ret | apply only_adds_materialize].
  - intros e. apply only_adds_log.
Qed.

Lemma only_adds_for_events body l e :
  (forall x, only_adds (body x)) -> only_adds (for_events body l e).
Proof.
  intros Hb. induction l as [|[p|x] l IH]; simpl.
  - destruct e; [apply only_adds_ret | apply only_adds_throw | apply only_adds_diverge].
  - apply only_adds_bind; [apply only_adds_same; reflexivity | intros; exact IH].
  - apply only_adds_bind; [apply Hb | intros; exact IH].
Qed.

Lemma only_adds_resolve_parts E parts : forall pid,
  only_adds (resolve_parts E parts pid).
Proof.
  induction parts as [|part rest IH]; intros pid; simpl; [apply only_adds_ret|].
  destruct (Py.falsy part); [apply IH|].
  apply only_adds_bind; [apply only_adds_fs_list|]. intros resp.
  destruct (find_dir_entry part (InfoList resp)); [apply IH | apply only_adds_throw].
Qed.

Lemma only_adds_sync_pair E fuel self m media data path :
  only_adds (sync_pair E fuel self m media data path).
Proof.
  unfold sync_pair. destruct (Py.falsy (Unicode.strip path)); [apply only_adds_ret|].
  destruct (Py.split1 "#" path) as [|a [|b [|c l]]]; try apply only_adds_log.
  apply only_adds_bind; [apply only_adds_ensure_dir|]. intros _.
  apply only_adds_try; [|intros e; apply only_adds_log].
  unfold resolve_and_walk. destruct (Py.falsy (Py.strip_slash b)); [apply only_adds_log|].
  apply only_adds_bind; [apply only_adds_resolve_parts|]. intros pid.
  unfold for_run. apply only_adds_for_events. intros x. apply only_adds_sync_entry.
Qed.

Lemma only_adds_for_paths E fuel self m media data paths :
  only_adds (for_paths E fuel self m media data paths).
Proof.
  induction paths as [|p rest IH]; simpl; [apply only_adds_ret|].
  apply only_adds_bind; [apply only_adds_sync_pair | intros; exact IH].
Qed.

Lemma only_adds_prepare E self : only_adds (prepare E self).
Proof. apply only_adds_same. intros w. rewrite prepare_world. reflexivity. Qed.

Lemma only_adds_date_of E t : only_adds (date_of E t).
Proof.
  unfold date_of. destruct (fromtimestamp E t);
    [apply only_adds_throw | apply only_adds_ret].
Qed.

Lemma only_adds_work E fuel self m : only_adds (work E fuel self m).
Proof.
  unfold work. apply only_adds_bind; [apply only_adds_prepare|]. intros exts.
  destruct m.
  - apply only_adds_bind; [apply only_adds_for_paths|]. intros _. apply only_adds_now.
  - apply only_adds_bind; [apply only_adds_date_of|]. intros _.
    apply only_adds_bind; [apply only_adds_now|]. intros t.
    apply only_adds_bind; [apply only_adds_for_paths|]. intros _. apply only_adds_ret.
Qed.

Lemma only_adds_persist E self : only_adds (persist E self).
Proof.
  unfold persist, update_config.
  apply only_adds_bind; [|intros; apply only_adds_date_of].
  apply only_adds_bind; [apply only_adds_lift|]. intros _.
  apply only_adds_bind; [apply only_adds_lift|]. intros s.
  apply only_adds_bind; [apply only_adds_lift|]. intros _.
  apply only_adds_same. reflexivity.
Qed.

Lemma only_adds_run_pass E fuel self m w :
  fs_grows (files w) (files (snd (fst (run_pass E fuel self m w)))).
Proof.
  unfold run_pass. pose proof (only_adds_work E fuel self m w) as Hw.
  destruct (work E fuel self m w) as [w1 [t|e|]]; cbn [fst] in Hw; [|exact Hw..].
  pose proof (only_adds_persist E (set_last_sync_time self t) w1) as Hp.
  destruct (persist E (set_last_sync_time self t) w1) as [w2 [[]|e|]];
    cbn [fst snd] in *; (eapply fs_grows_trans; [exact Hw | exact Hp]).
Qed.

Lemma only_adds_helper_entry E H self target pan x :
  only_adds (FullSyncStrmHelper.generate_entry E H self target pan x).
Proof.
  unfold FullSyncStrmHelper.generate_entry.
  apply only_adds_bind; [apply only_adds_lift|]. intros fp.
  destruct (FullSyncStrmHelper.classify self fp).
  - apply only_adds_bind; [apply only_adds_mkdir|]. intros _.
    apply only_adds_bind; [apply only_adds_write|]. intros _.
    apply only_adds_same. reflexivity.
  - apply only_adds_bind; [apply only_adds_download_info|]. intros u.
    destruct (Py.falsy u); [apply only_adds_log|].
    apply only_adds_bind; [apply only_adds_mkdir|]. intros _.
    apply only_adds_bind; [apply only_adds_http_get|]. intros b.
    apply only_adds_bind; [apply only_adds_write|]. intros _.
    apply only_adds_same. reflexivity.
  - apply only_adds_ret.
Qed.

Lemma only_adds_helper_paths E H fuel self paths :
  only_adds (FullSyncStrmHelper.generate_paths E H fuel self paths).
Proof.
  induction paths as [|path rest IH]; simpl; [apply only_adds_ret|].
  destruct (Py.falsy path); [exact IH|].
  destruct (Py.split1 "#" path) as [|a [|b [|c l]]]; try apply only_adds_throw.
  apply only_adds_bind.
  { apply only_adds_try.
    - apply only_adds_bind; [apply only_adds_lift | intros; apply only_adds_ret].
    - intros e. apply only_adds_bind; [apply only_adds_log | intros; apply only_adds_ret]. }
  intros [pid|]; [|apply only_adds_ret].
  apply only_adds_bind.
  { apply only_adds_try.
    - apply only_adds_bind; [|intros; apply only_adds_ret].
      unfold for_run. apply only_adds_for_events. intros x.
      apply only_adds_helper_entry.
    - intros e. apply only_adds_bind; [apply only_adds_log | intros; apply only_adds_ret]. }
  intros [|]; [exact IH | apply only_adds_ret].
Qed.

End OnlyAdds.

(** X12. Neither pass of the plugin, nor a run of the helper, removes
    anything from the local files, whatever the drive answers, however
    the pass ends and however long it runs: every path that exists
    before still exists after, and every directory is still a
    directory. Only the content of a regular file can change. *)
Theorem passes_only_add_files (E : env) (fuel : nat) (self : plugin) (w : world)
    (H : FullSyncStrmHelper.host) (helper : FullSyncStrmHelper.t) (paths : string) :
  fs_grows (files w) (files (snd (fst (full_sync_strm_files E fuel self w))))
  /\ fs_grows (files w) (files (snd (fst (incremental_sync_files E fuel self w))))
  /\ fs_grows (files w)
       (files (fst (FullSyncStrmHelper.generate_strm_files E H fuel helper paths w))).
Proof.
  assert (Hfull : forall w0,
             fs_grows (files w0)
               (files (snd (fst (full_sync_strm_files E fuel self w0))))).
  { intros w0. unfold full_sync_strm_files.
    destruct (guard Full self); [apply fs_grows_refl | apply only_adds_run_pass]. }
  split; [apply Hfull|]. split.
  - unfold incremental_sync_files.
    destruct (guard Incremental self); [apply fs_grows_refl|].
    destruct (_last_sync_time self =? 0); [|apply only_adds_run_pass].
    specialize (Hfull w).
    destruct (full_sync_strm_files E fuel self w) as [[s' w'] []]; exact Hfull.
  - apply only_adds_helper_paths.
Qed.

(** ** [has_prefix] and [__get_media_path] *)

Lemma has_prefix_spec a b :
  has_prefix a b = true
  <-> exists rest, parts (Pathlib.Path a) = parts (Pathlib.Path b) ++ rest.
Proof.
  unfold has_prefix. cbv zeta.
  set (f := parts (Pathlib.Path a)). set (p := parts (Pathlib.Path b)).
  split.
  - destruct (Nat.ltb_spec (length f) (length p)) as [|Hle]; [discriminate|].
    intros H. apply bool_decide_eq_true_1 in H.
    exists (drop (length p) f). rewrite <- H at 1. symmetry. apply take_drop.
  - intros [rest Hf]. rewrite Hf.
    destruct (Nat.ltb_spec (length (p ++ rest)) (length p)) as [Hlt|_].
    + rewrite length_app in Hlt. lia.
    + apply bool_decide_eq_true_2. apply take_app_length.
Qed.

Lemma split_no_sep sep s :
  Forall (fun x => Urllib.contains sep x = false) (Py.split sep s).
Proof.
  induction s as [|c s IH]; simpl; [repeat constructor|].
  destruct (Py.ascii_eqb c sep) eqn:Hc; [constructor; [reflexivity | exact IH]|].
  destruct (Py.split sep s) as [|x l]; [repeat constructor; simpl; rewrite Hc; reflexivity|].
  inversion IH as [|? ? Hx Hl]; subst. constructor; [|exact Hl].
  simpl. rewrite Hc. exact Hx.
Qed.

Lemma Path_tail_no_slash s :
  Forall (fun x => Urllib.contains "/" x = false) (Pathlib.tail (Pathlib.Path s)).
Proof.
  unfold Pathlib.Path. destruct (Pathlib.splitroot s) as [rt rel]. simpl.
  pose proof (split_no_sep "/" rel) as H. induction H as [|x l Hx _ IH]; simpl.
  - constructor.
  - destruct (Pathlib.keep_segment x); [constructor; assumption | exact IH].
Qed.

Lemma Path_root_cases s :
  Pathlib.root (Pathlib.Path s) = ""
  \/ Urllib.contains "/" (Pathlib.root (Pathlib.Path s)) = true.
Proof.
  rewrite Path_root.
  destruct s as [|c [|c1 [|c2 r]]]; simpl; auto;
    repeat match goal with |- context [Py.is_slash ?x] => destruct (Py.is_slash x) end;
    simpl; auto.
Qed.

(** Two paths with the same parts are the same path. *)
Lemma parts_inj a b :
  parts (Pathlib.Path a) = parts (Pathlib.Path b) -> Pathlib.Path a = Pathlib.Path b.
Proof.
  unfold parts.
  pose proof (Path_tail_no_slash a) as Ha. pose proof (Path_tail_no_slash b) as Hb.
  destruct (Path_root_cases a) as [Hra|Hra], (Path_root_cases b) as [Hrb|Hrb];
    destruct (Pathlib.Path a) as [ra ta], (Pathlib.Path b) as [rb tb]; simpl in *.
  - subst ra rb. simpl. intros ->. reflexivity.
  - subst ra. destruct rb as [|c rb]; [discriminate|]. simpl. intros ->.
    inversion Ha as [|? ? Hx _]; subst. rewrite Hx in Hrb. discriminate.
  - subst rb. destruct ra as [|c ra]; [discriminate|]. simpl. intros <-.
    inversion Hb as [|? ? Hx _]; subst. rewrite Hx in Hra. discriminate.
  - destruct ra as [|c ra]; [discriminate|]. destruct rb as [|d rb]; [discriminate|].
    simpl. intros [= -> -> ->]. reflexivity.
Qed.

(** X13. [has_prefix] orders the paths as pathlib reads them: every path has
    itself as a prefix, a prefix of a prefix is a prefix, and two paths
    that are prefixes of each other are the same path. *)
Theorem has_prefix_order :
  (forall a, has_prefix a a = true)
  /\ (forall a b c,
        has_prefix a b = true -> has_prefix b c = true -> has_prefix a c = true)
  /\ (forall a b,
        has_prefix a b = true -> has_prefix b a = true ->
        Pathlib.Path a = Pathlib.Path b).
Proof.
  split; [|split].
  - intros a. apply has_prefix_spec. exists []. rewrite app_nil_r. reflexivity.
  - intros a b c Hab Hbc. apply has_prefix_spec in Hab as [r1 H1].
    apply has_prefix_spec in Hbc as [r2 H2]. apply has_prefix_spec.
    exists (r2 ++ r1). rewrite H1, H2, app_assoc. reflexivity.
  - intros a b Hab Hba. apply has_prefix_spec in Hab as [r1 H1].
    apply has_prefix_spec in Hba as [r2 H2]. apply parts_inj.
    assert (r1 = []) as ->.
    { apply (f_equal (@length string)) in H1, H2. rewrite length_app in H1, H2.
      destruct r1; [reflexivity | simpl in *; lia]. }
    rewrite app_nil_r in H1. exact H1.
Qed.

(** The prefix goes by whole segments of the normalised paths, not by
    characters. *)
Example has_prefix_examples :
  has_prefix "/media/movies/A.mkv" "/media" = true
  /\ has_prefix "/media2/A.mkv" "/media" = false
  /\ has_prefix "/media//movies/./A.mkv" "/media/movies/" = true
  /\ has_prefix "media/A.mkv" "/media" = false
  /\ has_prefix "/media/A.mkv" "" = true
  /\ has_prefix "//media/A.mkv" "/" = false.
Proof. vm_compute. auto 10. Qed.

Lemma split1_cases sep s :
  (Urllib.contains sep s = false /\ Py.split1 sep s = [s])
  \/ (exists a b, Py.split1 sep s = [a; b]
                  /\ s = a +:+ String sep b /\ Urllib.contains sep a = false).
Proof.
  induction s as [|c s IH]; [left; split; reflexivity|].
  simpl. destruct (Py.ascii_eqb c sep) eqn:Hc.
  - unfold Py.ascii_eqb in Hc. apply bool_decide_eq_true_1 in Hc. subst c.
    right. exists "", s. repeat split; reflexivity.
  - simpl.
    destruct IH as [[Hn ->] | (a & b & -> & -> & Ha)].
    + left. split; [exact Hn | reflexivity].
    + right. exists (String c a), b. repeat split. simpl. rewrite Hc. exact Ha.
Qed.

Lemma get_media_path_lines_spec media_path lines :
  match get_media_path_lines lines media_path with
  | Ok (Some (a, b)) =>
      exists pre post,
        lines = pre ++ (a +:+ "#" +:+ b) :: post
        /\ Forall (passed_over media_path) pre
        /\ Urllib.contains "#" a = false
        /\ has_prefix media_path b = true
  | Ok None => Forall (passed_over media_path) lines
  | Raise e =>
      e = IndexError "list index out of range"
      /\ exists pre line post,
           lines = pre ++ line :: post
           /\ Forall (passed_over media_path) pre
           /\ line <> "" /\ Urllib.contains "#" line = false
  end.
Proof.
  induction lines as [|line rest IH]; [constructor|].
  cbn [get_media_path_lines]. unfold Py.falsy, Py.string_eqb.
  destruct (bool_decide_reflect (line = "")) as [->|Hne].
  { destruct (get_media_path_lines rest media_path) as [[[a b]|]|e].
    - destruct IH as (pre & post & -> & Hpre & Ha & Hb).
      exists ("" :: pre), post. repeat split; auto. constructor; [left; reflexivity|auto].
    - constructor; [left; reflexivity | exact IH].
    - destruct IH as (-> & pre & l & post & -> & Hpre & Hl & Hc).
      split; [reflexivity|]. exists ("" :: pre), l, post. repeat split; auto.
      constructor; [left; reflexivity|auto]. }
  destruct (split1_cases "#" line) as [[Hn ->] | (a & b & -> & -> & Ha)].
  { split; [reflexivity|]. exists [], line, rest. repeat split; auto. }
  destruct (has_prefix media_path b) eqn:Hp.
  { exists [], rest. repeat split; auto. }
  assert (Hskip : passed_over media_path (a +:+ String "#" b)).
  { right. exists a, b. auto. }
  destruct (get_media_path_lines rest media_path) as [[[a' b']|]|e].
  - destruct IH as (pre & post & -> & Hpre & Ha' & Hb').
    exists ((a +:+ String "#" b) :: pre), post. repeat split; auto.
  - constructor; assumption.
  - destruct IH as (-> & pre & l & post & -> & Hpre & Hl & Hc).
    split; [reflexivity|]. exists ((a +:+ String "#" b) :: pre), l, post.
    repeat split; auto.
Qed.

(** X14. [__get_media_path] answers with the first line [local#remote] whose
    remote part is a prefix of the media path, the lines before it being
    empty or pairs that do not match; without such a line it answers
    [(False, None, None)]. A line without [#] that it reaches raises
    [IndexError]: unlike the passes, it does not check how many parts the
    cut gave. *)
Theorem get_media_path_first_match (paths media_path : string) :
  match __get_media_path paths media_path with
  | Ok (Some (a, b)) =>
      exists pre post,
        Py.split "010" paths = pre ++ (a +:+ "#" +:+ b) :: post
        /\ Forall (passed_over media_path) pre
        /\ Urllib.contains "#" a = false
        /\ has_prefix media_path b = true
  | Ok None => Forall (passed_over media_path) (Py.split "010" paths)
  | Raise e =>
      e = IndexError "list index out of range"
      /\ exists pre line post,
           Py.split "010" paths = pre ++ line :: post
           /\ Forall (passed_over media_path) pre
           /\ line <> "" /\ Urllib.contains "#" line = false
  end.
Proof. apply get_media_path_lines_spec. Qed.

(** Two configured pairs: the media path is under the second; a line
    without [#] before the match raises. *)
Example get_media_path_examples :
  __get_media_path ("/strm/tv#/media/tv" +:+ String "010" "/strm/movies#/media/movies")
    "/media/movies/A.mkv"
  = Ok (Some ("/strm/movies", "/media/movies"))
  /\ __get_media_path ("/strm/tv#/media/tv" +:+ String "010" "") "/media/movies/A.mkv"
     = Ok None
  /\ __get_media_path ("/strm/tv" +:+ String "010" "/strm/movies#/media/movies")
       "/media/movies/A.mkv"
     = Raise (IndexError "list index out of range").
Proof. vm_compute. auto. Qed.

(** ** The plugin object *)

(** *** [int] and [str] *)

Lemma digit_cases (d : Z) : 0 <= d < 10 ->
  d = 0 \/ d = 1 \/ d = 2 \/ d = 3 \/ d = 4 \/ d = 5 \/ d = 6 \/ d = 7 \/ d = 8 \/ d = 9.
Proof. lia. Qed.

Lemma digit_char_facts d : 0 <= d < 10 ->
  Plugin.is_digit (Py.digit_char d) = true
  /\ Plugin.digit_value (Py.digit_char d) = d
  /\ Plugin.is_c_space (Py.digit_char d) = false
  /\ Urllib.is_ascii (Py.digit_char d) = true
  /\ Py.ascii_eqb (Py.digit_char d) "+" = false
  /\ Py.ascii_eqb (Py.digit_char d) "-" = false
  /\ Py.ascii_eqb (Py.digit_char d) "_" = false.
Proof.
  intros H. destruct (digit_cases d H) as [->|[->|[->|[->|[->|[->|[->|[->|[->| ->]]]]]]]]];
    repeat split; reflexivity.
Qed.

Lemma scan_all_digits s : forall u a c,
  all_chars Plugin.is_digit s = true -> s <> "" ->
  Plugin.scan_digits u a c s = Some (digits_value a s, c + Z.of_nat (Py.len s)).
Proof.
  induction s as [|x s IH]; intros u a c Hd Hne; [contradiction|].
  cbn [all_chars] in Hd. apply andb_true_iff in Hd as [Hx Hs].
  cbn [Plugin.scan_digits digits_value Py.len]. rewrite Hx.
  destruct s as [|y s'].
  - reflexivity.
  - rewrite IH by (auto; discriminate). cbn [Py.len]. f_equal. f_equal. lia.
Qed.

Lemma digits_go_digits : forall f n acc,
  0 <= n -> all_chars Plugin.is_digit acc = true ->
  all_chars Plugin.is_digit (Py.digits_go f n acc) = true.
Proof.
  induction f as [|f IH]; intros n acc Hn Hacc; [exact Hacc|].
  cbn [Py.digits_go].
  assert (Hd : all_chars Plugin.is_digit (String (Py.digit_char (n mod 10)) acc) = true).
  { cbn [all_chars]. rewrite Hacc.
    destruct (digit_char_facts (n mod 10)) as [-> _]; [|reflexivity].
    apply Z.mod_pos_bound. lia. }
  destruct (n <? 10); [exact Hd|].
  apply IH; [apply Z.div_pos; lia | exact Hd].
Qed.

Lemma digits_go_nonempty : forall f n acc, Py.digits_go (S f) n acc <> "".
Proof.
  induction f as [|f IH]; intros n acc; cbn [Py.digits_go].
  - destruct (n <? 10); discriminate.
  - destruct (n <? 10); [discriminate|]. apply IH.
Qed.

Lemma digits_go_value : forall f n acc a,
  0 <= n < 2 ^ Z.of_nat (S f) ->
  exists d, digits_value a (Py.digits_go (S f) n acc)
            = digits_value (a * 10 ^ d + n) acc /\ 0 <= d.
Proof.
  induction f as [|f IH]; intros n acc a Hn.
  - cbn [Py.digits_go]. change (2 ^ Z.of_nat 1) with 2 in Hn.
    replace (n <? 10) with true by (symmetry; apply Z.ltb_lt; lia).
    exists 1. split; [|lia]. cbn [digits_value].
    destruct (digit_char_facts (n mod 10)) as (_ & -> & _);
      [apply Z.mod_pos_bound; lia|].
    rewrite Z.mod_small by lia. f_equal. lia.
  - cbn [Py.digits_go]. destruct (Z.ltb_spec n 10) as [Hlt|Hge].
    + exists 1. split; [|lia]. cbn [digits_value].
      destruct (digit_char_facts (n mod 10)) as (_ & -> & _);
        [apply Z.mod_pos_bound; lia|].
      rewrite Z.mod_small by lia. f_equal. lia.
    + destruct (IH (n / 10) (String (Py.digit_char (n mod 10)) acc) a)
        as (d & Hv & Hd).
      { split; [apply Z.div_pos; lia|].
        apply Z.div_lt_upper_bound; [lia|].
        rewrite Nat2Z.inj_succ, Z.pow_succ_r in Hn by lia. lia. }
      exists (d + 1). split; [|lia].
      change (Py.digits_go (S f)) with (Py.digits_go (S f)) in Hv.
      cbn [Py.digits_go] in Hv |- *. rewrite Hv. cbn [digits_value].
      destruct (digit_char_facts (n mod 10)) as (_ & -> & _);
        [apply Z.mod_pos_bound; lia|].
      f_equal. rewrite Z.pow_add_r by lia.
      pose proof (Z.div_mod n 10 ltac:(lia)). lia.
Qed.

Lemma str_of_nonneg_spec n : 0 <= n ->
  all_chars Plugin.is_digit (Py.str_of_nonneg n) = true
  /\ Py.str_of_nonneg n <> ""
  /\ digits_value 0 (Py.str_of_nonneg n) = n.
Proof.
  intros Hn. unfold Py.str_of_nonneg. split; [|split].
  - apply digits_go_digits; [exact Hn | reflexivity].
  - apply digits_go_nonempty.
  - destruct (digits_go_value (Z.to_nat (Z.log2 n)) n "" 0) as (d & Hv & _).
    + split; [exact Hn|]. rewrite Nat2Z.inj_succ, Z2Nat.id by apply Z.log2_nonneg.
      destruct (Z.eq_dec n 0) as [->|Hne]; [reflexivity|].
      apply Z.log2_spec. lia.
    + rewrite Hv. reflexivity.
Qed.

Lemma all_digits_head s :
  all_chars Plugin.is_digit s = true -> s <> "" ->
  exists c r, s = String c r /\ Plugin.is_digit c = true.
Proof.
  destruct s as [|c r]; [contradiction|]. cbn [all_chars]. intros H _.
  apply andb_true_iff in H as [Hc _]. eauto.
Qed.

Lemma digit_not_special c : Plugin.is_digit c = true ->
  Plugin.is_c_space c = false /\ Urllib.is_ascii c = true
  /\ Py.ascii_eqb c "+" = false /\ Py.ascii_eqb c "-" = false
  /\ Py.ascii_eqb c "_" = false.
Proof.
  unfold Plugin.is_digit. intros H. apply andb_true_iff in H as [H1 H2].
  apply Nat.leb_le in H1, H2.
  assert (Hc : c = ascii_of_nat (nat_of_ascii c)) by (symmetry; apply ascii_nat_embedding).
  assert (Hd : 0 <= Z.of_nat (nat_of_ascii c) - 48 < 10) by lia.
  assert (c = Py.digit_char (Z.of_nat (nat_of_ascii c) - 48)) as ->.
  { unfold Py.digit_char. rewrite Hc at 1. f_equal. lia. }
  destruct (digit_char_facts _ Hd) as (_ & _ & ? & ? & ? & ? & ?). auto.
Qed.

Lemma rstrip_all_digits s :
  all_chars Plugin.is_digit s = true -> Py.rstrip_by Plugin.is_c_space s = s.
Proof.
  induction s as [|c s IH]; [reflexivity|]. cbn [all_chars]. intros H.
  apply andb_true_iff in H as [Hc Hs]. simpl. rewrite (IH Hs).
  destruct (digit_not_special c Hc) as (-> & _). destruct s; reflexivity.
Qed.

Lemma all_digits_ascii s :
  all_chars Plugin.is_digit s = true -> all_chars Urllib.is_ascii s = true.
Proof.
  induction s as [|c s IH]; [reflexivity|]. cbn [all_chars]. intros H.
  apply andb_true_iff in H as [Hc Hs].
  destruct (digit_not_special c Hc) as (_ & -> & _). rewrite (IH Hs). reflexivity.
Qed.

Lemma int_of_ascii_digits P s negative :
  all_chars Plugin.is_digit s = true -> s <> "" ->
  Plugin.too_many P (Z.of_nat (Py.len s)) = false ->
  Plugin.int_of_ascii P (if negative : bool then String "-" s else s)
  = Ok (if negative then - digits_value 0 s else digits_value 0 s).
Proof.
  intros Hd Hne Hlim.
  destruct (all_digits_head s Hd Hne) as (c & r & Hs & Hc).
  destruct (digit_not_special c Hc) as (Hsp & _ & Hplus & Hminus & Hus).
  unfold Plugin.int_of_ascii.
  assert (Hscan : Plugin.scan_digits false 0 0 s
                  = Some (digits_value 0 s, Z.of_nat (Py.len s))).
  { rewrite scan_all_digits by assumption. reflexivity. }
  destruct negative.
  - cbn [Py.lstrip_by]. change (Plugin.is_c_space "-") with false. cbv iota.
    change (Py.ascii_eqb "-" "+") with false. change (Py.ascii_eqb "-" "-") with true.
    cbv iota. rewrite (rstrip_all_digits s Hd), Hscan, Hlim.
    subst s. rewrite Hus. reflexivity.
  - replace (Py.lstrip_by Plugin.is_c_space s) with s
      by (subst s; cbn [Py.lstrip_by]; rewrite Hsp; reflexivity).
    replace (match s with
             | "" => (false, s)
             | String c0 r0 =>
                 if Py.ascii_eqb c0 "+" then (false, r0)
                 else if Py.ascii_eqb c0 "-" then (true, r0) else (false, s)
             end) with (false, s)
      by (subst s; rewrite Hplus, Hminus; reflexivity).
    rewrite (rstrip_all_digits s Hd), Hscan, Hlim.
    subst s. rewrite Hus. reflexivity.
Qed.

(** What [str] makes of an [int], [int] reads back. *)
Lemma int_of_str_of_int P n s :
  Plugin.str_of_int P n = Ok s -> Plugin.int_of_str P s = Ok n /\ s <> "".
Proof.
  unfold Plugin.str_of_int, format_int.
  destruct (digits_over _ _) eqn:Hlim; [discriminate|]. intros [= <-].
  destruct (str_of_nonneg_spec (Z.abs n) (Z.abs_nonneg n)) as (Hd & Hne & Hv).
  unfold Plugin.int_of_str, Py.str_of_int.
  destruct (Z.ltb_spec n 0) as [Hneg|Hpos].
  - replace (- n) with (Z.abs n) by lia. split; [|discriminate].
    cbn [all_chars]. change (Urllib.is_ascii "-") with true.
    rewrite (all_digits_ascii _ Hd). cbn [andb].
    pose proof (int_of_ascii_digits P _ true Hd Hne Hlim) as Hi. cbv iota in Hi.
    rewrite Hi, Hv. f_equal. lia.
  - assert (Ha : Z.abs n = n) by lia. rewrite Ha in *. split; [|exact Hne].
    rewrite (all_digits_ascii _ Hd).
    pose proof (int_of_ascii_digits P _ false Hd Hne Hlim) as Hi. cbv iota in Hi.
    rewrite Hi, Hv. reflexivity.
Qed.

(** X15. The numbers of the configuration are stored as text
    ([str(self._last_sync_time)] and the like) and read back with
    [int(...)]: what was stored is what is read, for every number that
    could be stored, negative ones included. *)
Theorem int_reads_what_str_wrote (P : Plugin.python) (n : Z) (s : string) :
  Plugin.str_of_int P n = Ok s ->
  Plugin.py_int P (Plugin.CStr s) = Ok n /\ Plugin.truthy (Plugin.CStr s) = true.
Proof.
  intros H. destruct (int_of_str_of_int P n s H) as [Hi Hne]. split; [exact Hi|].
  destruct s; [contradiction | reflexivity].
Qed.

Lemma int_reads_what_str_wrote_witness :
  Plugin.str_of_int PluginExample.python312 (-1700000000) = Ok "-1700000000"%string
  /\ Plugin.py_int PluginExample.python312 (Plugin.CStr "-1700000000")
     = Ok (-1700000000)
  /\ Plugin.truthy (Plugin.CStr "-1700000000") = true.
Proof.
  split; [vm_compute; reflexivity|].
  apply (int_reads_what_str_wrote PluginExample.python312 (-1700000000)).
  vm_compute. reflexivity.
Defined.

(** *** What a run of the helper raises *)

Lemma contains_pair c a b : Urllib.contains c (a +:+ String c b) = true.
Proof.
  rewrite contains_app. simpl.
  replace (Py.ascii_eqb c c) with true
    by (symmetry; apply bool_decide_eq_true_2; reflexivity).
  rewrite orb_true_r. reflexivity.
Qed.

Lemma helper_paths_outcome E H fuel self lines : forall w,
  match FullSyncStrmHelper.generate_paths E H fuel self lines w with
  | (_, Throw e) =>
      e = IndexError "list index out of range"
      /\ exists pre line post,
           lines = pre ++ line :: post
           /\ Forall cut_line pre
           /\ line <> "" /\ Urllib.contains "#" line = false
  | (w', Done false) =>
      exists e,
        last (log w')
        = Some {| message := "【全量STRM生成】网盘媒体目录 ID 获取失败"; cause := Some e |}
        \/ last (log w')
           = Some {| message := "【全量STRM生成】全量生成 STRM 文件失败"; cause := Some e |}
  | (_, Done true) => Forall cut_line lines
  | (_, Diverge) => True
  end.
Proof.
  induction lines as [|path rest IH]; intros w; [simpl; constructor|].
  cbn [FullSyncStrmHelper.generate_paths].
  destruct (Py.falsy path) eqn:Hf.
  { apply bool_decide_eq_true_1 in Hf. subst path. specialize (IH w).
    destruct (FullSyncStrmHelper.generate_paths E H fuel self rest w) as [w' [[|]|e|]].
    - constructor; [left; reflexivity | exact IH].
    - exact IH.
    - destruct IH as [-> (pre & line & post & -> & Hpre & Hne & Hc)].
      split; [reflexivity|]. exists ("" :: pre), line, post.
      repeat split; try assumption. constructor; [left; reflexivity | exact Hpre].
    - exact I. }
  assert (Hne : path <> "").
  { intros ->. discriminate Hf. }
  destruct (split1_cases "#" path) as [[Hn ->] | (a & b & -> & Hab & Ha)].
  { cbv [throw]. split; [reflexivity|]. exists [], path, rest.
    repeat split; try assumption. constructor. }
  assert (Hcut : cut_line path).
  { right. rewrite Hab. apply contains_pair. }
  unfold bind at 1. unfold try_except at 1. unfold bind at 1.
  destruct (FullSyncStrmHelper.get_file_id H (Pathlib.Path b)) as [pid|e0]; cbn.
  2:{ exists e0. left. rewrite last_snoc. reflexivity. }
  unfold bind at 1. unfold try_except at 1. unfold bind at 1.
  destruct (for_run (FullSyncStrmHelper.generate_entry E H self a b)
              (iterdir (client E) true fuel pid) w) as [w1 [[]|e1|]]; cbn.
  - specialize (IH w1).
    destruct (FullSyncStrmHelper.generate_paths E H fuel self rest w1) as [w' [[|]|e|]].
    + constructor; assumption.
    + exact IH.
    + destruct IH as [-> (pre & line & post & -> & Hpre & Hne' & Hc)].
      split; [reflexivity|]. exists (path :: pre), line, post.
      repeat split; try assumption. constructor; assumption.
    + exact I.
  - exists e1. right. rewrite last_snoc. reflexivity.
  - exact I.
Qed.

(** X22. A run of the helper raises in one case only: [IndexError], at the
    first line that is not empty and has no [#], the lines before it
    being empty or cut at their [#]. Every other failure is caught: the
    run returns [False], and the last record of the log is the error
    message with what was raised. A run that returns [True] found every
    line empty or with its [#]. *)
Theorem helper_raises_only_index_error (E : env) (H : FullSyncStrmHelper.host)
    (fuel : nat) (helper : FullSyncStrmHelper.t) (paths : string) (w : world) :
  (forall e,
     snd (FullSyncStrmHelper.generate_strm_files E H fuel helper paths w) = Throw e ->
     e = IndexError "list index out of range"
     /\ exists pre line post,
          Py.split "010" paths = pre ++ line :: post
          /\ Forall cut_line pre
          /\ line <> "" /\ Urllib.contains "#" line = false)
  /\ (snd (FullSyncStrmHelper.generate_strm_files E H fuel helper paths w) = Done false ->
      exists e,
        last (log (fst (FullSyncStrmHelper.generate_strm_files E H fuel helper paths w)))
        = Some {| message := "【全量STRM生成】网盘媒体目录 ID 获取失败"; cause := Some e |}
        \/ last (log (fst (FullSyncStrmHelper.generate_strm_files E H fuel helper paths w)))
           = Some {| message := "【全量STRM生成】全量生成 STRM 文件失败"; cause := Some e |})
  /\ (snd (FullSyncStrmHelper.generate_strm_files E H fuel helper paths w) = Done true ->
      Forall cut_line (Py.split "010" paths)).
Proof.
  unfold FullSyncStrmHelper.generate_strm_files.
  pose proof (helper_paths_outcome E H fuel helper (Py.split "010" paths) w) as Ho.
  destruct (FullSyncStrmHelper.generate_paths E H fuel helper (Py.split "010" paths) w)
    as [w' [[|]|e0|]]; cbn [fst snd]; (split; [|split]);
    try (intros x He; discriminate He); try (intros He; discriminate He).
  - intros _. exact Ho.
  - intros _. exact Ho.
  - intros x He. injection He as <-. exact Ho.
Qed.

Lemma helper_raises_only_index_error_witness :
  exists pre line post,
    Py.split "010" ("/local/movies#/media/movies" +:+ String "010" "/local/shows")
    = pre ++ line :: post
    /\ Forall cut_line pre
    /\ line <> "" /\ Urllib.contains "#" line = false.
Proof.
  apply (proj1 (helper_raises_only_index_error Example.E Example.host 10 Example.helper
                  ("/local/movies#/media/movies" +:+ String "010" "/local/shows")
                  Example.empty_world)
           (IndexError "list index out of range")).
  vm_compute. reflexivity.
Defined.

(** *** The configuration *)

Section PluginObject.

Import Plugin.

Lemma config_of_with P self e l i :
  str_of_int P (_expire_time self) = Ok e ->
  str_of_int P (_last_sync_time self) = Ok l ->
  str_of_int P (_incremental_sync_interval self) = Ok i ->
  config_of P self = Ok (config_with self e l i).
Proof. intros He Hl Hi. unfold config_of. rewrite He, Hl, Hi. reflexivity. Qed.

Lemma config_of_inv P self c :
  config_of P self = Ok c ->
  exists e l i,
    str_of_int P (_expire_time self) = Ok e
    /\ str_of_int P (_last_sync_time self) = Ok l
    /\ str_of_int P (_incremental_sync_interval self) = Ok i
    /\ c = config_with self e l i.
Proof.
  unfold config_of.
  destruct (str_of_int P (_expire_time self)) as [e|x]; [|discriminate].
  destruct (str_of_int P (_last_sync_time self)) as [l|x]; [|discriminate].
  destruct (str_of_int P (_incremental_sync_interval self)) as [i|x]; [|discriminate].
  intros [= <-]. exists e, l, i. auto.
Qed.

Ltac run :=
  cbv beta iota zeta delta
    [hbind assign hlift this hret hraise on_host fst snd time_now error negb
     Plugin._storagechain Plugin._client Plugin._scheduler Plugin._enabled 
     Plugin._once_full_sync_strm Plugin._once_incremental_sync Plugin._passport 
     Plugin._password Plugin._user_rmt_mediaext Plugin._user_download_mediaext 
     Plugin._timing_full_sync_strm Plugin._full_sync_auto_download_mediainfo_enabled 
     Plugin._cron_full_sync_strm Plugin._full_sync_strm_paths Plugin._uid 
     Plugin._secret_key Plugin._expire_time Plugin._custom_domain 
     Plugin._last_sync_time Plugin._incremental_sync_interval 
     Plugin._incremental_sync_enabled Plugin.set_storagechain Plugin.set_client 
     Plugin.set_scheduler Plugin.set_enabled Plugin.set_once_full_sync_strm 
     Plugin.set_once_incremental_sync Plugin.set_passport Plugin.set_password 
     Plugin.set_user_rmt_mediaext Plugin.set_user_download_mediaext 
     Plugin.set_timing_full_sync_strm 
     Plugin.set_full_sync_auto_download_mediainfo_enabled 
     Plugin.set_cron_full_sync_strm Plugin.set_full_sync_strm_paths Plugin.set_uid 
     Plugin.set_secret_key Plugin.set_expire_time Plugin.set_custom_domain 
     Plugin.set_last_sync_time Plugin.set_incremental_sync_interval 
     Plugin.set_incremental_sync_enabled].

Lemma update_config_ok S self h c :
  config_of (interpreter S) self = Ok c ->
  __update_config S (self, h) = ((self, store c h), Ok tt).
Proof. intros H. unfold __update_config. run. rewrite H. reflexivity. Qed.

Lemma update_config_raise S self h x :
  config_of (interpreter S) self = Raise x ->
  __update_config S (self, h) = ((self, h), Raise x).
Proof. intros H. unfold __update_config. run. rewrite H. reflexivity. Qed.

(** What the [if config:] block does: it raises what [int(...)] or
    [str(...)] raise, and otherwise leaves the attributes loaded and the
    configuration stored. *)
Lemma load_config_cases S c self h :
  let P := interpreter S in
  match py_int P (or_else (get c "expire_time") (CInt (10 * 365 * 24 * 60))) with
  | Raise x => snd (load_config S c (self, h)) = Raise x
  | Ok e =>
      match fst (read_last S c h) with
      | Raise x => snd (load_config S c (self, h)) = Raise x
      | Ok l =>
          match py_int P (or_else (get c "incremental_sync_interval") (CInt 30)) with
          | Raise x => snd (load_config S c (self, h)) = Raise x
          | Ok i =>
              match config_of P (loaded c e l i self) with
              | Raise x => snd (load_config S c (self, h)) = Raise x
              | Ok saved =>
                  load_config S c (self, h)
                  = ((loaded c e l i self, store saved (snd (read_last S c h))), Ok tt)
              end
          end
      end
  end.
Proof.
  cbv zeta. unfold read_last.
  destruct (py_int (interpreter S) (or_else (get c "expire_time") _)) as [e|x] eqn:He.
  2:{ unfold load_config. run. rewrite He. reflexivity. }
  destruct (truthy (get c "last_sync_time")) eqn:Ht; cbn [fst snd].
  - destruct (py_int (interpreter S) (get c "last_sync_time")) as [l|x] eqn:Hl.
    2:{ unfold load_config. run. rewrite He. run. rewrite Ht. run. rewrite Hl.
        reflexivity. }
    destruct (py_int (interpreter S) (or_else (get c "incremental_sync_interval") _))
      as [i|x] eqn:Hi.
    2:{ unfold load_config. run. rewrite He. run. rewrite Ht. run. rewrite Hl. run.
        rewrite Hi. reflexivity. }
    destruct (config_of (interpreter S) (loaded c e l i self)) as [saved|x] eqn:Hc.
    + unfold load_config. run. rewrite He. run. rewrite Ht. run. rewrite Hl. run.
      rewrite Hi. run. unfold loaded, or_else in *.
      destruct (truthy (get c "user_rmt_mediaext")),
               (truthy (get c "user_download_mediaext")),
               (truthy (get c "cron_full_sync_strm")); run;
        (erewrite update_config_ok by exact Hc); reflexivity.
    + unfold load_config. run. rewrite He. run. rewrite Ht. run. rewrite Hl. run.
      rewrite Hi. run. unfold loaded, or_else in *.
      destruct (truthy (get c "user_rmt_mediaext")),
               (truthy (get c "user_download_mediaext")),
               (truthy (get c "cron_full_sync_strm")); run;
        (erewrite update_config_raise by exact Hc); reflexivity.
  - destruct (py_int (interpreter S) (or_else (get c "incremental_sync_interval") _))
      as [i|x] eqn:Hi.
    2:{ unfold load_config. run. rewrite He. run. rewrite Ht. run.
        rewrite Hi. reflexivity. }
    destruct (config_of (interpreter S)
                (loaded c e (clock (passes_env S) (clock_reads (around h))) i self))
      as [saved|x] eqn:Hc.
    + unfold load_config. run. rewrite He. run. rewrite Ht. run.
      rewrite Hi. run. unfold loaded, or_else in *.
      destruct (truthy (get c "user_rmt_mediaext")),
               (truthy (get c "user_download_mediaext")),
               (truthy (get c "cron_full_sync_strm")); run;
        (erewrite update_config_ok by exact Hc); reflexivity.
    + unfold load_config. run. rewrite He. run. rewrite Ht. run.
      rewrite Hi. run. unfold loaded, or_else in *.
      destruct (truthy (get c "user_rmt_mediaext")),
               (truthy (get c "user_download_mediaext")),
               (truthy (get c "cron_full_sync_strm")); run;
        (erewrite update_config_raise by exact Hc); reflexivity.
Qed.
Lemma alter_at_end {A} (f : A -> A) (l : list A) (x : A) :
  alter f (length l) (l ++ [x]) = l ++ [f x].
Proof. induction l as [|a l IH]; simpl; [reflexivity|]. f_equal. exact IH. Qed.

Lemma stop_service_closed self h :
  stop_service (self, h)
  = (match _scheduler self with
     | Some k => (set_scheduler None self,
                  set_schedulers (alter (fun _ => stopped) k (schedulers h)) h)
     | None => (self, h)
     end, Ok tt).
Proof.
  unfold stop_service. run. destruct self, h. cbn [Plugin._scheduler].
  destruct _scheduler0; reflexivity.
Qed.


Lemma run_once_closed S j name clear self h c :
  config_of (interpreter S) (clear (set_scheduler (Some (length (schedulers h))) self))
  = Ok c ->
  run_once S j name clear (self, h)
  = ((clear (set_scheduler (Some (length (schedulers h))) self),
      store c (set_schedulers (schedulers h ++ [started j name]) h)), Ok tt).
Proof.
  intros Hc. unfold run_once. run.
  rewrite (update_config_ok S _ _ c) by exact Hc.
  destruct h as [w st l]. unfold store, set_stored, set_around, set_schedulers.
  cbn [around stored schedulers].
  match goal with |- context [alter ?f (length l) (l ++ [?x])] =>
    rewrite (alter_at_end f l x) end.
  match goal with |- context [alter ?f (length l) (l ++ [?x])] =>
    rewrite (alter_at_end f l x) end.
  reflexivity.
Qed.
Lemma check_and_schedule_ok S self h e l i :
  supported (interpreter S) = true ->
  str_of_int (interpreter S) (_expire_time self) = Ok e ->
  str_of_int (interpreter S) (_last_sync_time self) = Ok l ->
  str_of_int (interpreter S) (_incremental_sync_interval self) = Ok i ->
  let en_f := truthy (_enabled self) && truthy (_once_full_sync_strm self) in
  let en_g := truthy (_enabled self) && truthy (_once_incremental_sync self) in
  exists self' h',
    check_and_schedule S (self, h) = ((self', h'), Ok None)
    /\ set_once_full_sync_strm (CBool false)
         (set_once_incremental_sync (CBool false)
            (set_client None (set_scheduler None self')))
       = set_once_full_sync_strm (CBool false)
           (set_once_incremental_sync (CBool false)
              (set_client None (set_scheduler None self)))
    /\ _once_full_sync_strm self'
       = (if en_f then CBool false else _once_full_sync_strm self)
    /\ _once_incremental_sync self'
       = (if en_g then CBool false else _once_incremental_sync self)
    /\ _client self'
       = match connect S (_passport self) (_password self) with
         | None => Some (_passport self, _password self)
         | Some _ => _client self
         end
    /\ schedulers h'
       = match _scheduler self with
         | Some k => alter (fun _ => stopped) k (schedulers h)
         | None => schedulers h
         end
         ++ (if en_f then [started full_sync_job "123云盘助手立刻全量同步"] else [])
         ++ (if en_g then [started incremental_sync_job "123云盘助手立刻增量同步"]
             else [])
    /\ _scheduler self'
       = (if en_g
          then Some (length (schedulers h) + (if en_f then 1 else 0))%nat
          else if en_f then Some (length (schedulers h)) else None)
    /\ (stored h = Some (config_with self e l i) ->
        stored h' = Some (config_with self' e l i))
    /\ config_of (interpreter S) self' = Ok (config_with self' e l i)
    /\ truthy (_enabled self') && truthy (_once_full_sync_strm self') = false
    /\ truthy (_enabled self') && truthy (_once_incremental_sync self') = false
    /\ (en_f = false -> en_g = false ->
        config_with self' e l i = config_with self e l i)
    /\ log (around h')
       = log (around h)
         ++ match connect S (_passport self) (_password self) with
            | None => []
            | Some x => [{| message := "【123云盘直链】123云盘客户端创建失败";
                            cause := Some x |}]
            end
    /\ clock_reads (around h') = clock_reads (around h).
Proof.
  intros Hv He Hl Hi. cbv zeta.
  destruct self, h as [w st scs].
  cbn [Plugin._enabled Plugin._once_full_sync_strm Plugin._once_incremental_sync
       Plugin._passport Plugin._password Plugin._client Plugin._scheduler
       Plugin._expire_time Plugin._last_sync_time Plugin._incremental_sync_interval
       schedulers stored around] in *.
  unfold check_and_schedule, __check_python_version. rewrite Hv. run.
  destruct (connect S _passport0 _password0) as [x|]; run;
    rewrite stop_service_closed; cbn [Plugin._scheduler];
    destruct _scheduler0 as [k|]; run;
    destruct (truthy _enabled0) eqn:Hen, (truthy _once_full_sync_strm0) eqn:Hf,
             (truthy _once_incremental_sync0) eqn:Hg;
    repeat (first [ erewrite run_once_closed by (apply config_of_with; eassumption)
                  | progress (rewrite ?Hen, ?Hf, ?Hg)
                  | progress cbn [andb orb]
                  | progress run ]);
    (eexists _, _; split; [reflexivity|]);
    cbv beta iota zeta delta
      [store with_error set_stored set_around set_schedulers log_error modify
       set_saved set_log
       Plugin._enabled Plugin._once_full_sync_strm Plugin._once_incremental_sync
       Plugin._passport Plugin._password Plugin._client Plugin._scheduler
       schedulers stored around log clock_reads fst snd];
    rewrite ?length_app, ?length_alter, ?app_nil_r, <- ?app_assoc;
    cbn [length app Nat.add];
    rewrite ?Nat.add_0_r, ?Hen, ?Hf, ?Hg;
    repeat split;
    first [ reflexivity
          | apply config_of_with; eassumption
          | intros [= ->]; reflexivity
          | intros; first [discriminate | reflexivity] ].
Qed.

(** On an interpreter that is not supported, the plugin is switched off
    and nothing else is touched. *)
Lemma check_and_schedule_unsupported S self h e l i :
  supported (interpreter S) = false ->
  str_of_int (interpreter S) (_expire_time self) = Ok e ->
  str_of_int (interpreter S) (_last_sync_time self) = Ok l ->
  str_of_int (interpreter S) (_incremental_sync_interval self) = Ok i ->
  let self' := set_once_full_sync_strm (CBool false) (set_enabled (CBool false) self) in
  check_and_schedule S (self, h)
  = ((self',
      store (config_with self' e l i)
        (with_error "当前MoviePilot使用的Python版本不支持本插件，请升级到Python 3.12及以上的版本使用！"
           None h)),
     Ok (Some false)).
Proof.
  intros Hv He Hl Hi. cbv zeta.
  unfold check_and_schedule, __check_python_version. rewrite Hv. run.
  erewrite update_config_ok; [reflexivity|].
  apply config_of_with; assumption.
Qed.

(** The attributes after the first lines of [init_plugin]. *)
Lemma set_defaults_closed S self h :
  set_defaults S (self, h)
  = ((set_once_incremental_sync (CBool false)
        (set_incremental_sync_interval 30
           (set_last_sync_time (clock (passes_env S) (clock_reads (around h)))
              (set_custom_domain (CStr "https://vip.123pan.cn")
                 (set_expire_time (10 * 365 * 24 * 60)
                    (set_storagechain true self))))),
      tick h), Ok tt).
Proof. reflexivity. Qed.

Lemma hbind_ok {A B} (m : H A) (k : A -> H B) s s1 a :
  m s = (s1, Ok a) -> hbind m k s = k a s1.
Proof. intros Hm. unfold hbind. rewrite Hm. reflexivity. Qed.

Lemma hbind_raise {A B} (m : H A) (k : A -> H B) s x :
  snd (m s) = Raise x -> snd (hbind m k s) = Raise x.
Proof.
  intros Hm. unfold hbind. destruct (m s) as [s1 [a|y]]; simpl in *;
    [discriminate | injection Hm as ->; reflexivity].
Qed.

Lemma loaded_after_defaults c e l i a t0 self :
  loaded c e l i
    (set_once_incremental_sync (CBool false)
       (set_incremental_sync_interval 30
          (set_last_sync_time t0
             (set_custom_domain a
                (set_expire_time (10 * 365 * 24 * 60)
                   (set_storagechain true self))))))
  = loaded c e l i (set_storagechain true self).
Proof. reflexivity. Qed.

(** [init_plugin] with a configuration: what it takes to get through
    the loading, and what is left to do then. *)
Lemma init_plugin_inv S c self h s' r :
  c <> ∅ ->
  init_plugin S (Some c) (self, h) = (s', Ok r) ->
  exists e l i saved,
    py_int (interpreter S) (or_else (get c "expire_time") (CInt (10 * 365 * 24 * 60)))
    = Ok e
    /\ fst (read_last S c (tick h)) = Ok l
    /\ py_int (interpreter S) (or_else (get c "incremental_sync_interval") (CInt 30))
       = Ok i
    /\ config_of (interpreter S) (loaded c e l i (set_storagechain true self)) = Ok saved
    /\ check_and_schedule S
         (loaded c e l i (set_storagechain true self),
          store saved (snd (read_last S c (tick h))))
       = (s', Ok r).
Proof.
  intros Hc. unfold init_plugin.
  rewrite (hbind_ok _ _ _ _ _ (set_defaults_closed S self h)).
  cbv beta iota. rewrite (bool_decide_eq_false_2 _ Hc).
  match goal with |- context [hbind (load_config S c) _ (?a, ?b)] =>
    pose proof (load_config_cases S c a b) as Hload; cbv zeta in Hload;
    set (s0 := (a, b)) in * end.
  destruct (py_int (interpreter S) (or_else (get c "expire_time") _)) as [e|x] eqn:He.
  2:{ intros H. apply (f_equal snd) in H. cbn [snd] in H.
      rewrite (hbind_raise _ _ _ _ Hload) in H. discriminate. }
  destruct (fst (read_last S c (tick h))) as [l|x] eqn:Hl.
  2:{ intros H. apply (f_equal snd) in H. cbn [snd] in H.
      rewrite (hbind_raise _ _ _ _ Hload) in H. discriminate. }
  destruct (py_int (interpreter S) (or_else (get c "incremental_sync_interval") _))
    as [i|x] eqn:Hi.
  2:{ intros H. apply (f_equal snd) in H. cbn [snd] in H.
      rewrite (hbind_raise _ _ _ _ Hload) in H. discriminate. }
  rewrite !loaded_after_defaults in Hload.
  destruct (config_of (interpreter S) (loaded c e l i (set_storagechain true self)))
    as [saved|x] eqn:Hs.
  2:{ intros H. apply (f_equal snd) in H. cbn [snd] in H.
      rewrite (hbind_raise _ _ _ _ Hload) in H. discriminate. }
  rewrite (hbind_ok _ _ _ _ _ Hload). intros H.
  exists e, l, i, saved. auto.
Qed.

Lemma truthy_or_else v d : truthy d = true -> truthy (or_else v d) = true.
Proof. intros Hd. unfold or_else. destruct (truthy v) eqn:Hv; assumption. Qed.

Lemma or_else_false v :
  truthy (or_else v (CBool false)) = true \/ or_else v (CBool false) = CBool false.
Proof. unfold or_else. destruct (truthy v) eqn:Hv; auto. Qed.

Ltac fields :=
  cbv beta iota zeta delta
    [loaded Plugin._storagechain Plugin._client Plugin._scheduler Plugin._enabled
     Plugin._once_full_sync_strm Plugin._once_incremental_sync Plugin._passport
     Plugin._password Plugin._user_rmt_mediaext Plugin._user_download_mediaext
     Plugin._timing_full_sync_strm Plugin._full_sync_auto_download_mediainfo_enabled
     Plugin._cron_full_sync_strm Plugin._full_sync_strm_paths Plugin._uid
     Plugin._secret_key Plugin._expire_time Plugin._custom_domain
     Plugin._last_sync_time Plugin._incremental_sync_interval
     Plugin._incremental_sync_enabled
     set_storagechain set_client set_scheduler set_enabled set_once_full_sync_strm
     set_once_incremental_sync].

(** X16. After [init_plugin] has loaded a configuration and returned, the
    attributes with a default are set, no run-once flag is left on an
    enabled plugin, the configuration stored last is the one the
    attributes make, and the value returned tells whether the interpreter
    is supported: [False] when it is not, [None] otherwise. *)
Theorem init_plugin_settles (S : system) (c : config) (self : t) (h : host)
    (self' : t) (h' : host) (r : option bool) :
  c <> ∅ ->
  init_plugin S (Some c) (self, h) = ((self', h'), Ok r) ->
  settled self'
  /\ (exists saved, config_of (interpreter S) self' = Ok saved
                    /\ stored h' = Some saved)
  /\ r = (if supported (interpreter S) then None else Some false).
Proof.
  intros Hc Hinit.
  destruct (init_plugin_inv S c self h _ r Hc Hinit)
    as (e & l & i & saved & He & Hl & Hi & Hsaved & Hrest).
  destruct (config_of_inv _ _ _ Hsaved) as (se & sl & si & Hse & Hsl & Hsi & ->).
  set (self1 := loaded c e l i (set_storagechain true self)) in *.
  assert (Hdom : truthy (_custom_domain self1) = true
                 /\ truthy (_user_rmt_mediaext self1) = true
                 /\ truthy (_user_download_mediaext self1) = true
                 /\ truthy (_cron_full_sync_strm self1) = true
                 /\ (truthy (_incremental_sync_enabled self1) = true
                     \/ _incremental_sync_enabled self1 = CBool false)).
  { repeat split; try (apply truthy_or_else; reflexivity). apply or_else_false. }
  destruct (supported (interpreter S)) eqn:Hv.
  - match type of Hrest with check_and_schedule S (_, ?h1) = _ =>
      destruct (check_and_schedule_ok S self1 h1 se sl si Hv Hse Hsl Hsi)
        as (s2 & h2 & Hrun & Hsame & _ & _ & _ & _ & _ & Hst & Hcfg & Hf & Hg & _)
    end.
    rewrite Hrun in Hrest. injection Hrest as <- <- <-.
    split; [|split; [|reflexivity]].
    + destruct Hdom as (H1 & H2 & H3 & H4 & H5).
      pose proof (f_equal _custom_domain Hsame) as E1.
      pose proof (f_equal _user_rmt_mediaext Hsame) as E2.
      pose proof (f_equal _user_download_mediaext Hsame) as E3.
      pose proof (f_equal _cron_full_sync_strm Hsame) as E4.
      pose proof (f_equal _incremental_sync_enabled Hsame) as E5.
      cbn in E1, E2, E3, E4, E5.
      unfold settled. rewrite E1, E2, E3, E4, E5. auto 10.
    + eexists. split; [exact Hcfg|]. apply Hst. reflexivity.
  - match type of Hrest with check_and_schedule S (_, ?h1) = _ =>
      rewrite (check_and_schedule_unsupported S self1 h1 se sl si Hv Hse Hsl Hsi)
        in Hrest
    end.
    injection Hrest as <- <- <-.
    split; [|split; [|reflexivity]].
    + destruct Hdom as (H1 & H2 & H3 & H4 & H5). unfold settled. auto 10.
    + eexists. split; [|reflexivity]. apply config_of_with; assumption.
Qed.
Lemma get_config_with self e l i :
  let c := config_with self e l i in
  get c "enabled" = _enabled self
  /\ get c "once_full_sync_strm" = _once_full_sync_strm self
  /\ get c "once_incremental_sync" = _once_incremental_sync self
  /\ get c "passport" = _passport self
  /\ get c "password" = _password self
  /\ get c "uid" = _uid self
  /\ get c "secret_key" = _secret_key self
  /\ get c "expire_time" = CStr e
  /\ get c "custom_domain" = _custom_domain self
  /\ get c "user_rmt_mediaext" = _user_rmt_mediaext self
  /\ get c "user_download_mediaext" = _user_download_mediaext self
  /\ get c "timing_full_sync_strm" = _timing_full_sync_strm self
  /\ get c "full_sync_auto_download_mediainfo_enabled"
     = _full_sync_auto_download_mediainfo_enabled self
  /\ get c "cron_full_sync_strm" = _cron_full_sync_strm self
  /\ get c "full_sync_strm_paths" = _full_sync_strm_paths self
  /\ get c "last_sync_time" = CStr l
  /\ get c "incremental_sync_interval" = CStr i
  /\ get c "incremental_sync_enabled" = _incremental_sync_enabled self.
Proof. cbv zeta. repeat split; reflexivity. Qed.

Lemma config_with_nonempty self e l i : config_with self e l i <> ∅.
Proof.
  intros H. apply (f_equal (fun c => get c "expire_time")) in H.
  rewrite (proj1 (proj2 (proj2 (proj2 (proj2 (proj2 (proj2 (proj2 (get_config_with self e l i))))))))) in H.
  discriminate.
Qed.


Lemma init_plugin_run S c self h e l i saved :
  c <> ∅ ->
  py_int (interpreter S) (or_else (get c "expire_time") (CInt (10 * 365 * 24 * 60)))
  = Ok e ->
  fst (read_last S c (tick h)) = Ok l ->
  py_int (interpreter S) (or_else (get c "incremental_sync_interval") (CInt 30))
  = Ok i ->
  config_of (interpreter S) (loaded c e l i (set_storagechain true self)) = Ok saved ->
  init_plugin S (Some c) (self, h)
  = check_and_schedule S
      (loaded c e l i (set_storagechain true self),
       store saved (snd (read_last S c (tick h)))).
Proof.
  intros Hc He Hl Hi Hs. unfold init_plugin.
  rewrite (hbind_ok _ _ _ _ _ (set_defaults_closed S self h)).
  cbv beta iota. rewrite (bool_decide_eq_false_2 _ Hc).
  match goal with |- context [hbind (load_config S c) _ (?a, ?b)] =>
    pose proof (load_config_cases S c a b) as Hload; cbv zeta in Hload end.
  rewrite He, Hl, Hi in Hload. rewrite !loaded_after_defaults in Hload.
  rewrite Hs in Hload. rewrite (hbind_ok _ _ _ _ _ Hload). reflexivity.
Qed.

Lemma read_last_host S c h :
  schedulers (snd (read_last S c h)) = schedulers h
  /\ stored (snd (read_last S c h)) = stored h
  /\ log (around (snd (read_last S c h))) = log (around h).
Proof. unfold read_last. destruct (truthy (get c "last_sync_time")); auto. Qed.

Lemma truthy_CStr s : s <> "" -> truthy (CStr s) = true.
Proof. destruct s; [contradiction | reflexivity]. Qed.

(** What a settled plugin stores loads back to the same attributes. *)
Lemma loaded_config_with self e l i x :
  settled self ->
  config_with
    (loaded (config_with self e l i) (_expire_time self) (_last_sync_time self)
       (_incremental_sync_interval self) x) e l i
  = config_with self e l i.
Proof.
  intros (H1 & H2 & H3 & H4 & H5 & _).
  unfold config_with at 1 3.
  cbn [loaded Plugin._enabled Plugin._once_full_sync_strm
       Plugin._once_incremental_sync Plugin._passport Plugin._password
       Plugin._user_rmt_mediaext Plugin._user_download_mediaext
       Plugin._timing_full_sync_strm Plugin._full_sync_auto_download_mediainfo_enabled
       Plugin._cron_full_sync_strm Plugin._full_sync_strm_paths Plugin._uid
       Plugin._secret_key Plugin._custom_domain Plugin._incremental_sync_enabled].
  pose proof (get_config_with self e l i) as G. cbv zeta in G.
  destruct G as (G1 & G2 & G3 & G4 & G5 & G6 & G7 & G8 & G9 & G10 & G11 & G12 & G13
                 & G14 & G15 & G16 & G17 & G18).
  rewrite G1, G2, G3, G4, G5, G6, G7, G9, G10, G11, G12, G13, G14, G15, G18.
  unfold or_else. rewrite H1, H2, H3, H4.
  destruct H5 as [H5|H5]; rewrite H5; reflexivity.
Qed.

(** X17. The stored configuration is a fixed point: loaded again, on any
    object and whatever the host holds, by a supported interpreter, it
    gives back the attributes it was made of, is stored again as it is,
    and starts no job; the scheduler at hand is stopped and let go. *)
Theorem init_plugin_reloads (S : system) (self : t) (saved : config) :
  supported (interpreter S) = true ->
  settled self ->
  config_of (interpreter S) self = Ok saved ->
  forall (self0 : t) (h0 : host),
    exists self' h',
      init_plugin S (Some saved) (self0, h0) = ((self', h'), Ok None)
      /\ config_of (interpreter S) self' = Ok saved
      /\ stored h' = Some saved
      /\ _scheduler self' = None
      /\ schedulers h'
         = match _scheduler self0 with
           | Some k => alter (fun _ => stopped) k (schedulers h0)
           | None => schedulers h0
           end.
Proof.
  intros Hv Hset Hcfg self0 h0.
  destruct (config_of_inv _ _ _ Hcfg) as (e & l & i & He & Hl & Hi & ->).
  destruct (int_of_str_of_int _ _ _ He) as [Ie Ne].
  destruct (int_of_str_of_int _ _ _ Hl) as [Il Nl].
  destruct (int_of_str_of_int _ _ _ Hi) as [Ii Ni].
  pose proof (get_config_with self e l i) as G. cbv zeta in G.
  destruct G as (G1 & G2 & G3 & _ & _ & _ & _ & G8 & _ & _ & _ & _ & _ & _ & _ & G16
                 & G17 & _).
  set (saved := config_with self e l i) in *.
  set (self1 := loaded saved (_expire_time self) (_last_sync_time self)
                  (_incremental_sync_interval self) (set_storagechain true self0)).
  assert (Hsame : config_with self1 e l i = saved)
    by (apply loaded_config_with; exact Hset).
  assert (Hc1 : config_of (interpreter S) self1 = Ok saved).
  { rewrite <- Hsame. apply config_of_with; assumption. }
  assert (Hrun : init_plugin S (Some saved) (self0, h0)
                 = check_and_schedule S
                     (self1, store saved (snd (read_last S saved (tick h0))))).
  { apply init_plugin_run.
    - apply config_with_nonempty.
    - rewrite G8. unfold or_else. rewrite (truthy_CStr e Ne). exact Ie.
    - unfold read_last. rewrite G16, (truthy_CStr l Nl). exact Il.
    - rewrite G17. unfold or_else. rewrite (truthy_CStr i Ni). exact Ii.
    - exact Hc1. }
  rewrite Hrun.
  destruct Hset as (_ & _ & _ & _ & _ & Hf & Hg).
  assert (Hf1 : truthy (_enabled self1) && truthy (_once_full_sync_strm self1) = false).
  { change (_enabled self1) with (get saved "enabled").
    change (_once_full_sync_strm self1) with (get saved "once_full_sync_strm").
    rewrite G1, G2. exact Hf. }
  assert (Hg1 : truthy (_enabled self1) && truthy (_once_incremental_sync self1) = false).
  { change (_enabled self1) with (get saved "enabled").
    change (_once_incremental_sync self1) with (get saved "once_incremental_sync").
    rewrite G1, G3. exact Hg. }
  match goal with |- context [check_and_schedule S (_, ?h1)] =>
    destruct (check_and_schedule_ok S self1 h1 e l i Hv He Hl Hi)
      as (s2 & h2 & Hcs & _ & _ & _ & _ & Hsch & Hsc & Hst & Hcfg2 & _ & _ & Hkeep & _)
  end.
  rewrite Hf1, Hg1 in Hsch, Hsc. specialize (Hkeep Hf1 Hg1).
  exists s2, h2. split; [exact Hcs|].
  rewrite Hkeep, Hsame in Hcfg2, Hst.
  split; [exact Hcfg2|]. split; [apply Hst; reflexivity|]. split; [exact Hsc|].
  rewrite Hsch, !app_nil_r.
  change (_scheduler self1) with (_scheduler self0).
  unfold store, set_stored, set_around. cbn [schedulers].
  rewrite (proj1 (read_last_host S saved (tick h0))). reflexivity.
Qed.

(** X18. On an interpreter older than 3.12, [init_plugin] switches the plugin
    off, stores that, logs the reason and returns [False]; it neither
    makes a client nor touches the scheduler at hand, whose jobs stay. *)
Theorem unsupported_interpreter_switches_off (S : system) (c : config) (self : t)
    (h : host) (self' : t) (h' : host) (r : option bool) :
  supported (interpreter S) = false ->
  c <> ∅ ->
  init_plugin S (Some c) (self, h) = ((self', h'), Ok r) ->
  r = Some false
  /\ get_state self' = CBool false
  /\ _once_full_sync_strm self' = CBool false
  /\ (exists saved, stored h' = Some saved /\ get saved "enabled" = CBool false)
  /\ _client self' = _client self
  /\ _scheduler self' = _scheduler self
  /\ schedulers h' = schedulers h
  /\ last (log (around h'))
     = Some {| message := "当前MoviePilot使用的Python版本不支持本插件，请升级到Python 3.12及以上的版本使用！";
               cause := None |}.
Proof.
  intros Hv Hc Hinit.
  destruct (init_plugin_inv S c self h _ r Hc Hinit)
    as (e & l & i & saved & He & Hl & Hi & Hsaved & Hrest).
  destruct (config_of_inv _ _ _ Hsaved) as (se & sl & si & Hse & Hsl & Hsi & ->).
  match type of Hrest with check_and_schedule S (?s1, ?h1) = _ =>
    rewrite (check_and_schedule_unsupported S s1 h1 se sl si Hv Hse Hsl Hsi) in Hrest
  end.
  injection Hrest as <- <- <-.
  split; [reflexivity|]. split; [reflexivity|]. split; [reflexivity|].
  split; [eexists; split; [reflexivity|]|].
  { match goal with |- get (config_with ?s ?a ?b ?d) _ = _ =>
      exact (proj1 (get_config_with s a b d)) end. }
  split; [reflexivity|]. split; [reflexivity|].
  unfold store, with_error, set_stored, set_around. cbn [schedulers around].
  split.
  - apply (proj1 (read_last_host S c (tick h))).
  - unfold set_saved. cbn [log]. apply log_error_last.
Qed.

Lemma unsupported_interpreter_switches_off_witness :
  let X := init_plugin PluginExample.system311 (Some PluginExample.filled)
             (class_defaults, PluginExample.host0) in
  snd X = Ok (Some false)
  /\ get_state (fst (fst X)) = CBool false
  /\ _once_full_sync_strm (fst (fst X)) = CBool false
  /\ (exists saved, stored (snd (fst X)) = Some saved
                    /\ get saved "enabled" = CBool false)
  /\ _client (fst (fst X)) = _client class_defaults
  /\ _scheduler (fst (fst X)) = _scheduler class_defaults
  /\ schedulers (snd (fst X)) = schedulers PluginExample.host0
  /\ last (log (around (snd (fst X))))
     = Some {| message := "当前MoviePilot使用的Python版本不支持本插件，请升级到Python 3.12及以上的版本使用！";
               cause := None |}.
Proof.
  cbv zeta.
  destruct (unsupported_interpreter_switches_off PluginExample.system311
              PluginExample.filled class_defaults PluginExample.host0
              (fst (fst (init_plugin PluginExample.system311 (Some PluginExample.filled)
                           (class_defaults, PluginExample.host0))))
              (snd (fst (init_plugin PluginExample.system311 (Some PluginExample.filled)
                           (class_defaults, PluginExample.host0))))
              (Some false)) as (H1 & H2).
  - reflexivity.
  - apply (bool_decide_unpack _). vm_compute. exact I.
  - vm_compute. reflexivity.
  - split; [vm_compute; reflexivity | exact H2].
Defined.

(** X19. On a supported interpreter, [init_plugin] with a configuration makes
    a client with the configured account (an account the drive refuses
    is logged and the client at hand stays), stops the scheduler at hand
    and lets it go, and starts one scheduler with one job for each
    run-once switch that is on while the plugin is enabled, the full pass
    first. Each switch that fired is put back to [False]. The plugin
    holds the scheduler made last: with both switches on, the scheduler
    of the full pass runs without anything holding it. *)
Theorem init_plugin_schedules (S : system) (c : config) (self : t) (h : host)
    (self' : t) (h' : host) (r : option bool) :
  supported (interpreter S) = true ->
  c <> ∅ ->
  init_plugin S (Some c) (self, h) = ((self', h'), Ok r) ->
  let full := truthy (get c "enabled") && truthy (get c "once_full_sync_strm") in
  let incremental :=
    truthy (get c "enabled") && truthy (get c "once_incremental_sync") in
  r = None
  /\ schedulers h'
     = match _scheduler self with
       | Some k => alter (fun _ => stopped) k (schedulers h)
       | None => schedulers h
       end
       ++ (if full then [started full_sync_job "123云盘助手立刻全量同步"] else [])
       ++ (if incremental then [started incremental_sync_job "123云盘助手立刻增量同步"]
           else [])
  /\ _scheduler self'
     = (if incremental
        then Some (length (schedulers h) + (if full then 1 else 0))%nat
        else if full then Some (length (schedulers h)) else None)
  /\ _once_full_sync_strm self'
     = (if full then CBool false else get c "once_full_sync_strm")
  /\ _once_incremental_sync self'
     = (if incremental then CBool false else get c "once_incremental_sync")
  /\ get_state self' = get c "enabled"
  /\ _client self'
     = match connect S (get c "passport") (get c "password") with
       | None => Some (get c "passport", get c "password")
       | Some _ => _client self
       end.
Proof.
  intros Hv Hc Hinit. cbv zeta.
  destruct (init_plugin_inv S c self h _ r Hc Hinit)
    as (e & l & i & saved & He & Hl & Hi & Hsaved & Hrest).
  destruct (config_of_inv _ _ _ Hsaved) as (se & sl & si & Hse & Hsl & Hsi & ->).
  match type of Hrest with check_and_schedule S (?s1, ?h1) = _ =>
    destruct (check_and_schedule_ok S s1 h1 se sl si Hv Hse Hsl Hsi)
      as (s2 & h2 & Hrun & Hsame & Hfull & Hincr & Hcl & Hsch & Hsc & _)
  end.
  rewrite Hrun in Hrest. injection Hrest as <- <- <-.
  split; [reflexivity|].
  split.
  { rewrite Hsch. unfold store, set_stored, set_around. cbn [schedulers].
    rewrite (proj1 (read_last_host S c (tick h))). reflexivity. }
  split.
  { rewrite Hsc. unfold store, set_stored, set_around. cbn [schedulers].
    rewrite (proj1 (read_last_host S c (tick h))). reflexivity. }
  split; [exact Hfull|]. split; [exact Hincr|].
  split; [|exact Hcl].
  apply (f_equal _enabled) in Hsame. exact Hsame.
Qed.

Lemma init_plugin_schedules_witness :
  let X := init_plugin PluginExample.system312 (Some PluginExample.filled)
             (class_defaults, PluginExample.host0) in
  snd X = Ok None
  /\ schedulers (snd (fst X))
     = [started full_sync_job "123云盘助手立刻全量同步";
        started incremental_sync_job "123云盘助手立刻增量同步"]
  /\ _scheduler (fst (fst X)) = Some 1%nat
  /\ _once_full_sync_strm (fst (fst X)) = CBool false
  /\ _once_incremental_sync (fst (fst X)) = CBool false
  /\ get_state (fst (fst X)) = CBool true
  /\ _client (fst (fst X)) = Some (CStr "", CStr "").
Proof.
  cbv zeta.
  destruct (init_plugin_schedules PluginExample.system312
              PluginExample.filled class_defaults PluginExample.host0
              (fst (fst (init_plugin PluginExample.system312 (Some PluginExample.filled)
                           (class_defaults, PluginExample.host0))))
              (snd (fst (init_plugin PluginExample.system312 (Some PluginExample.filled)
                           (class_defaults, PluginExample.host0))))
              None) as (H1 & H2).
  - reflexivity.
  - apply (bool_decide_unpack _). vm_compute. exact I.
  - vm_compute. reflexivity.
  - split; [vm_compute; reflexivity | exact H2].
Defined.

Lemma py_int_zero P : py_int P (CStr "0") = Ok 0.
Proof.
  unfold py_int, int_of_str. change (all_chars Urllib.is_ascii "0") with true.
  cbv iota. apply (int_of_ascii_digits P "0" false); [reflexivity | discriminate |].
  unfold too_many, digits_over. change (640 <? Z.of_nat (Py.len "0")) with false.
  rewrite andb_false_r. reflexivity.
Qed.

(** The time of the last pass that [init_plugin] leaves: the stored text
    read as a number when it is truthy, the clock read a second time
    otherwise. *)
Lemma init_plugin_last_sync_time S c self h self' h' r :
  c <> ∅ ->
  init_plugin S (Some c) (self, h) = ((self', h'), Ok r) ->
  fst (read_last S c (tick h)) = Ok (_last_sync_time self').
Proof.
  intros Hc Hinit.
  destruct (init_plugin_inv S c self h _ r Hc Hinit)
    as (e & l & i & saved & He & Hl & Hi & Hsaved & Hrest).
  destruct (config_of_inv _ _ _ Hsaved) as (se & sl & si & Hse & Hsl & Hsi & ->).
  rewrite Hl. f_equal.
  destruct (supported (interpreter S)) eqn:Hv.
  - match type of Hrest with check_and_schedule S (?s1, ?h1) = _ =>
      destruct (check_and_schedule_ok S s1 h1 se sl si Hv Hse Hsl Hsi)
        as (s2 & h2 & Hrun & Hsame & _)
    end.
    rewrite Hrun in Hrest. injection Hrest as <- <- <-.
    apply (f_equal _last_sync_time) in Hsame. symmetry. exact Hsame.
  - match type of Hrest with check_and_schedule S (?s1, ?h1) = _ =>
      rewrite (check_and_schedule_unsupported S s1 h1 se sl si Hv Hse Hsl Hsi)
        in Hrest
    end.
    injection Hrest as <- <- <-. reflexivity.
Qed.

Lemma init_plugin_settles_witness :
  settled (fst initialised)
  /\ (exists saved,
        config_of (interpreter PluginExample.system312) (fst initialised) = Ok saved
        /\ stored (snd initialised) = Some saved)
  /\ None = (if supported (interpreter PluginExample.system312)
             then None else Some false).
Proof.
  apply (init_plugin_settles PluginExample.system312 PluginExample.filled
           class_defaults PluginExample.host0 (fst initialised) (snd initialised) None).
  - apply (bool_decide_unpack _). vm_compute. exact I.
  - vm_compute. reflexivity.
Defined.

Lemma init_plugin_reloads_witness :
  exists self' h',
    init_plugin PluginExample.system312
      (Some (config_with (fst initialised) "5256000" "0" "30"))
      (fst initialised, snd initialised)
    = ((self', h'), Ok None)
    /\ config_of (interpreter PluginExample.system312) self'
       = Ok (config_with (fst initialised) "5256000" "0" "30")
    /\ stored h' = Some (config_with (fst initialised) "5256000" "0" "30")
    /\ _scheduler self' = None
    /\ schedulers h'
       = match _scheduler (fst initialised) with
         | Some k => alter (fun _ => stopped) k (schedulers (snd initialised))
         | None => schedulers (snd initialised)
         end.
Proof.
  apply (fun H1 H2 H3 =>
           init_plugin_reloads PluginExample.system312 (fst initialised)
             (config_with (fst initialised) "5256000" "0" "30") H1 H2 H3
             (fst initialised) (snd initialised)).
  - reflexivity.
  - vm_compute. repeat split; auto.
  - apply config_of_with; vm_compute; reflexivity.
Defined.

(** What the store holds after [init_plugin] on the filled form: the
    switches are off again, the numbers are text. *)
Example stored_after_init :
  (stored (snd initialised) ≫= fun c => Some
     (get c "enabled", get c "once_full_sync_strm", get c "once_incremental_sync",
      get c "expire_time", get c "last_sync_time", get c "incremental_sync_interval"))
  = Some (CBool true, CBool false, CBool false, CStr "5256000", CStr "0", CStr "30").
Proof. vm_compute. reflexivity. Qed.

(** *** [get_service] *)

Lemma str_of_int_small P n : 0 <= n < 10 -> str_of_int P n = Ok (Py.str_of_int n).
Proof.
  intros Hn. unfold str_of_int, format_int.
  replace (digits_over _ _) with false; [reflexivity|].
  unfold digits_over. replace (Z.abs n) with n by lia.
  destruct (digit_cases n Hn) as [->|[->|[->|[->|[->|[->|[->|[->|[->| ->]]]]]]]]];
    change (640 <? _) with false; rewrite andb_false_r; reflexivity.
Qed.

Lemma str_of_int_ok P n s : str_of_int P n = Ok s -> s = Py.str_of_int n.
Proof.
  unfold str_of_int, format_int. destruct (digits_over _ _); [discriminate|]. congruence.
Qed.

(** What [get_service] returns, by what the scheduler makes of the two
    triggers it is asked for. *)
Lemma get_service_cases S self h digits :
  str_of_int (interpreter S) (Z.max 1 (_incremental_sync_interval self)) = Ok digits ->
  let full_on := truthy (_cron_full_sync_strm self) && truthy (_timing_full_sync_strm self)
                 && truthy (_full_sync_strm_paths self) in
  let incr_on := truthy (_incremental_sync_enabled self)
                 && truthy (_full_sync_strm_paths self) in
  let full := if full_on then [full_sync_service (_cron_full_sync_strm self)] else [] in
  let found := fun l : list service => match l with [] => None | _ => Some l end in
  (forall e, full_on = true -> from_crontab S (_cron_full_sync_strm self) = Some e ->
     get_service S (self, h) = ((self, h), Raise e))
  /\ ((full_on = true -> from_crontab S (_cron_full_sync_strm self) = None) ->
      (incr_on = true -> cron_minute S ("*/" +:+ digits) = None) ->
      get_service S (self, h)
      = ((self, h),
         Ok (found (full ++ (if incr_on
                             then [incremental_sync_service
                                     (Z.max 1 (_incremental_sync_interval self))]
                             else [])))))
  /\ ((full_on = true -> from_crontab S (_cron_full_sync_strm self) = None) ->
      forall e, incr_on = true -> cron_minute S ("*/" +:+ digits) = Some e ->
      get_service S (self, h)
      = ((self, with_error "【123云盘直链】增量同步配置错误" (Some e) h), Ok (found full))).
Proof.
  intros Hd. cbv zeta. unfold get_service, incremental_sync_service.
  rewrite <- (str_of_int_ok _ _ _ Hd).
  cbv beta iota zeta delta [hbind this hret hraise fst snd error on_host].
  rewrite Hd.
  destruct (truthy (_cron_full_sync_strm self) && truthy (_timing_full_sync_strm self)
            && truthy (_full_sync_strm_paths self));
    destruct (truthy (_incremental_sync_enabled self)
              && truthy (_full_sync_strm_paths self));
    (split; [intros e Hon He; try discriminate Hon; rewrite He; reflexivity|]);
    (split; [intros Hc Hm; try rewrite (Hc eq_refl); try rewrite (Hm eq_refl); reflexivity
            |intros Hc e Hon He; try discriminate Hon; try rewrite (Hc eq_refl);
             rewrite He; reflexivity]).
Qed.

(** X21. The services after [init_plugin], by what the scheduler makes
    of the two triggers asked of it: the crontab expression of the
    periodic full pass (the configured one or, without one,
    ["0 */7 * * *"]) and the step of the incremental pass, [*/n] for
    [n = max(1, interval)] minutes, the interval being 30 when the
    configuration gives none (or 0, or an empty text). The full pass is
    asked for when its switch is on and paths are configured, the
    incremental one when it is enabled and paths are configured; whether
    the plugin is enabled plays no part. A refused crontab expression is
    raised to the caller. With both triggers accepted the services asked
    for are returned, and [None], not an empty list, when there is none.
    A refused step (60 minutes or more, for a scheduler whose minutes
    run to 59) is logged and leaves the incremental pass out. *)
Theorem services_after_init (S : system) (c : config) (self : t) (h : host)
    (self' : t) (h' : host) (r : option bool) (interval : Z) :
  c <> ∅ ->
  init_plugin S (Some c) (self, h) = ((self', h'), Ok r) ->
  py_int (interpreter S) (or_else (get c "incremental_sync_interval") (CInt 30))
  = Ok interval ->
  let cron := or_else (get c "cron_full_sync_strm") (CStr "0 */7 * * *") in
  let step := "*/" +:+ Py.str_of_int (Z.max 1 interval) in
  let full_on := truthy (get c "timing_full_sync_strm")
                 && truthy (get c "full_sync_strm_paths") in
  let incr_on := truthy (get c "incremental_sync_enabled")
                 && truthy (get c "full_sync_strm_paths") in
  let full := if full_on then [full_sync_service cron] else [] in
  let found := fun l : list service => match l with [] => None | _ => Some l end in
  (forall e, full_on = true -> from_crontab S cron = Some e ->
     get_service S (self', h') = ((self', h'), Raise e))
  /\ ((full_on = true -> from_crontab S cron = None) ->
      (incr_on = true -> cron_minute S step = None) ->
      get_service S (self', h')
      = ((self', h'),
         Ok (found (full ++ (if incr_on
                             then [incremental_sync_service (Z.max 1 interval)]
                             else [])))))
  /\ ((full_on = true -> from_crontab S cron = None) ->
      forall e, incr_on = true -> cron_minute S step = Some e ->
      get_service S (self', h')
      = ((self', with_error "【123云盘直链】增量同步配置错误" (Some e) h'),
         Ok (found full))).
Proof.
  intros Hc Hinit Hint.
  destruct (init_plugin_inv S c self h _ r Hc Hinit)
    as (e & l & i & saved & He & Hl & Hi & Hsaved & Hrest).
  rewrite Hint in Hi. injection Hi as <-.
  destruct (config_of_inv _ _ _ Hsaved) as (se & sl & si & Hse & Hsl & Hsi & ->).
  set (self1 := loaded c e l interval (set_storagechain true self)) in *.
  assert (Hfields : _cron_full_sync_strm self' = _cron_full_sync_strm self1
                    /\ _timing_full_sync_strm self' = _timing_full_sync_strm self1
                    /\ _full_sync_strm_paths self' = _full_sync_strm_paths self1
                    /\ _incremental_sync_enabled self' = _incremental_sync_enabled self1
                    /\ _incremental_sync_interval self'
                       = _incremental_sync_interval self1).
  { destruct (supported (interpreter S)) eqn:Hv.
    - match type of Hrest with check_and_schedule S (_, ?h1) = _ =>
        destruct (check_and_schedule_ok S self1 h1 se sl si Hv Hse Hsl Hsi)
          as (s2 & h2 & Hrun & Hsame & _)
      end.
      rewrite Hrun in Hrest. injection Hrest as <- <- <-.
      repeat split;
        [ exact (f_equal _cron_full_sync_strm Hsame)
        | exact (f_equal _timing_full_sync_strm Hsame)
        | exact (f_equal _full_sync_strm_paths Hsame)
        | exact (f_equal _incremental_sync_enabled Hsame)
        | exact (f_equal _incremental_sync_interval Hsame) ].
    - match type of Hrest with check_and_schedule S (_, ?h1) = _ =>
        rewrite (check_and_schedule_unsupported S self1 h1 se sl si Hv Hse Hsl Hsi)
          in Hrest
      end.
      injection Hrest as <- <- <-. repeat split. }
  destruct Hfields as (F1 & F2 & F3 & F4 & F5).
  assert (Hd : str_of_int (interpreter S) (Z.max 1 (_incremental_sync_interval self'))
               = Ok (Py.str_of_int (Z.max 1 interval))).
  { rewrite F5. change (_incremental_sync_interval self1) with interval.
    destruct (Z.max_spec 1 interval) as [[_ ->]|[_ ->]].
    - pose proof (str_of_int_ok _ _ _ Hsi) as Hs. rewrite Hs in Hsi. exact Hsi.
    - apply str_of_int_small. lia. }
  pose proof (get_service_cases S self' h' _ Hd) as Hcases. cbv zeta in Hcases.
  rewrite F1, F2, F3, F4, F5 in Hcases.
  change (_cron_full_sync_strm self1)
    with (or_else (get c "cron_full_sync_strm") (CStr "0 */7 * * *")) in Hcases.
  change (_timing_full_sync_strm self1) with (get c "timing_full_sync_strm") in Hcases.
  change (_full_sync_strm_paths self1) with (get c "full_sync_strm_paths") in Hcases.
  change (_incremental_sync_enabled self1)
    with (or_else (get c "incremental_sync_enabled") (CBool false)) in Hcases.
  change (_incremental_sync_interval self1) with interval in Hcases.
  rewrite (truthy_or_else (get c "cron_full_sync_strm") (CStr "0 */7 * * *") eq_refl)
    in Hcases.
  replace (truthy (or_else (get c "incremental_sync_enabled") (CBool false)))
    with (truthy (get c "incremental_sync_enabled")) in Hcases.
  - cbv zeta. exact Hcases.
  - unfold or_else. destruct (truthy (get c "incremental_sync_enabled")) eqn:Ht;
      [rewrite Ht|]; reflexivity.
Qed.

Lemma services_after_init_witness :
  get_service PluginExample.system312 (fst initialised, snd initialised)
  = ((fst initialised, snd initialised), Ok (Some [incremental_sync_service 30])).
Proof.
  apply (fun H1 H2 H3 =>
           proj1 (proj2 (services_after_init PluginExample.system312
                           PluginExample.filled class_defaults PluginExample.host0
                           (fst initialised) (snd initialised) None 30 H1 H2 H3))).
  - apply (bool_decide_unpack _). vm_compute. exact I.
  - vm_compute. reflexivity.
  - vm_compute. reflexivity.
  - intros _. vm_compute. reflexivity.
  - intros _. vm_compute. reflexivity.
Defined.

(** The services of the filled form, and those of an interval of 0
    minutes given as text and as a number. *)
Example services_on_example :
  snd (get_service PluginExample.system312 initialised)
  = Ok (Some [incremental_sync_service 30])
  /\ map (fun v =>
            snd (get_service PluginExample.system312
                   (fst (init_plugin PluginExample.system312
                           (Some (<["incremental_sync_interval" := v]>
                                    PluginExample.filled))
                           (class_defaults, PluginExample.host0)))))
       [CStr "0"; CInt 0; CStr ""; CNone; CStr "45"]
     = map (fun n => Ok (Some [incremental_sync_service n])) [1; 30; 30; 30; 45].
Proof. split; vm_compute; reflexivity. Qed.

(** An interval of 60 minutes: the step is refused, the refusal is
    logged and no service is left. With the periodic full pass switched
    on as well, that one is the only service. *)
Example services_with_a_refused_step :
  let after c := fst (init_plugin PluginExample.system312 (Some c)
                        (class_defaults, PluginExample.host0)) in
  let hourly := <["incremental_sync_interval" := CStr "60"]> PluginExample.filled in
  let both := <["timing_full_sync_strm" := CBool true]> hourly in
  snd (get_service PluginExample.system312 (after hourly)) = Ok None
  /\ log (around (snd (fst (get_service PluginExample.system312 (after hourly)))))
     = log (around (snd (after hourly)))
       ++ [{| message := "【123云盘直链】增量同步配置错误";
              cause := Some (ValueError
                "the step value is higher than the total range of the expression") |}]
  /\ snd (get_service PluginExample.system312 (after both))
     = Ok (Some [full_sync_service (CStr "0 */7 * * *")]).
Proof. cbv zeta. repeat split; vm_compute; reflexivity. Qed.

End PluginObject.

Lemma view_last_sync_time self p :
  view self = Some p -> _last_sync_time p = Plugin._last_sync_time self.
Proof.
  unfold view.
  destruct (text (Plugin._full_sync_strm_paths self)); [|discriminate].
  destruct (text (Plugin._uid self)); [|discriminate].
  destruct (text (Plugin._secret_key self)); [|discriminate].
  destruct (text (Plugin._user_rmt_mediaext self)); [|discriminate].
  destruct (text (Plugin._user_download_mediaext self)); [|discriminate].
  destruct (text (Plugin._custom_domain self)); [|discriminate].
  simpl. intros [= <-]. reflexivity.
Qed.

(** X20. A form nobody has touched stores the text ["0"] as the time of the
    last pass: it is truthy, and [init_plugin] reads it as the number 0,
    so that the first incremental pass is a full pass. When the stored
    value is missing or falsy (absent, [None], empty, the number 0),
    [init_plugin] takes the clock instead, read for the second time, and
    the first incremental pass skips what the drive already holds. *)
Theorem first_pass_after_init (Sys : Plugin.system) (c : Plugin.config)
    (self : Plugin.t) (h : Plugin.host) (self' : Plugin.t) (h' : Plugin.host)
    (r : option bool) :
  c <> ∅ ->
  Plugin.init_plugin Sys (Some c) (self, h) = ((self', h'), Ok r) ->
  (Plugin.get c "last_sync_time" = Plugin.CStr "0" ->
   Plugin._last_sync_time self' = 0
   /\ forall p E fuel w,
        view self' = Some p -> guard Incremental p = None ->
        incremental_sync_files E fuel p w
        = match full_sync_strm_files E fuel p w with
          | (p', w', NoReturn) => (p', w', NoReturn)
          | (p', w', _) => (p', w', ReturnNone)
          end)
  /\ (Plugin.truthy (Plugin.get c "last_sync_time") = false ->
      Plugin._last_sync_time self'
      = clock (Plugin.passes_env Sys) (S (clock_reads (Plugin.around h)))).
Proof.
  intros Hc Hinit.
  pose proof (init_plugin_last_sync_time Sys c self h self' h' r Hc Hinit) as Hl.
  unfold Plugin.read_last in Hl. split.
  - intros H0. rewrite H0 in Hl. cbn [Plugin.truthy Py.falsy negb fst] in Hl.
    change (Plugin.truthy (Plugin.CStr "0")) with true in Hl. cbn [fst] in Hl.
    rewrite py_int_zero in Hl. injection Hl as Hl.
    split; [symmetry; exact Hl|].
    intros p E fuel w Hp Hg. unfold incremental_sync_files. rewrite Hg.
    rewrite (view_last_sync_time _ _ Hp), <- Hl. reflexivity.
  - intros Hf. rewrite Hf in Hl. cbn [fst] in Hl. injection Hl as Hl.
    symmetry. exact Hl.
Qed.

Lemma first_pass_after_init_witness :
  let X := Plugin.init_plugin PluginExample.system312 (Some PluginExample.filled)
             (Plugin.class_defaults, PluginExample.host0) in
  (Plugin.get PluginExample.filled "last_sync_time" = Plugin.CStr "0" ->
   Plugin._last_sync_time (fst (fst X)) = 0
   /\ forall p E fuel w,
        view (fst (fst X)) = Some p -> guard Incremental p = None ->
        incremental_sync_files E fuel p w
        = match full_sync_strm_files E fuel p w with
          | (p', w', NoReturn) => (p', w', NoReturn)
          | (p', w', _) => (p', w', ReturnNone)
          end)
  /\ (Plugin.truthy (Plugin.get PluginExample.filled "last_sync_time") = false ->
      Plugin._last_sync_time (fst (fst X))
      = clock (Plugin.passes_env PluginExample.system312)
          (S (clock_reads (Plugin.around PluginExample.host0)))).
Proof.
  cbv zeta.
  apply (first_pass_after_init PluginExample.system312 PluginExample.filled
           Plugin.class_defaults PluginExample.host0
           (fst (fst (Plugin.init_plugin PluginExample.system312
                        (Some PluginExample.filled)
                        (Plugin.class_defaults, PluginExample.host0))))
           (snd (fst (Plugin.init_plugin PluginExample.system312
                        (Some PluginExample.filled)
                        (Plugin.class_defaults, PluginExample.host0))))
           None).
  - apply (bool_decide_unpack _). vm_compute. exact I.
  - vm_compute. reflexivity.
Defined.

